(** * ip_whois_tool: a shallow embedding of the lookup engine

    The development follows the Python sources module by module:
    - [whois_tool/util.py]: [validate_ip], [is_valid_ip],
      [filter_valid_ips], the normalizer ([extract_asn],
      [extract_organization], [extract_country], [extract_city],
      [format_timestamp], [normalize_whois_result]) and
      [merge_whois_results];
    - [whois_tool/cache.py]: [CacheManager] ([_get_cache_path], [get],
      [set], [clean_expired]);
    - [whois_tool/resolvers/system_resolver.py]: [_parse_whois_output],
      [_execute_whois_command], [_perform_lookup];
    - [whois_tool/resolvers/base.py]: [BaseResolver]
      ([_apply_rate_limit], [lookup], [register], [get_all_resolvers]);
    - [whois_tool/resolvers/__init__.py]: [get_resolver_by_method],
      [RESOLVER_MAP], [get_available_resolvers], [get_resolver];
    - [whois_tool/engine.py]: [WhoisEngine] ([lookup_ip], [process_ips],
      [clean_cache]);
    - [whois_tool/cli.py]: [get_ip_addresses];
    - [whois_tool/output.py]: [write_json].

    Modelling conventions.
    - A Python [str] is a [string]; a character is a code point in the
      range U+0000..U+00FF (one [ascii]).
    - Python values are the inductive [pyval]; a [dict] with string keys
      is an insertion-ordered association list with unique keys.
    - Wall-clock readings and durations are rationals ([Q]).
    - Stateful code is written in a state-and-exception monad over a
      [World]: the file system, the clock, a plan of injected I/O
      failures, a trace of the side effects performed, and the records
      emitted through the logger of engine.py (the loggers of the other
      modules are left out; logging has no effect on control flow).
    - What the package calls but does not define (the resolvers' data
      sources, [str] of numbers and containers, [datetime]) is the class
      [Backend]; [ipaddress], [re], [os], [json] and [time] are modelled
      as far as the sources use them.
    - Only exceptions deriving from [Exception] are modelled.
    - The thread pool of [process_ips] is modelled by the order in which
      the lookups complete. *)

From Stdlib Require Import ZArith QArith Ascii String List Lia Lqa Bool Permutation.
From stdpp Require Import base option list gmap strings pretty.

Local Open Scope string_scope.
Local Open Scope Z_scope.
Local Open Scope list_scope.

(** ** Python strings *)

(** [str.isspace] on a single character (code points below 256). *)
Definition is_space (c : ascii) : bool :=
  let n := nat_of_ascii c in
  ((9 <=? n)%nat && (n <=? 13)%nat) || ((28 <=? n)%nat && (n <=? 32)%nat)
  || (n =? 133)%nat || (n =? 160)%nat.

(** The line boundaries recognised by [str.splitlines]. *)
Definition is_linebreak (c : ascii) : bool :=
  let n := nat_of_ascii c in
  ((10 <=? n)%nat && (n <=? 13)%nat) || ((28 <=? n)%nat && (n <=? 30)%nat)
  || (n =? 133)%nat.

Definition is_digit (c : ascii) : bool :=
  let n := nat_of_ascii c in (48 <=? n)%nat && (n <=? 57)%nat.

Definition is_hexdigit (c : ascii) : bool :=
  let n := nat_of_ascii c in
  is_digit c || ((65 <=? n)%nat && (n <=? 70)%nat)
  || ((97 <=? n)%nat && (n <=? 102)%nat).

(** ASCII case folding, as used by [re.IGNORECASE] on code points < 256
    for patterns made of ASCII letters. *)
Definition lower (c : ascii) : ascii :=
  let n := nat_of_ascii c in
  if (65 <=? n)%nat && (n <=? 90)%nat then ascii_of_nat (n + 32) else c.

Definition chars (s : string) : list ascii := list_ascii_of_string s.
Definition str (l : list ascii) : string := string_of_list_ascii l.

Fixpoint lstrip_l (l : list ascii) : list ascii :=
  match l with
  | c :: rest => if is_space c then lstrip_l rest else l
  | [] => []
  end.

(** [s.strip()] *)
Definition strip (s : string) : string :=
  str (rev (lstrip_l (rev (lstrip_l (chars s))))).

(** [s.replace(a, b)] for single characters [a] and [b]. *)
Definition replace_char (a b : ascii) (s : string) : string :=
  str (map (fun c => if Ascii.eqb c a then b else c) (chars s)).

(** [s.startswith(p)] *)
Definition startswith (p s : string) : bool := String.prefix p s.

(** [s.endswith(p)] *)
Definition endswith (p s : string) : bool :=
  String.prefix (String.rev p) (String.rev s).

(** [sep.join(l)] for a list of strings. *)
Fixpoint join (sep : string) (l : list string) : string :=
  match l with
  | [] => ""
  | [x] => x
  | x :: rest => x +:+ sep +:+ join sep rest
  end.

(** [s.splitlines()]: [cur] is the line being read, in reverse;
    [after_cr] tells that the previous character was a carriage return,
    so that a line feed directly after it belongs to the same boundary. *)
Fixpoint splitlines_go (cur : list ascii) (after_cr : bool) (l : list ascii)
  : list string :=
  match l with
  | [] => match cur with [] => [] | _ => [str (rev cur)] end
  | c :: rest =>
      if after_cr && Ascii.eqb c "010"%char then splitlines_go cur false rest
      else if is_linebreak c then
        str (rev cur) :: splitlines_go [] (Ascii.eqb c "013"%char) rest
      else splitlines_go (c :: cur) false rest
  end.

Definition splitlines (s : string) : list string :=
  splitlines_go [] false (chars s).


(** [s.split(sep)] for a one-character separator. *)
Fixpoint split_go (sep : ascii) (cur : list ascii) (l : list ascii)
  : list (list ascii) :=
  match l with
  | [] => [rev cur]
  | c :: rest =>
      if Ascii.eqb c sep then rev cur :: split_go sep [] rest
      else split_go sep (c :: cur) rest
  end.

Definition split (sep : ascii) (l : list ascii) : list (list ascii) :=
  split_go sep [] l.

(** [c in s] for a character [c]. *)
Definition has_char (c : ascii) (l : list ascii) : bool :=
  existsb (Ascii.eqb c) l.

(** [needle in s] for strings. *)
Fixpoint contains_l (needle l : list ascii) : bool :=
  if String.prefix (str needle) (str l) then true
  else match l with
       | [] => false
       | _ :: rest => contains_l needle rest
       end.

Definition contains (needle s : string) : bool :=
  contains_l (chars needle) (chars s).

(** ** Python values, dictionaries and exceptions *)

#[local] Set Warnings "-register-all".
Inductive pyval : Type :=
| VNone
| VBool (b : bool)
| VNum (q : Q)
| VStr (s : string)
| VList (l : list pyval)
| VDict (d : list (string * pyval)).

(** A [dict] with [str] keys, in insertion order. *)
Abbreviation dict := (list (string * pyval)).

(** [bool(v)] *)
Definition truthy (v : pyval) : bool :=
  match v with
  | VNone => false
  | VBool b => b
  | VNum q => negb (Qeq_bool q 0)
  | VStr s => negb (String.eqb s "")
  | VList l => match l with [] => false | _ => true end
  | VDict d => match d with [] => false | _ => true end
  end.

(** [type(v).__name__] *)
Definition type_name (v : pyval) : string :=
  match v with
  | VNone => "NoneType"
  | VBool _ => "bool"
  | VNum _ => "float"
  | VStr _ => "str"
  | VList _ => "list"
  | VDict _ => "dict"
  end.

(** [k in d] *)
Fixpoint dhas (k : string) (d : dict) : bool :=
  match d with
  | [] => false
  | (k', _) :: rest => if String.eqb k k' then true else dhas k rest
  end.

(** [d[k]], as an option. *)
Fixpoint dlookup (k : string) (d : dict) : option pyval :=
  match d with
  | [] => None
  | (k', v) :: rest => if String.eqb k k' then Some v else dlookup k rest
  end.

(** [d.get(k, default)] *)
Definition dget_default (k : string) (default : pyval) (d : dict) : pyval :=
  match dlookup k d with Some v => v | None => default end.

(** [d.get(k)] *)
Definition dget (k : string) (d : dict) : pyval := dget_default k VNone d.

(** [d[k] = v]: an existing key keeps its position, a new key is
    appended. *)
Fixpoint dset (k : string) (v : pyval) (d : dict) : dict :=
  match d with
  | [] => [(k, v)]
  | (k', v') :: rest =>
      if String.eqb k k' then (k', v) :: rest else (k', v') :: dset k v rest
  end.

(** The exception classes that occur, with the part of the class
    hierarchy that the [except] clauses of the sources distinguish:
    [JSONDecodeError] derives from [ValueError]; everything derives from
    [Exception]. *)
Inductive ExnClass : Type :=
| ValueError
| JSONDecodeError
| KeyError
| TypeError
| AttributeError
| OSError
| LibraryError.

Definition ExnClass_eqb (a b : ExnClass) : bool :=
  match a, b with
  | ValueError, ValueError | JSONDecodeError, JSONDecodeError
  | KeyError, KeyError | TypeError, TypeError
  | AttributeError, AttributeError | OSError, OSError
  | LibraryError, LibraryError => true
  | _, _ => false
  end.

(** [issubclass(c, ValueError)] *)
Definition is_ValueError (c : ExnClass) : bool :=
  match c with ValueError | JSONDecodeError => true | _ => false end.

(** An exception object: its class and [str(e)]. *)
Record exn : Type := Exn { exn_class : ExnClass; exn_str : string }.

(** The outcome of evaluating an expression or running a statement. *)
Inductive Res (A : Type) : Type :=
| Ok (a : A)
| Raise (e : exn).
Arguments Ok {A} a.
Arguments Raise {A} e.

Definition is_ok {A} (r : Res A) : bool :=
  match r with Ok _ => true | Raise _ => false end.

(** ** whois_tool/util.py: merge_whois_results *)

(** Attribute access [v.copy()] / [v.get] in [merge_whois_results]: only
    a [dict] has both. *)
Definition merge_base (v : pyval) : Res dict :=
  match v with
  | VDict d => Ok d
  | VList _ => Raise (Exn AttributeError "'list' object has no attribute 'get'")
  | _ => Raise (Exn AttributeError
                  ("'" +:+ type_name v +:+ "' object has no attribute 'copy'"))
  end.

Definition merge_later (v : pyval) : Res dict :=
  match v with
  | VDict d => Ok d
  | _ => Raise (Exn AttributeError
                  ("'" +:+ type_name v +:+ "' object has no attribute 'get'"))
  end.

(** The test [key in ('source', 'raw')]. *)
Definition is_source_or_raw (key : string) : bool :=
  String.eqb key "source" || String.eqb key "raw".

(** One iteration of the inner loop [for key, value in result.items()]. *)
Definition merge_item (merged : dict) (kv : string * pyval) : dict :=
  let (key, value) := kv in
  if is_source_or_raw key then merged
  else
    match dget key merged with
    | VNone => dset key value merged
    | VStr "" => if truthy value then dset key value merged else merged
    | _ => merged
    end.

(** The inner loop over one later result. *)
Definition merge_one (merged : dict) (result : dict) : dict :=
  fold_left merge_item result merged.

(** The outer loop [for result in results[1:]], carrying [merged] and
    [sources]. *)
Fixpoint merge_loop (merged : dict) (sources : list pyval)
  (later : list pyval) : Res (dict * list pyval) :=
  match later with
  | [] => Ok (merged, sources)
  | v :: rest =>
      match merge_later v with
      | Raise e => Raise e
      | Ok result =>
          merge_loop (merge_one merged result)
            (sources ++ [dget_default "source" (VStr "unknown") result]) rest
      end
  end.

(** [', '.join(sources)]: every item has to be a [str]. *)
Fixpoint join_sources_go (i : nat) (sources : list pyval) : Res (list string) :=
  match sources with
  | [] => Ok []
  | VStr s :: rest =>
      match join_sources_go (S i) rest with
      | Ok l => Ok (s :: l)
      | Raise e => Raise e
      end
  | v :: _ =>
      Raise (Exn TypeError
               ("sequence item " +:+ pretty i +:+ ": expected str instance, "
                +:+ type_name v +:+ " found"))
  end.

Definition join_sources (sources : list pyval) : Res string :=
  match join_sources_go 0%nat sources with
  | Ok l => Ok (join ", " l)
  | Raise e => Raise e
  end.

Definition merge_whois_results (results : list pyval) : Res pyval :=
  match results with
  | [] => Ok (VDict [])
  | first :: later =>
      match merge_base first with
      | Raise e => Raise e
      | Ok merged =>
          match merge_loop merged
                  [dget_default "source" (VStr "unknown") merged] later with
          | Raise e => Raise e
          | Ok (merged', sources) =>
              match join_sources sources with
              | Raise e => Raise e
              | Ok joined => Ok (VDict (dset "source" (VStr joined) merged'))
              end
          end
      end
  end.

(** ** Identity validation (util.py: validate_ip, is_valid_ip)

    [validate_ip] delegates to [ipaddress.ip_address] of the Python
    standard library. The functions below follow that module's parsers
    ([IPv4Address._ip_int_from_string], [_parse_octet],
    [IPv6Address._split_scope_id], [_ip_int_from_string],
    [_parse_hextet]) as far as acceptance is concerned. *)

Definition decimal_value (l : list ascii) : N :=
  fold_left (fun acc c => (10 * acc + (N_of_ascii c - 48))%N) l 0%N.

Definition parse_octet_ok (octet : list ascii) : bool :=
  match octet with
  | [] => false
  | c :: rest =>
      forallb is_digit octet
      && (length octet <=? 3)%nat
      && negb (Ascii.eqb c "0"%char && negb (match rest with [] => true | _ => false end))
      && (decimal_value octet <=? 255)%N
  end.

Definition ipv4_ok (l : list ascii) : bool :=
  negb (has_char "/"%char l)
  && negb (match l with [] => true | _ => false end)
  && (let octets := split "."%char l in
      (length octets =? 4)%nat && forallb parse_octet_ok octets).

Definition parse_hextet_ok (hextet : list ascii) : bool :=
  forallb is_hexdigit hextet
  && (length hextet <=? 4)%nat
  && negb (match hextet with [] => true | _ => false end).

(** [_split_scope_id]: the address part, if the zone identifier (the
    text after the first ['%']) is well formed or absent. *)
Definition split_scope_id (l : list ascii) : option (list ascii) :=
  match split "%"%char l with
  | [addr] => Some addr
  | [addr; scope_id] =>
      match scope_id with [] => None | _ => Some addr end
  | _ => None
  end.

Definition is_empty_part (part : list ascii) : bool :=
  match part with [] => true | _ => false end.

(** The hextets of an IPv6 literal, once an IPv4-style suffix has been
    replaced by two hextets. *)
Definition ipv6_parts (addr : list ascii) : option (list (list ascii)) :=
  let parts := split ":"%char addr in
  if (length parts <? 3)%nat then None
  else
    let last_part := List.last parts [] in
    if has_char "."%char last_part then
      if ipv4_ok last_part
      then Some (removelast parts ++ [chars "0"; chars "0"])
      else None
    else Some parts.

(** Positions [i] with [1 <= i < len(parts) - 1] holding an empty part. *)
Definition skip_indices (parts : list (list ascii)) : list nat :=
  filter (fun i => Is_true (is_empty_part (nth i parts (chars "x"))))
    (seq 1 (length parts - 2)).

Definition ipv6_hextets_ok (parts : list (list ascii)) : bool :=
  if (9 <? length parts)%nat then false
  else
    let first_empty := is_empty_part (nth 0 parts []) in
    let last_empty := is_empty_part (List.last parts []) in
    match skip_indices parts with
    | [skip_index] =>
        let parts_hi := if first_empty then (skip_index - 1)%nat else skip_index in
        let parts_lo0 := (length parts - skip_index - 1)%nat in
        let parts_lo := if last_empty then (parts_lo0 - 1)%nat else parts_lo0 in
        negb (first_empty && negb (parts_hi =? 0)%nat)
        && negb (last_empty && negb (parts_lo =? 0)%nat)
        && (parts_hi + parts_lo <? 8)%nat
        && forallb parse_hextet_ok (firstn parts_hi parts)
        && forallb parse_hextet_ok (skipn (length parts - parts_lo) parts)
    | [] =>
        (length parts =? 8)%nat && forallb parse_hextet_ok parts
    | _ => false
    end.

Definition ipv6_ok (l : list ascii) : bool :=
  negb (has_char "/"%char l)
  && match split_scope_id l with
     | None => false
     | Some addr =>
         negb (is_empty_part addr)
         && match ipv6_parts addr with
            | None => false
            | Some parts => ipv6_hextets_ok parts
            end
     end.

(** [ipaddress.ip_address(s)] succeeds. *)
Definition ip_address_ok (s : string) : bool :=
  ipv4_ok (chars s) || ipv6_ok (chars s).

Definition validate_ip (ip_str : string) : Res unit :=
  if ip_address_ok ip_str then Ok tt
  else Raise (Exn ValueError ("Invalid IP address: " +:+ ip_str)).

(** [validate_ip] raises nothing but [ValueError], which [is_valid_ip]
    catches. *)
Definition is_valid_ip (ip_str : string) : bool :=
  match validate_ip ip_str with
  | Ok _ => true
  | Raise _ => false
  end.

Definition filter_valid_ips (ip_list : list string) : list string :=
  List.filter is_valid_ip ip_list.

(** ** Regular expressions (the fragment of [re] used by the sources)

    A backtracking matcher with Python's search order: alternatives are
    tried left to right, [*] is greedy, and [re.search] returns the match
    at the leftmost starting position. All patterns have one capturing
    group. *)

Inductive regex : Type :=
| REps                          (* the empty pattern *)
| RLit (s : string)             (* literal text *)
| RClass (p : ascii -> bool)    (* one character of a class: \s, \d, . *)
| RSeq (r1 r2 : regex)
| RAlt (r1 r2 : regex)          (* r1|r2 *)
| RStar (r : regex)             (* r*, greedy *)
| RGroup (r : regex)            (* (r), the capturing group *)
| REnd.                         (* $ *)

Definition ROpt (r : regex) : regex := RAlt r REps.       (* r? *)
Definition RPlus (r : regex) : regex := RSeq r (RStar r).  (* r+ *)
Definition re_space : regex := RClass is_space.            (* \s *)
Definition re_digit : regex := RClass is_digit.            (* \d *)
Definition re_dot : regex :=                               (* . *)
  RClass (fun c => negb (Ascii.eqb c "010"%char)).

(** Strip a literal prefix, ignoring case if [icase] is set. *)
Fixpoint strip_lit (icase : bool) (lit : list ascii) (l : list ascii)
  : option (list ascii) :=
  match lit, l with
  | [], _ => Some l
  | a :: lit', c :: l' =>
      if (if icase then Ascii.eqb (lower a) (lower c) else Ascii.eqb a c)
      then strip_lit icase lit' l' else None
  | _ :: _, [] => None
  end.

(** [$] without [re.MULTILINE]: at the end, or before a final newline. *)
Definition at_end (l : list ascii) : bool :=
  match l with
  | [] => true
  | [c] => Ascii.eqb c "010"%char
  | _ => false
  end.

(** [rmatch icase r l cap k]: match [r] at the head of [l], then
    continue with [k] on the rest; [cap] is the text of the capturing
    group so far; [icase] stands for the flag [re.IGNORECASE]. *)
Fixpoint rmatch (icase : bool) (r : regex) (l : list ascii)
  (cap : option (list ascii))
  (k : list ascii -> option (list ascii) -> option (list ascii))
  {struct r} : option (list ascii) :=
  match r with
  | REps => k l cap
  | RLit s =>
      match strip_lit icase (chars s) l with
      | Some l' => k l' cap
      | None => None
      end
  | RClass p =>
      match l with
      | c :: l' => if p c then k l' cap else None
      | [] => None
      end
  | RSeq r1 r2 => rmatch icase r1 l cap (fun l' cap' => rmatch icase r2 l' cap' k)
  | RAlt r1 r2 =>
      match rmatch icase r1 l cap k with
      | Some res => Some res
      | None => rmatch icase r2 l cap k
      end
  | RStar r1 =>
      (fix star (fuel : nat) (l : list ascii) (cap : option (list ascii))
         : option (list ascii) :=
         match fuel with
         | O => k l cap
         | S fuel' =>
             match rmatch icase r1 l cap
                     (fun l' cap' =>
                        if (length l' <? length l)%nat
                        then star fuel' l' cap' else None) with
             | Some res => Some res
             | None => k l cap
             end
         end) (length l) l cap
  | RGroup r1 =>
      rmatch icase r1 l cap
        (fun l' _ => k l' (Some (firstn (length l - length l') l)))
  | REnd => if at_end l then k l cap else None
  end.

(** [re.search(pattern, text)], giving [match.group(1)]. *)
Fixpoint search_l (icase : bool) (r : regex) (l : list ascii)
  : option (list ascii) :=
  match rmatch icase r l None (fun _ cap => Some (default [] cap)) with
  | Some g => Some g
  | None =>
      match l with
      | [] => None
      | _ :: rest => search_l icase r rest
      end
  end.

Definition re_search (icase : bool) (r : regex) (text : string) : option string :=
  str <$> search_l icase r (chars text).

(** ** whois_tool/resolvers/system_resolver.py: _parse_whois_output *)

Fixpoint alternatives (alts : list regex) : regex :=
  match alts with
  | [] => RClass (fun _ => false)
  | [r] => r
  | r :: rest => RAlt r (alternatives rest)
  end.

(** [(?:a|b|...):\s*(.+)$] *)
Definition field_pattern (names : list regex) : regex :=
  RSeq (alternatives names)
    (RSeq (RLit ":") (RSeq (RStar re_space) (RSeq (RGroup (RPlus re_dot)) REnd))).

(** The table [patterns], in the order of the dictionary literal. *)
Definition patterns : list (string * list regex) :=
  [ ("organization",
      [ field_pattern [RLit "Organization";
                       RSeq (RLit "Org") (RSeq (ROpt (RLit "anization")) (RLit " Name"))];
        field_pattern [RLit "descr"; RLit "owner"] ]);
    ("country",
      [ field_pattern [RLit "Country"; RLit "Country Code"];
        field_pattern [RLit "country"] ]);
    ("asn",
      [ field_pattern [RLit "OriginAS"; RLit "Origin AS"; RLit "ASNumber"; RLit "ASN"];
        (* origin:\s*AS(\d+)$ *)
        RSeq (RLit "origin:")
          (RSeq (RStar re_space)
             (RSeq (RLit "AS") (RSeq (RGroup (RPlus re_digit)) REnd))) ]);
    ("network",
      [ field_pattern [RLit "CIDR"; RLit "NetRange"; RLit "Network"];
        field_pattern [RLit "inetnum"] ]);
    ("registered",
      [ field_pattern [RLit "RegDate"; RLit "Created"; RLit "Registration Date"];
        field_pattern [RLit "created"] ]) ].

(** The loop [for pattern in pattern_list] with its [break]: the value
    captured by the first pattern of the list that matches the line. *)
Fixpoint first_match (pattern_list : list regex) (line : string)
  : option string :=
  match pattern_list with
  | [] => None
  | pattern :: rest =>
      match re_search true pattern line with
      | Some g => Some (strip g)
      | None => first_match rest line
      end
  end.

(** The loop [for key, pattern_list in patterns.items()] on one line. *)
Definition parse_line_keys (table : list (string * list regex))
  (line : string) (result : dict) : dict :=
  fold_left
    (fun result kp =>
       match first_match (snd kp) line with
       | Some v => dset (fst kp) (VStr v) result
       | None => result
       end)
    table result.

(** [not line or line.startswith('%') or line.startswith('#')] *)
Definition skip_line (line : string) : bool :=
  String.eqb line "" || startswith "%" line || startswith "#" line.

(** One iteration of [for line in output.splitlines()]. *)
Definition parse_line (result : dict) (raw_line : string) : dict :=
  let line := strip raw_line in
  if skip_line line then result
  else parse_line_keys patterns line result.

Definition _parse_whois_output (output : string) (ip : string) : dict :=
  fold_left parse_line (splitlines output) [("ip", VStr ip)].

(** ** The environment: file system, clock, failures, trace, log *)

(** What a file holds, seen through [json.load]: a document that decodes
    to a value, or text that does not decode. *)
Inductive FileData : Type :=
| JsonDoc (v : pyval)
| Garbled (text : string).

(** Side effects, in the order in which they are performed. *)
Inductive Event : Type :=
| EvSleep (seconds : Q)                  (* time.sleep *)
| EvRequest (resolver ip : string)       (* a call of _perform_lookup *)
| EvWrite (path : string)                (* open(path, 'w') and json.dump *)
| EvReplace (src dst : string)           (* os.replace *)
| EvRemove (path : string).              (* os.remove *)

Inductive Level : Type := DEBUG | INFO | WARNING | ERROR.

Record World : Type := mkWorld {
  files : gmap string FileData;          (* regular files, by path *)
  dirs : gset string;                    (* existing directories *)
  clock : Q;                             (* what time.time() returns *)
  faults : list (option string);         (* the next I/O calls: fail with this message *)
  trace : list Event;
  log : list (Level * string)            (* records of logger 'whois_tool.engine' *)
}.

Definition set_files (f : gmap string FileData) (w : World) : World :=
  mkWorld f (dirs w) (clock w) (faults w) (trace w) (log w).
Definition set_clock (t : Q) (w : World) : World :=
  mkWorld (files w) (dirs w) t (faults w) (trace w) (log w).
Definition set_faults (fl : list (option string)) (w : World) : World :=
  mkWorld (files w) (dirs w) (clock w) fl (trace w) (log w).
Definition add_event (e : Event) (w : World) : World :=
  mkWorld (files w) (dirs w) (clock w) (faults w) (trace w ++ [e]) (log w).
Definition add_log (lvl : Level) (msg : string) (w : World) : World :=
  mkWorld (files w) (dirs w) (clock w) (faults w) (trace w) (log w ++ [(lvl, msg)]).

(** ** The monad of statements: state and exceptions *)

Definition M (S A : Type) : Type := S -> Res A * S.

Definition ret {S A} (a : A) : M S A := fun s => (Ok a, s).

Definition raise {S A} (e : exn) : M S A := fun s => (Raise e, s).

Definition bind {S A B} (m : M S A) (k : A -> M S B) : M S B :=
  fun s =>
    match m s with
    | (Ok a, s') => k a s'
    | (Raise e, s') => (Raise e, s')
    end.

(** [try: m except ...: h]: [h e] is the body of the first [except]
    clause that matches [e], if any. *)
Definition try_except {S A} (m : M S A) (h : exn -> option (M S A)) : M S A :=
  fun s =>
    match m s with
    | (Ok a, s') => (Ok a, s')
    | (Raise e, s') =>
        match h e with
        | Some k => k s'
        | None => (Raise e, s')
        end
    end.

Definition lift_res {S A} (r : Res A) : M S A := fun s => (r, s).

Declare Scope py_scope.
Delimit Scope py_scope with py.
Notation "x <- m ;; k" := (bind m (fun x => k))
  (at level 100, m at next level, right associativity) : py_scope.
Notation "m ;;; k" := (bind m (fun _ => k))
  (at level 100, right associativity) : py_scope.
Local Open Scope py_scope.

(** ** Primitives of the environment *)

Definition Qlt_bool (x y : Q) : bool := negb (Qle_bool y x).

Definition time_time : M World Q := fun w => (Ok (clock w), w).

Definition time_sleep (seconds : Q) : M World unit :=
  fun w =>
    if Qlt_bool seconds 0
    then (Raise (Exn ValueError "sleep length must be non-negative"), w)
    else (Ok tt, add_event (EvSleep seconds) (set_clock (clock w + seconds)%Q w)).

Definition logger (lvl : Level) (msg : string) : M World unit :=
  fun w => (Ok tt, add_log lvl msg w).

(** Every I/O call that can fail takes the next entry of the plan. *)
Definition io_fault : M World unit :=
  fun w =>
    match faults w with
    | Some msg :: rest => (Raise (Exn OSError msg), set_faults rest w)
    | None :: rest => (Ok tt, set_faults rest w)
    | [] => (Ok tt, w)
    end.

Definition no_such_file (path : string) : exn :=
  Exn OSError ("[Errno 2] No such file or directory: '" +:+ path +:+ "'").

(** [os.path.join(a, b)] (posixpath) *)
Definition os_path_join (a b : string) : string :=
  if startswith "/" b then b
  else if String.eqb a "" || endswith "/" a then a +:+ b
  else a +:+ "/" +:+ b.

(** [os.path.exists(path)] *)
Definition os_path_exists (path : string) : M World bool :=
  fun w => (Ok (bool_decide (is_Some (files w !! path))
                || bool_decide (path ∈ dirs w)), w).

(** [with open(path) as f: data = json.load(f)] *)
Definition read_json (path : string) : M World pyval :=
  io_fault ;;;
  fun w =>
    match files w !! path with
    | None => (Raise (no_such_file path), w)
    | Some (JsonDoc v) => (Ok v, w)
    | Some (Garbled _) =>
        (Raise (Exn JSONDecodeError "Expecting value: line 1 column 1 (char 0)"), w)
    end.

(** [with open(path, 'w') as f: json.dump(data, f)]: opening truncates
    the file; a failure while dumping leaves it incomplete. *)
Definition write_json (path : string) (data : pyval) : M World unit :=
  io_fault ;;;
  (fun w => (Ok tt, add_event (EvWrite path)
                      (set_files (<[path := Garbled ""]> (files w)) w))) ;;;
  io_fault ;;;
  fun w => (Ok tt, set_files (<[path := JsonDoc data]> (files w)) w).

(** [os.replace(src, dst)] *)
Definition os_replace (src dst : string) : M World unit :=
  io_fault ;;;
  fun w =>
    match files w !! src with
    | None => (Raise (no_such_file src), w)
    | Some data =>
        (Ok tt, add_event (EvReplace src dst)
                  (set_files (<[dst := data]> (delete src (files w))) w))
    end.

(** [os.remove(path)] *)
Definition os_remove (path : string) : M World unit :=
  io_fault ;;;
  fun w =>
    match files w !! path with
    | None => (Raise (no_such_file path), w)
    | Some _ =>
        (Ok tt, add_event (EvRemove path) (set_files (delete path (files w)) w))
    end.

Fixpoint strip_prefix (p l : list ascii) : option (list ascii) :=
  match p, l with
  | [], _ => Some l
  | a :: p', c :: l' => if Ascii.eqb a c then strip_prefix p' l' else None
  | _ :: _, [] => None
  end.

(** The name under which [path] appears in directory [d], if it is a
    direct entry of [d]. *)
Definition entry_name (d path : string) : option string :=
  let prefix := if String.eqb d "" || endswith "/" d then d else d +:+ "/" in
  match strip_prefix (chars prefix) (chars path) with
  | Some name =>
      if is_empty_part name || has_char "/"%char name then None
      else Some (str name)
  | None => None
  end.

(** [os.listdir(d)]: the names of the files directly in [d]. *)
Definition os_listdir (d : string) : M World (list string) :=
  io_fault ;;;
  fun w =>
    if bool_decide (d ∈ dirs w)
    then (Ok (omap (entry_name d) (fst <$> map_to_list (files w))), w)
    else (Raise (no_such_file d), w).

(** ** whois_tool/cache.py: CacheManager *)

Definition DEFAULT_TTL : Q := 86400.

Record CacheManager : Type := mkCacheManager {
  cache_dir : string;
  ttl : Q
}.

Definition _get_cache_path (self : CacheManager) (ip method : string) : string :=
  let ip := replace_char ":" "_" ip in
  os_path_join (cache_dir self) (ip +:+ "_" +:+ method +:+ ".json").

(** A number, as the operand of [-] and [>]. *)
Definition as_number (v : pyval) : option Q :=
  match v with
  | VNum q => Some q
  | VBool b => Some (if b then 1 else 0)%Q
  | _ => None
  end.

(** [now - data.get('timestamp', 0)], for [data] as read from a file. *)
Definition entry_age (now : Q) (data : pyval) : Res Q :=
  match data with
  | VDict d =>
      match as_number (dget_default "timestamp" (VNum 0) d) with
      | Some t => Ok (now - t)%Q
      | None =>
          Raise (Exn TypeError
                   ("unsupported operand type(s) for -: 'float' and '"
                    +:+ type_name (dget_default "timestamp" (VNum 0) d) +:+ "'"))
      end
  | _ =>
      Raise (Exn AttributeError
               ("'" +:+ type_name data +:+ "' object has no attribute 'get'"))
  end.

(** [data.get('result')], after [entry_age] has succeeded. *)
Definition entry_result (data : pyval) : pyval :=
  match data with
  | VDict d => dget "result" d
  | _ => VNone
  end.

Definition CacheManager_get (self : CacheManager) (ip method : string)
  : M World pyval :=
  try_except
    (let cache_file := _get_cache_path self ip method in
     present <- os_path_exists cache_file ;;
     if negb present then ret VNone
     else
       data <- read_json cache_file ;;
       now <- time_time ;;
       age <- lift_res (entry_age now data) ;;
       if Qlt_bool (ttl self) age then ret VNone
       else ret (entry_result data))
    (fun e =>
       if ExnClass_eqb (exn_class e) JSONDecodeError
       then Some (ret VNone)      (* except json.JSONDecodeError *)
       else Some (ret VNone)).    (* except Exception *)

Definition CacheManager_set (self : CacheManager) (ip method : string)
  (result : pyval) : M World bool :=
  match result with
  | VNone => ret false
  | _ =>
      try_except
        (let cache_file := _get_cache_path self ip method in
         now <- time_time ;;
         let data := VDict [("timestamp", VNum now); ("result", result)] in
         let temp_file := cache_file +:+ ".tmp" in
         write_json temp_file data ;;;
         os_replace temp_file cache_file ;;;
         ret true)
        (fun e => Some (ret false))
  end.

(** The [try] statement in the loop of [clean_expired] on one file;
    the result tells whether [cleaned] is incremented. *)
Definition clean_file (self : CacheManager) (now : Q) (filename : string)
  : M World bool :=
  let full_path := os_path_join (cache_dir self) filename in
  try_except
    (data <- read_json full_path ;;
     age <- lift_res (entry_age now data) ;;
     if Qlt_bool (ttl self) age
     then os_remove full_path ;;; ret true
     else ret false)
    (fun e =>
       if ExnClass_eqb (exn_class e) JSONDecodeError
          || ExnClass_eqb (exn_class e) KeyError
       then Some (try_except (os_remove full_path ;;; ret true)
                    (fun _ => Some (ret false)))
       else Some (ret false)).

Fixpoint clean_loop (self : CacheManager) (now : Q) (names : list string)
  (cleaned : nat) : M World nat :=
  match names with
  | [] => ret cleaned
  | filename :: rest =>
      if negb (endswith ".json" filename) then clean_loop self now rest cleaned
      else if endswith ".tmp" filename then clean_loop self now rest cleaned
      else
        removed <- clean_file self now filename ;;
        clean_loop self now rest (if removed then S cleaned else cleaned)
  end.

Definition CacheManager_clean_expired (self : CacheManager) : M World nat :=
  now <- time_time ;;
  present <- os_path_exists (cache_dir self) ;;
  if negb present then ret 0%nat
  else
    listing <- try_except (names <- os_listdir (cache_dir self) ;; ret (Some names))
                 (fun _ => Some (ret None)) ;;
    match listing with
    | None => ret 0%nat
    | Some names => clean_loop self now names 0%nat
    end.

(** ** What lies outside the package *)

(** The concrete resolver classes. *)
Inductive ResolverKind : Type :=
| IPWhoisResolver
| PythonWhoisResolver
| SystemWhoisResolver.

Definition class_name (k : ResolverKind) : string :=
  match k with
  | IPWhoisResolver => "IPWhoisResolver"
  | PythonWhoisResolver => "PythonWhoisResolver"
  | SystemWhoisResolver => "SystemWhoisResolver"
  end.

(** The libraries and services that the package calls.
    - [perform_lookup k ip timeout w]: the outcome of the abstract method
      [_perform_lookup] of a resolver of class [k] in world [w] (its
      implementations query external libraries or run the [whois]
      command), and the time the call takes.
    - [py_repr v]: the text [str(v)] for a value that is not a string,
      [None] or a boolean (numbers, lists, dictionaries).
    - [datetime_format v]: the text
      [dt.strftime("%Y-%m-%d %H:%M:%S")] for the date that [datetime]
      reads out of the number or string [v], if it reads one. *)
Class Backend : Type := {
  perform_lookup : ResolverKind -> string -> option Q -> World -> Res pyval * Q;
  py_repr : pyval -> string;
  datetime_format : pyval -> option string
}.

(** ** whois_tool/util.py: the normalizer *)

Definition and_then {A B} (r : Res A) (k : A -> Res B) : Res B :=
  match r with
  | Ok a => k a
  | Raise e => Raise e
  end.

Notation "'let?' x ':=' r 'in' k" := (and_then r (fun x => k))
  (at level 10, x name, r at level 100, k at level 200) : py_scope.

(** [str(v)] *)
Definition py_str `{Backend} (v : pyval) : string :=
  match v with
  | VStr s => s
  | VNone => "None"
  | VBool true => "True"
  | VBool false => "False"
  | _ => py_repr v
  end.

(** [key in container] for a string [key]. *)
Definition py_in (key : string) (container : pyval) : Res bool :=
  match container with
  | VDict d => Ok (dhas key d)
  | VStr s => Ok (contains key s)
  | VList l =>
      Ok (existsb (fun v => match v with
                            | VStr s => String.eqb s key
                            | _ => false
                            end) l)
  | _ =>
      Raise (Exn TypeError
               ("argument of type '" +:+ type_name container +:+ "' is not iterable"))
  end.

(** [container[key]] for a string [key]. *)
Definition py_getitem (key : string) (container : pyval) : Res pyval :=
  match container with
  | VDict d =>
      match dlookup key d with
      | Some v => Ok v
      | None => Raise (Exn KeyError ("'" +:+ key +:+ "'"))
      end
  | VStr _ => Raise (Exn TypeError "string indices must be integers, not 'str'")
  | VList _ =>
      Raise (Exn TypeError "list indices must be integers or slices, not str")
  | _ =>
      Raise (Exn TypeError
               ("'" +:+ type_name container +:+ "' object is not subscriptable"))
  end.

(** [container[key] = v] for a string [key]. *)
Definition py_setitem (key : string) (v : pyval) (container : pyval) : Res pyval :=
  match container with
  | VDict d => Ok (VDict (dset key v d))
  | VList _ =>
      Raise (Exn TypeError "list indices must be integers or slices, not str")
  | _ =>
      Raise (Exn TypeError
               ("'" +:+ type_name container
                +:+ "' object does not support item assignment"))
  end.

Definition is_dict (v : pyval) : bool :=
  match v with VDict _ => true | _ => false end.

Definition is_list (v : pyval) : bool :=
  match v with VList _ => true | _ => false end.

(** [extract_asn]: the digits after "AS", else the first run of digits. *)
Definition extract_asn (asn_str : string) : pyval :=
  if String.eqb asn_str "" then VNone
  else
    match re_search false (RSeq (RLit "AS") (RGroup (RPlus re_digit))) asn_str with
    | Some digits => VStr digits
    | None =>
        match re_search false (RGroup (RPlus re_digit)) asn_str with
        | Some digits => VStr digits
        | None => VNone
        end
    end.

(** The loop [for key in [...]: if key in data and data[key]: return
    str(data[key]).strip()] of the three extractors below. *)
Fixpoint probe_keys `{Backend} (keys : list string) (data : dict) : pyval :=
  match keys with
  | [] => VNone
  | key :: rest =>
      match dlookup key data with
      | Some v => if truthy v then VStr (strip (py_str v)) else probe_keys rest data
      | None => probe_keys rest data
      end
  end.

Definition extract_organization `{Backend} (org_data : pyval) : pyval :=
  if negb (truthy org_data) then VNone
  else
    match org_data with
    | VStr s => VStr (strip s)
    | VDict d => probe_keys ["name"; "org"; "organization"; "orgName"] d
    | _ => VNone
    end.

Definition extract_country `{Backend} (location_data : pyval) : pyval :=
  if negb (truthy location_data) then VNone
  else
    match location_data with
    | VStr s => VStr (strip s)
    | VDict d => probe_keys ["country"; "cc"; "countryCode"; "country_code"] d
    | _ => VNone
    end.

Definition extract_city `{Backend} (location_data : pyval) : pyval :=
  if negb (truthy location_data) then VNone
  else
    match location_data with
    | VStr _ => VNone
    | VDict d => probe_keys ["city"; "cityName"; "city_name"] d
    | _ => VNone
    end.

(** [format_timestamp]: numbers and strings go through [datetime]; when
    that fails the value is returned as text, unless it is falsy. *)
Definition format_timestamp `{Backend} (timestamp : pyval) : pyval :=
  match timestamp with
  | VNone => VNone
  | VList _ | VDict _ => VStr (py_str timestamp)
  | _ =>
      match datetime_format timestamp with
      | Some text => VStr text
      | None => if truthy timestamp then VStr (py_str timestamp) else VNone
      end
  end.

(** The loop [for net in raw_result['nets']] of the normalizer. *)
Fixpoint first_description `{Backend} (nets : list pyval) (result : dict)
  : Res dict :=
  match nets with
  | [] => Ok result
  | net :: rest =>
      let? described := py_in "description" net in
      if described then
        let? description := py_getitem "description" net in
        Ok (dset "organization" (extract_organization description) result)
      else first_description rest result
  end.

Definition normalize_whois_result `{Backend} (raw_result : pyval)
  (source : string) : Res dict :=
  let result : dict :=
    [("ip", VNone); ("network", VNone); ("asn", VNone);
     ("organization", VNone); ("country", VNone); ("city", VNone);
     ("registered", VNone); ("source", VStr source); ("raw", raw_result)] in
  (* Extract IP *)
  let? has_ip := py_in "ip" raw_result in
  let? result :=
    (if has_ip then
       let? v := py_getitem "ip" raw_result in Ok (dset "ip" v result)
     else
       let? has_query := py_in "query" raw_result in
       if has_query then
         let? v := py_getitem "query" raw_result in Ok (dset "ip" v result)
       else Ok result) in
  (* Extract network *)
  let? has_network := py_in "network" raw_result in
  let? network :=
    (if has_network then py_getitem "network" raw_result else Ok VNone) in
  let? result :=
    (if has_network && is_dict network then
       let? has_cidr := py_in "cidr" network in
       if has_cidr then
         let? v := py_getitem "cidr" network in Ok (dset "network" v result)
       else
         let? has_start := py_in "start_address" network in
         let? has_end :=
           (if has_start then py_in "end_address" network else Ok false) in
         if has_start && has_end then
           let? first := py_getitem "start_address" network in
           let? last := py_getitem "end_address" network in
           Ok (dset "network" (VStr (py_str first +:+ "-" +:+ py_str last)) result)
         else Ok result
     else
       let? has_cidr := py_in "cidr" raw_result in
       if has_cidr then
         let? v := py_getitem "cidr" raw_result in Ok (dset "network" v result)
       else Ok result) in
  (* Extract ASN *)
  let? has_asn := py_in "asn" raw_result in
  let? result :=
    (if has_asn then
       let? v := py_getitem "asn" raw_result in
       Ok (dset "asn" (extract_asn (py_str v)) result)
     else Ok result) in
  (* Extract organization *)
  let? has_org := py_in "org" raw_result in
  let? result :=
    (if has_org then
       let? v := py_getitem "org" raw_result in
       Ok (dset "organization" (extract_organization v) result)
     else
       let? has_organization := py_in "organization" raw_result in
       if has_organization then
         let? v := py_getitem "organization" raw_result in
         Ok (dset "organization" (extract_organization v) result)
       else
         let? has_nets := py_in "nets" raw_result in
         let? nets := (if has_nets then py_getitem "nets" raw_result else Ok VNone) in
         match nets with
         | VList (net :: rest) =>
             if has_nets then first_description (net :: rest) result else Ok result
         | _ => Ok result
         end) in
  (* Extract location *)
  let? has_country := py_in "country" raw_result in
  let? result :=
    (if has_country then
       let? v := py_getitem "country" raw_result in
       Ok (dset "country" (extract_country v) result)
     else
       let? has_code := py_in "asn_country_code" raw_result in
       if has_code then
         let? v := py_getitem "asn_country_code" raw_result in
         Ok (dset "country" (extract_country v) result)
       else Ok result) in
  let? has_city := py_in "city" raw_result in
  let? result :=
    (if has_city then
       let? v := py_getitem "city" raw_result in
       Ok (dset "city" (extract_city v) result)
     else Ok result) in
  (* Extract registration date *)
  let? has_registered := py_in "registered" raw_result in
  let? result :=
    (if has_registered then
       let? v := py_getitem "registered" raw_result in
       Ok (dset "registered" (format_timestamp v) result)
     else
       let? has_created := py_in "created" raw_result in
       if has_created then
         let? v := py_getitem "created" raw_result in
         Ok (dset "registered" (format_timestamp v) result)
       else Ok result) in
  Ok result.

(** ** whois_tool/resolvers/base.py: BaseResolver *)

(** A resolver instance. *)
Record Resolver : Type := mkResolver {
  kind : ResolverKind;
  name : string;
  rate_limit : Q;
  last_request_time : Q
}.

(** Methods run on an instance and the world. *)
Abbreviation Method := (M (Resolver * World)).

Definition lift {A} (m : M World A) : Method A :=
  fun s => let (r, w') := m (snd s) in (r, (fst s, w')).

Definition get_self : Method Resolver := fun s => (Ok (fst s), s).

Definition set_last_request_time (t : Q) : Method unit :=
  fun s =>
    (Ok tt, (mkResolver (kind (fst s)) (name (fst s)) (rate_limit (fst s)) t,
             snd s)).

(** Run a method on a local instance, which is dropped afterwards. *)
Definition on_instance {A} (r : Resolver) (m : Method A) : M World A :=
  fun w => let (a, s') := m (r, w) in (a, snd s').

Definition _apply_rate_limit : Method unit :=
  current_time <- lift time_time ;;
  self <- get_self ;;
  let elapsed := (current_time - last_request_time self)%Q in
  (if Qlt_bool elapsed (rate_limit self)
   then lift (time_sleep (rate_limit self - elapsed)%Q)
   else ret tt) ;;;
  t <- lift time_time ;;
  set_last_request_time t.

Definition _perform_lookup `{Backend} (ip : string) (timeout : option Q)
  : Method pyval :=
  fun s =>
    let (outcome, duration) := perform_lookup (kind (fst s)) ip timeout (snd s) in
    (outcome,
     (fst s,
      add_event (EvRequest (name (fst s)) ip)
        (set_clock (clock (snd s) + duration)%Q (snd s)))).

(** [if 'ip' not in raw_result: raw_result['ip'] = ip] *)
Definition ensure_ip (raw_result : pyval) (ip : string) : Res pyval :=
  let? present := py_in "ip" raw_result in
  if present then Ok raw_result else py_setitem "ip" (VStr ip) raw_result.

(** The body of the [try] statement in [lookup]. *)
Definition attempt `{Backend} (ip : string) (timeout : option Q) : Method pyval :=
  _apply_rate_limit ;;;
  raw_result <- _perform_lookup ip timeout ;;
  raw_result <- lift_res (ensure_ip raw_result ip) ;;
  self <- get_self ;;
  result <- lift_res (normalize_whois_result raw_result (name self)) ;;
  ret (VDict result).

(** The loop [while retry_count <= max_retries]. Every iteration that
    does not leave the loop increments [retry_count], so that
    [max_retries + 1 - retry_count] iterations are enough; [fuel] bounds
    their number. Falling off the loop returns [None]. *)
Fixpoint lookup_loop `{Backend} (fuel : nat) (ip : string) (timeout : option Q)
  (max_retries retry_count : Z) : Method pyval :=
  if retry_count <=? max_retries then
    match fuel with
    | O => ret VNone
    | S fuel' =>
        try_except (attempt ip timeout)
          (fun e =>
             Some (let retry_count := retry_count + 1 in
                   if retry_count <=? max_retries then
                     lift (time_sleep (inject_Z (retry_count * 2))) ;;;
                     lookup_loop fuel' ip timeout max_retries retry_count
                   else
                     raise (Exn ValueError ("Lookup failed: " +:+ exn_str e))))
    end
  else ret VNone.

Definition BaseResolver_lookup `{Backend} (ip : string) (timeout : option Q)
  (max_retries : Z) : Method pyval :=
  lift_res (validate_ip ip) ;;;
  lookup_loop (Z.to_nat (max_retries + 1)) ip timeout max_retries 0.

(** ** whois_tool/resolvers/__init__.py: get_resolver_by_method *)

(** The constructors [IPWhoisResolver(rate_limit=...)] and so on. *)
Definition new_resolver (k : ResolverKind) (rate_limit : Q) : Resolver :=
  mkResolver k (class_name k) rate_limit 0.

Inductive ResolverOrList : Type :=
| Single (r : Resolver)
| Several (l : list Resolver).

Definition get_resolver_by_method (method : string) (rate_limit : Q)
  : Res ResolverOrList :=
  if String.eqb method "auto" then
    Ok (Several [new_resolver IPWhoisResolver rate_limit;
                 new_resolver PythonWhoisResolver rate_limit;
                 new_resolver SystemWhoisResolver rate_limit])
  else if String.eqb method "ipwhois" then
    Ok (Single (new_resolver IPWhoisResolver rate_limit))
  else if String.eqb method "pythonwhois" then
    Ok (Single (new_resolver PythonWhoisResolver rate_limit))
  else if String.eqb method "system" then
    Ok (Single (new_resolver SystemWhoisResolver rate_limit))
  else
    Raise (Exn ValueError
             ("Invalid lookup method '" +:+ method
              +:+ "'. Available methods: auto, ipwhois, pythonwhois, system")).

(** ** whois_tool/engine.py: WhoisEngine *)

Record WhoisEngine : Type := mkWhoisEngine {
  lookup_method : string;
  use_cache : bool;
  timeout : option Q;
  engine_rate_limit : Q;          (* self.rate_limit *)
  max_retries : Z;
  cache : option CacheManager
}.

(** [self.use_cache and self.cache] *)
Definition active_cache (self : WhoisEngine) : option CacheManager :=
  if use_cache self then cache self else None.

Definition is_auto (self : WhoisEngine) : bool :=
  String.eqb (lookup_method self) "auto".

(** One iteration of [for resolver in resolvers]: the [try] statement.
    The result is the updated [results] and [errors] and whether the
    loop is left by [break]. *)
Definition try_resolver `{Backend} (self : WhoisEngine) (ip : string)
  (resolver : Resolver) (results : list pyval) (errors : list string)
  : M World (bool * list pyval * list string) :=
  try_except
    (logger INFO ("Trying " +:+ name resolver +:+ " for " +:+ ip) ;;;
     result <- on_instance resolver
                 (BaseResolver_lookup ip (timeout self) (max_retries self)) ;;
     ret (negb (is_auto self), results ++ [result], errors))
    (fun e =>
       if is_ValueError (exn_class e) then
         Some (let errors := errors ++ [exn_str e] in
               logger WARNING (name resolver +:+ " failed on " +:+ ip +:+ ": "
                               +:+ exn_str e) ;;;
               if negb (is_auto self) then
                 raise (Exn ValueError ("Lookup with " +:+ name resolver
                                        +:+ " failed: " +:+ exn_str e))
               else ret (false, results, errors))
       else None).

Fixpoint resolve_loop `{Backend} (self : WhoisEngine) (ip : string)
  (resolvers : list Resolver) (results : list pyval) (errors : list string)
  : M World (list pyval * list string) :=
  match resolvers with
  | [] => ret (results, errors)
  | resolver :: rest =>
      step <- try_resolver self ip resolver results errors ;;
      let '(stop, results, errors) := step in
      if stop then ret (results, errors)
      else resolve_loop self ip rest results errors
  end.

(** The part of [lookup_ip] after the cache check. *)
Definition lookup_uncached `{Backend} (self : WhoisEngine) (ip : string)
  : M World pyval :=
  logger DEBUG ("Cache miss for " +:+ ip +:+ ", looking it up") ;;;
  resolvers <- lift_res (get_resolver_by_method (lookup_method self)
                           (engine_rate_limit self)) ;;
  let resolvers :=
    match resolvers with Several l => l | Single r => [r] end in
  found <- resolve_loop self ip resolvers [] [] ;;
  let (results, errors) := found in
  match results with
  | [] =>
      let err := join "; " errors in
      logger ERROR ("No joy for " +:+ ip +:+ " - all methods failed: " +:+ err) ;;;
      raise (Exn ValueError ("All lookup methods failed for " +:+ ip))
  | first :: others =>
      final_result <-
        (match others with
         | _ :: _ =>
             logger DEBUG ("Got " +:+ pretty (length results) +:+ " results for "
                           +:+ ip +:+ ", merging them") ;;;
             lift_res (merge_whois_results results)
         | [] => ret first
         end) ;;
      (match active_cache self with
       | Some c =>
           CacheManager_set c ip (lookup_method self) final_result ;;; ret tt
       | None => ret tt
       end) ;;;
      ret final_result
  end.

Definition WhoisEngine_lookup_ip `{Backend} (self : WhoisEngine) (ip : string)
  : M World pyval :=
  match active_cache self with
  | Some c =>
      cached <- CacheManager_get c ip (lookup_method self) ;;
      if truthy cached then
        logger DEBUG ("Found " +:+ ip +:+ " in cache 🎯") ;;; ret cached
      else lookup_uncached self ip
  | None => lookup_uncached self ip
  end.

(** The two collecting loops of [process_ips]; [failure_text] is the
    wording of the error record, which differs between them. *)
Fixpoint collect (lookup_ip : string -> M World pyval) (failure_text : string)
  (ips : list string) (results : list pyval) (errors : list (string * string))
  : M World (list pyval * list (string * string)) :=
  match ips with
  | [] => ret (results, errors)
  | ip :: rest =>
      step <- try_except
                (result <- lookup_ip ip ;;
                 ret (results ++ [result], errors))
                (fun e =>
                   Some (logger ERROR (failure_text +:+ ip +:+ ": " +:+ exn_str e) ;;;
                         ret (results, errors ++ [(ip, exn_str e)]))) ;;
      let (results, errors) := step in
      collect lookup_ip failure_text rest results errors
  end.

(** The summary logged at the end of [process_ips]. *)
Definition log_summary (results : list pyval) (errors : list (string * string))
  : M World unit :=
  (match results with
   | [] => ret tt
   | _ => logger INFO ("Successfully processed " +:+ pretty (length results) +:+ " IPs")
   end) ;;;
  match errors with
  | [] => ret tt
  | _ =>
      let err_ips := map fst errors in
      let err_count := length errors in
      if (err_count =? 1)%nat then
        logger WARNING ("Failed to process " +:+ List.nth 0 err_ips "")
      else if (err_count <=? 3)%nat then
        logger WARNING ("Failed to process " +:+ pretty err_count +:+ " IPs: "
                        +:+ join ", " err_ips)
      else
        logger WARNING ("Failed to process " +:+ pretty err_count +:+ " IPs")
  end.

(** [process_ips], up to the point where [results] and [errors] are
    complete. [lookup_ip] is the bound attribute [self.lookup_ip], which
    callers may replace (cli.py wraps it for progress reporting).

    In the parallel branch the thread pool is modelled by the order in
    which [as_completed] yields the futures: [completion] lists the
    indices into [valid_ips] in that order, and the lookups take effect
    on the world one after the other in that order. *)
Definition process_ips_collect (lookup_ip : string -> M World pyval)
  (ips : list string) (parallel : bool) (max_workers : Z)
  (completion : list nat)
  : M World (list pyval * list (string * string)) :=
  let valid_ips := filter_valid_ips ips in
  match valid_ips with
  | [] =>
      logger WARNING "Found no valid IPs to process!" ;;; ret ([], [])
  | _ =>
      let in_parallel := parallel && (1 <? length valid_ips)%nat in
      let mode := if in_parallel then "parallel" else "sequential" in
      logger INFO ("Processing " +:+ pretty (length valid_ips) +:+ " IPs in "
                   +:+ mode +:+ " mode") ;;;
      found <-
        (if in_parallel then
           if max_workers <=? 0
           then raise (Exn ValueError "max_workers must be greater than 0")
           else collect lookup_ip "Couldn't look up "
                  (omap (fun i => valid_ips !! i) completion) [] []
         else collect lookup_ip "Failed to process " valid_ips [] []) ;;
      let (results, errors) := found in
      log_summary results errors ;;;
      ret (results, errors)
  end.

(** [process_ips] returns [results]. *)
Definition process_ips (lookup_ip : string -> M World pyval)
  (ips : list string) (parallel : bool) (max_workers : Z)
  (completion : list nat) : M World (list pyval) :=
  found <- process_ips_collect lookup_ip ips parallel max_workers completion ;;
  ret (fst found).

Definition WhoisEngine_process_ips `{Backend} (self : WhoisEngine)
  (ips : list string) (parallel : bool) (max_workers : Z)
  (completion : list nat) : M World (list pyval) :=
  process_ips (WhoisEngine_lookup_ip self) ips parallel max_workers completion.

Definition WhoisEngine_clean_cache (self : WhoisEngine) : M World nat :=
  match active_cache self with
  | None => logger WARNING "Cache is disabled, cannot clean" ;;; ret 0%nat
  | Some c =>
      logger DEBUG "Cleaning expired cache entries" ;;;
      CacheManager_clean_expired c
  end.

(** ** whois_tool/resolvers/system_resolver.py: the lookup *)

(** What [subprocess.run(cmd, capture_output=True, text=True,
    timeout=..., check=False)] does: it completes with the text of the
    standard output and a return code, or it raises
    [subprocess.TimeoutExpired], another [subprocess.SubprocessError]
    (with its text), or an exception of another class. *)
Inductive RunOutcome : Type :=
| Completed (stdout : string) (returncode : Z)
| TimeoutExpired
| SubprocessError (text : string)
| RunFailed (e : exn).

(** The [whois] command: from the argument list and the timeout to the
    outcome of the run. *)
Abbreviation Command := (list string -> Q -> RunOutcome).

Definition _execute_whois_command (run : Command) (whois_path ip : string)
  (timeout : option Q) : Res (string * Z) :=
  let cmd := [whois_path; ip] in
  let timeout_val := match timeout with Some t => t | None => 30%Q end in
  match run cmd timeout_val with
  | Completed stdout returncode => Ok (stdout, returncode)
  | TimeoutExpired => Raise (Exn ValueError "Timeout expired for whois command")
  | SubprocessError text =>
      Raise (Exn ValueError ("Error executing whois command: " +:+ text))
  | RunFailed e => Raise e
  end.

Definition SystemWhoisResolver_perform_lookup (run : Command)
  (whois_path ip : string) (timeout : option Q) : Res pyval :=
  match
    (let? executed := _execute_whois_command run whois_path ip timeout in
     let (output, return_code) := executed in
     if negb (return_code =? 0) && String.eqb output "" then
       Raise (Exn ValueError
                ("whois command failed with code " +:+ pretty return_code))
     else if String.eqb output "" then
       Raise (Exn ValueError "No output from whois command")
     else
       let result := _parse_whois_output output ip in
       Ok (VDict (dset "raw_output" (VStr output) result)))
  with
  | Ok result => Ok result
  | Raise e =>
      if is_ValueError (exn_class e) then Raise e      (* except ValueError: raise *)
      else Raise (Exn ValueError
                    ("Unexpected error during lookup: " +:+ exn_str e))
  end.

(** ** The resolver registry (base.py: register, get_all_resolvers;
    resolvers/__init__.py: RESOLVER_MAP, get_available_resolvers,
    get_resolver) *)

(** The classes on which [register] can be called. *)
Inductive ResolverClass : Type :=
| BaseResolver
| Concrete (k : ResolverKind).

(** [cls.__name__] *)
Definition cls_name (cls : ResolverClass) : string :=
  match cls with
  | BaseResolver => "BaseResolver"
  | Concrete k => class_name k
  end.

Definition is_BaseResolver (cls : ResolverClass) : bool :=
  match cls with BaseResolver => true | Concrete _ => false end.

(** [cls.register()], on the one list [BaseResolver.resolver_registry]
    that all classes share. *)
Definition register (cls : ResolverClass) (resolver_registry : list string)
  : list string :=
  if negb (existsb (String.eqb (cls_name cls)) resolver_registry)
     && negb (is_BaseResolver cls)
  then resolver_registry ++ [cls_name cls]
  else resolver_registry.

(** [cls.get_all_resolvers()]: a copy of the registry. *)
Definition get_all_resolvers (resolver_registry : list string) : list string :=
  resolver_registry.

Definition get_available_resolvers (resolver_registry : list string)
  : list string :=
  get_all_resolvers resolver_registry.

Definition RESOLVER_MAP : list (string * ResolverKind) :=
  [("IPWhoisResolver", IPWhoisResolver);
   ("PythonWhoisResolver", PythonWhoisResolver);
   ("SystemWhoisResolver", SystemWhoisResolver)].

(** The registry once the package [whois_tool.resolvers] is imported:
    each resolver module registers its class when it is loaded, in the
    order of the imports, and the package registers the classes of
    [RESOLVER_MAP] again. *)
Definition imported_registry : list string :=
  fold_left (fun registry cls => register cls registry)
    ([Concrete IPWhoisResolver; Concrete PythonWhoisResolver;
      Concrete SystemWhoisResolver]
     ++ map (fun entry => Concrete (snd entry)) RESOLVER_MAP)
    [].

(** The default of the parameter [rate_limit] of each constructor. *)
Definition default_rate_limit (k : ResolverKind) : Q :=
  match k with
  | IPWhoisResolver => 1
  | PythonWhoisResolver => 15 # 10
  | SystemWhoisResolver => 2
  end.

Fixpoint map_get (name : string) (table : list (string * ResolverKind))
  : option ResolverKind :=
  match table with
  | [] => None
  | (k, v) :: rest => if String.eqb name k then Some v else map_get name rest
  end.

(** [get_resolver(name, **kwargs)], for keyword arguments that are empty
    or give [rate_limit]. *)
Definition get_resolver (resolver_registry : list string) (name : string)
  (rate_limit : option Q) : Res Resolver :=
  match map_get name RESOLVER_MAP with
  | None =>
      let available := join ", " (get_available_resolvers resolver_registry) in
      Raise (Exn ValueError
               ("Resolver '" +:+ name +:+ "' not found. Available resolvers: "
                +:+ available))
  | Some resolver_class =>
      Ok (new_resolver resolver_class
            (match rate_limit with
             | Some limit => limit
             | None => default_rate_limit resolver_class
             end))
  end.

(** ** whois_tool/cli.py: get_ip_addresses *)

(** A function of the command line returns, or leaves the program
    through [sys.exit]. *)
Inductive Exit (A : Type) : Type :=
| Returned (a : A)
| Exited (code : Z).
Arguments Returned {A} a.
Arguments Exited {A} code.

(** [[line.strip() for line in f if line.strip() and not
    line.startswith('#')]] *)
Definition file_ips (lines : list string) : list string :=
  map strip
    (List.filter
       (fun line => negb (String.eqb (strip line) "")
                    && negb (startswith "#" line))
       lines).

(** [get_ip_addresses(args)]: [ip] and [file] are the attributes of
    [args]; [read_lines path] is what opening the file and iterating
    over it gives. *)
Definition get_ip_addresses (ip : option (list string)) (file : option string)
  (read_lines : string -> Res (list string)) : Exit (list string) :=
  let ips := match ip with Some given => given | None => [] end in
  match file with
  | None => Returned ips
  | Some path =>
      if String.eqb path "" then Returned ips
      else
        match read_lines path with
        | Ok lines => Returned (ips ++ file_ips lines)
        | Raise _ => Exited 1
        end
  end.

(** ** whois_tool/output.py: write_json *)

(** [del d[k]], for a key that [d] has. *)
Definition ddel (k : string) (d : dict) : dict :=
  List.filter (fun kv => negb (String.eqb k (fst kv))) d.

Module Output.

(** The body of the loop [for result in results]: the copy that is
    written, without its raw data unless they are asked for. *)
Definition output_result (include_raw : bool) (result : pyval) : Res pyval :=
  match result with
  | VDict d =>
      Ok (VDict (if negb include_raw && dhas "raw" d then ddel "raw" d else d))
  | VList l =>
      if negb include_raw
         && existsb (fun v => match v with
                              | VStr s => String.eqb s "raw"
                              | _ => false
                              end) l
      then Raise (Exn TypeError "list indices must be integers or slices, not str")
      else Ok (VList l)
  | _ =>
      Raise (Exn AttributeError
               ("'" +:+ type_name result +:+ "' object has no attribute 'copy'"))
  end.

Fixpoint output_results (include_raw : bool) (results : list pyval)
  : Res (list pyval) :=
  match results with
  | [] => Ok []
  | result :: rest =>
      let? copy := output_result include_raw result in
      let? copies := output_results include_raw rest in
      Ok (copy :: copies)
  end.

Definition write_json (results : list pyval) (output_file : string)
  (include_raw : bool) : M World bool :=
  try_except
    (copies <- lift_res (output_results include_raw results) ;;
     write_json output_file (VList copies) ;;;
     ret true)
    (fun _ => Some (ret false)).

End Output.

(** ** Vocabulary of the statements *)

(** A dictionary as Python builds it: no key occurs twice. *)
Fixpoint unique_keys (d : dict) : bool :=
  match d with
  | [] => true
  | (k, _) :: rest => negb (dhas k rest) && unique_keys rest
  end.

Definition is_str (v : pyval) : bool :=
  match v with VStr _ => true | _ => false end.

(** The source label that [merge_whois_results] reads off a record. *)
Definition source_label (d : dict) : pyval :=
  dget_default "source" (VStr "unknown") d.

Definition source_text (d : dict) : string :=
  match source_label d with VStr s => s | _ => "" end.

(** A record as the normalizer produces it, as far as merging is
    concerned: unique keys and a textual source label. *)
Definition mergeable (d : dict) : bool :=
  unique_keys d && is_str (source_label d).

(** The merge rule in the words of the specification: the value of a
    field after one more record, given its current value. The later
    value is adopted if the current value is absent, or if it is the
    empty string and the later value is non-empty. *)
Definition adopt (key : string) (current : pyval) (later : dict) : pyval :=
  match dlookup key later with
  | None => current
  | Some value =>
      match current with
      | VNone => value
      | VStr "" => if truthy value then value else current
      | _ => current
      end
  end.


(** The pattern list that the table [patterns] holds for a key. *)
Fixpoint table_lookup (key : string) (table : list (string * list regex))
  : option (list regex) :=
  match table with
  | [] => None
  | (k, pattern_list) :: rest =>
      if String.eqb key k then Some pattern_list else table_lookup key rest
  end.

Fixpoint distinct (l : list string) : bool :=
  match l with
  | [] => true
  | x :: rest => negb (existsb (String.eqb x) rest) && distinct rest
  end.

(** The value that one line of the output yields for a pattern list, if
    the line is not skipped and one of the patterns matches. *)
Definition line_value (pattern_list : list regex) (raw_line : string)
  : option string :=
  let line := strip raw_line in
  if skip_line line then None else first_match pattern_list line.

(** The value yielded by the first line that yields one. *)
Fixpoint first_value (pattern_list : list regex) (lines : list string)
  : option string :=
  match lines with
  | [] => None
  | l :: rest =>
      match line_value pattern_list l with
      | Some v => Some v
      | None => first_value pattern_list rest
      end
  end.

(** The value yielded by the last line that yields one. *)
Fixpoint last_value (pattern_list : list regex) (lines : list string)
  : option string :=
  match lines with
  | [] => None
  | l :: rest =>
      match last_value pattern_list rest with
      | Some v => Some v
      | None => line_value pattern_list l
      end
  end.

(** The first [n] entries of a failure plan announce no failure. *)
Definition io_clear (n : nat) (plan : list (option string)) : bool :=
  forallb (fun f => match f with None => true | Some _ => false end)
    (firstn n plan).

(** A cache file that [clean_expired] is to delete: its content does
    not decode, or it decodes to an entry whose age exceeds the ttl. *)
Definition doomed (self : CacheManager) (now : Q) (data : FileData) : bool :=
  match data with
  | Garbled _ => true
  | JsonDoc v =>
      match entry_age now v with
      | Ok age => Qlt_bool (ttl self) age
      | Raise _ => false
      end
  end.

(** For every request in a trace, the event that directly follows it
    ([None] if the request is the last event). *)
Fixpoint after_requests (t : list Event) : list (option Event) :=
  match t with
  | [] => []
  | EvRequest _ _ :: rest => head rest :: after_requests rest
  | _ :: rest => after_requests rest
  end.

(** The waits before retries number [first], [first + 1], ..., [k] of
    them: retry number [i] is preceded by a sleep of [i * 2] seconds. *)
Fixpoint backoff_events (first : Z) (k : nat) : list (option Event) :=
  match k with
  | O => []
  | S k' => Some (EvSleep (inject_Z (first * 2))) :: backoff_events (first + 1) k'
  end.

(** ['ip' in raw_result] holds. *)
Definition has_ip (raw_result : pyval) : bool :=
  match py_in "ip" raw_result with
  | Ok present => present
  | Raise _ => false
  end.

(** What an attempt makes of the outcome of [_perform_lookup]: the
    identity is added to the raw data if missing, then the raw data is
    normalized under the resolver's name. *)
Definition finish `{Backend} (resolver_name ip : string) (outcome : Res pyval)
  : Res pyval :=
  match outcome with
  | Raise e => Raise e
  | Ok raw_result =>
      match ensure_ip raw_result ip with
      | Raise e => Raise e
      | Ok with_ip =>
          match normalize_whois_result with_ip resolver_name with
          | Raise e => Raise e
          | Ok result => Ok (VDict result)
          end
      end
  end.

(** The successful results among a list of outcomes, in order. *)
Fixpoint successes (outcomes : list (Res pyval)) : list pyval :=
  match outcomes with
  | [] => []
  | Ok v :: rest => v :: successes rest
  | Raise _ :: rest => successes rest
  end.

(** The (identity, error text) pairs of the failed lookups, in order. *)
Fixpoint failures (ips : list string) (outcomes : list (Res pyval))
  : list (string * string) :=
  match ips, outcomes with
  | ip :: ips', Raise e :: rest => (ip, exn_str e) :: failures ips' rest
  | _ :: ips', Ok _ :: rest => failures ips' rest
  | _, _ => []
  end.

(** The value found by the cache check of [lookup_ip] ([None] if caching
    is off). *)
Definition cached_value (self : WhoisEngine) (ip : string) (w : World) : pyval :=
  match active_cache self with
  | Some c =>
      match fst (CacheManager_get c ip (lookup_method self) w) with
      | Ok v => v
      | Raise _ => VNone
      end
  | None => VNone
  end.

(** The world after the cache check. *)
Definition after_cache_check (self : WhoisEngine) (ip : string) (w : World)
  : World :=
  match active_cache self with
  | Some c => snd (CacheManager_get c ip (lookup_method self) w)
  | None => w
  end.

(** The call [resolver.lookup(ip, self.timeout, self.max_retries)] on a
    fresh resolver of class [k], as the engine makes it. *)
Definition resolver_run `{Backend} (self : WhoisEngine) (ip : string)
  (k : ResolverKind) : M World pyval :=
  on_instance (new_resolver k (engine_rate_limit self))
    (BaseResolver_lookup ip (timeout self) (max_retries self)).

(** The log records around one resolver in [lookup_ip]. *)
Definition announce (k : ResolverKind) (ip : string) (w : World) : World :=
  add_log INFO ("Trying " +:+ class_name k +:+ " for " +:+ ip) w.

Definition note_failure (k : ResolverKind) (ip : string) (o : Res pyval)
  (w : World) : World :=
  match o with
  | Ok _ => w
  | Raise e =>
      add_log WARNING (class_name k +:+ " failed on " +:+ ip +:+ ": " +:+ exn_str e) w
  end.

Definition failure_texts (outcomes : list (Res pyval)) : list string :=
  omap (fun o => match o with Raise e => Some (exn_str e) | Ok _ => None end)
    outcomes.

(** The characters of IPv4 and IPv6 literals that carry no zone
    identifier: hexadecimal digits, ['.'] and [':']. *)
Definition is_plain_ip_char (c : ascii) : bool :=
  is_hexdigit c || Ascii.eqb c "."%char || Ascii.eqb c ":"%char.

Definition plain_literal (ip : string) : bool :=
  forallb is_plain_ip_char (chars ip).

(** The method labels of [get_resolver_by_method]. *)
Definition is_method_label (method : string) : bool :=
  existsb (String.eqb method) ["auto"; "ipwhois"; "pythonwhois"; "system"].

(** The portable file name characters: letters, digits, ['.'], ['_'],
    ['-']. *)
Definition is_safe_char (c : ascii) : bool :=
  let n := nat_of_ascii c in
  is_digit c || ((65 <=? n)%nat && (n <=? 90)%nat)
  || ((97 <=? n)%nat && (n <=? 122)%nat)
  || Ascii.eqb c "."%char || Ascii.eqb c "_"%char || Ascii.eqb c "-"%char.

(** The file name that [_get_cache_path] joins to the cache directory. *)
Definition cache_file_name (ip method : string) : string :=
  replace_char ":" "_" ip +:+ "_" +:+ method +:+ ".json".

(** What every stage of the normalizer keeps: unique keys, the source
    label and the raw data. *)
Definition well_labelled (source : string) (raw_result : pyval) (result : dict)
  : Prop :=
  unique_keys result = true
  /\ dlookup "source" result = Some (VStr source)
  /\ dlookup "raw" result = Some raw_result.

(** The keys of a normalized record, in the order of the dictionary
    literal of [normalize_whois_result]. *)
Definition record_keys : list string :=
  ["ip"; "network"; "asn"; "organization"; "country"; "city"; "registered";
   "source"; "raw"].

(** [list(d.keys())] *)
Definition dkeys (d : dict) : list string := map fst d.

(** The entries of a raw ['nets'] list that the normalizer can probe for
    a description: dictionaries. *)
Definition nets_are_dicts (raw : dict) : bool :=
  match dlookup "nets" raw with
  | Some (VList nets) => forallb is_dict nets
  | _ => true
  end.

(** What the stages of the normalizer do to a record: they assign to
    keys that it has. *)
Definition same_keys (result : dict) : Prop := dkeys result = record_keys.

(** The record holds [x] as its identity. *)
Definition keeps_ip (x : pyval) (result : dict) : Prop :=
  dlookup "ip" result = Some x.

(** The loop of [rmatch] on [r*], by itself. *)
Definition star_run (icase : bool) (r1 : regex)
  (k : list ascii -> option (list ascii) -> option (list ascii))
  : nat -> list ascii -> option (list ascii) -> option (list ascii) :=
  fix star (fuel : nat) (l : list ascii) (cap : option (list ascii))
    : option (list ascii) :=
    match fuel with
    | O => k l cap
    | S fuel' =>
        match rmatch icase r1 l cap
                (fun l' cap' =>
                   if (length l' <? length l)%nat
                   then star fuel' l' cap' else None) with
        | Some res => Some res
        | None => k l cap
        end
    end.

(** A non-empty run of decimal digits. *)
Definition is_digits (l : list ascii) : bool :=
  negb (is_empty_part l) && forallb is_digit l.

(** The text neither begins nor ends with whitespace. *)
Definition starts_clean (l : list ascii) : bool :=
  match l with
  | [] => true
  | c :: _ => negb (is_space c)
  end.

Definition is_stripped (s : string) : bool :=
  starts_clean (chars s) && starts_clean (rev (chars s)).

(** [None], or text without leading or trailing whitespace. *)
Definition none_or_stripped (v : pyval) : bool :=
  match v with
  | VNone => true
  | VStr text => is_stripped text
  | _ => false
  end.

(** A dictionary whose source label, as the merge reads it, is text. *)
Definition has_text_source (v : pyval) : bool :=
  match v with
  | VDict d => is_str (source_label d)
  | _ => false
  end.

(** The later record brings no key that the base lacks. *)
Definition no_new_key (base later : dict) : bool :=
  forallb (fun key => dhas key base) (dkeys later).

(** [key] is one of the keys of the table [patterns]. *)
Definition is_field (key : string) : bool :=
  existsb (String.eqb key) (map fst patterns).

(** What holds of every record that the parser builds for [ip]. *)
Definition parsed_shape (ip : string) (result : dict) : Prop :=
  unique_keys result = true
  /\ dlookup "ip" result = Some (VStr ip)
  /\ forall key v,
       dlookup key result = Some v ->
       key = "ip"
       \/ (is_field key = true
           /\ exists text, v = VStr text /\ is_stripped text = true).

(** The resolver class that [get_resolver_by_method] picks for a method
    label other than 'auto'. *)
Definition method_kind (method : string) : option ResolverKind :=
  if String.eqb method "ipwhois" then Some IPWhoisResolver
  else if String.eqb method "pythonwhois" then Some PythonWhoisResolver
  else if String.eqb method "system" then Some SystemWhoisResolver
  else None.

(** ** Sample data *)

Definition nl : string := String "010"%char "".

Definition sample_primary : dict :=
  [("ip", VStr "8.8.8.8"); ("network", VStr "8.8.8.0/24"); ("asn", VStr "15169");
   ("organization", VStr ""); ("country", VNone); ("city", VNone);
   ("registered", VNone); ("source", VStr "IPWhoisResolver"); ("raw", VDict [])].

Definition sample_system : dict :=
  [("ip", VStr "8.8.8.8"); ("network", VStr "8.8.8.0 - 8.8.8.255"); ("asn", VNone);
   ("organization", VStr "Google LLC"); ("country", VStr "US"); ("city", VNone);
   ("registered", VStr ""); ("source", VStr "SystemWhoisResolver");
   ("raw", VDict [("raw_output", VStr "...")])].

Definition sample_whois_output : string :=
  "% comment" +:+ nl +:+ "Country: US" +:+ nl +:+ "OrgName: Google LLC" +:+ nl
  +:+ "RegDate: 1992-12-01" +:+ nl +:+ "Country: DE".

(** A sample backend: nothing answers for 10.0.0.2; for other addresses
    the registry answers, reverse DNS fails, and the [whois] command
    prints [sample_whois_output]. Dates are taken to be in the canonical
    format already. *)
Definition sample_perform (k : ResolverKind) (ip : string) (timeout : option Q)
  (w : World) : Res pyval * Q :=
  if String.eqb ip "10.0.0.2"
  then (Raise (Exn LibraryError "connection refused"), 1%Q)
  else
    match k with
    | IPWhoisResolver =>
        (Ok (VDict [("query", VStr ip); ("asn", VStr "15169");
                    ("asn_country_code", VStr "US");
                    ("network", VDict [("cidr", VStr "8.8.8.0/24");
                                       ("name", VStr "GOGL")])]), (1 # 2)%Q)
    | PythonWhoisResolver =>
        (Raise (Exn ValueError ("Could not resolve IP " +:+ ip +:+ " to domain")), 0%Q)
    | SystemWhoisResolver =>
        (Ok (VDict (dset "raw_output" (VStr sample_whois_output)
                      (_parse_whois_output sample_whois_output ip))), 2%Q)
    end.

Definition sample_backend : Backend :=
  {| perform_lookup := sample_perform;
     py_repr := fun _ => "<value>";
     datetime_format := fun v => match v with VStr s => Some s | _ => None end |}.

Definition sample_cache : CacheManager := mkCacheManager "/var/cache/whois" DEFAULT_TTL.

(** A world at time 100000 with an empty cache directory. *)
Definition sample_world : World :=
  mkWorld ∅ {["/var/cache/whois"]} 100000 [] [] [].

(** The same with a fresh entry, a stale entry, an undecodable file and
    a foreign file in the cache directory. *)
Definition stocked_world : World :=
  mkWorld
    (<["/var/cache/whois/8.8.8.8_auto.json" :=
         JsonDoc (VDict [("timestamp", VNum 99000); ("result", VDict sample_primary)])]>
       (<["/var/cache/whois/1.1.1.1_auto.json" :=
            JsonDoc (VDict [("timestamp", VNum 10); ("result", VDict sample_primary)])]>
          (<["/var/cache/whois/9.9.9.9_auto.json" := Garbled "{"]>
             (<["/var/cache/whois/README" := Garbled "notes"]> ∅))))
    {["/var/cache/whois"]} 100000 [] [] [].

Definition sample_resolver : Resolver := new_resolver IPWhoisResolver 1.

(** An engine in auto mode without cache, and one with cache. *)
Definition sample_engine : WhoisEngine :=
  mkWhoisEngine "auto" false (Some 30%Q) 1 2 None.

Definition caching_engine : WhoisEngine :=
  mkWhoisEngine "auto" true (Some 30%Q) 1 2 (Some sample_cache).

Definition sample_ips : list string :=
  ["8.8.8.8"; "10.0.0.2"; "2001:4860:4860::8888"].

(** The identity that a record is about. *)
Definition record_ip (v : pyval) : pyval :=
  match v with VDict d => dget "ip" d | _ => VNone end.

(** Raw data as a registry returns them. *)
Definition sample_raw : dict :=
  [("query", VStr "8.8.8.8"); ("asn", VStr "AS15169");
   ("nets", VList [VDict [("description", VStr " Google LLC ")]])].

(** An engine in single-method mode, and one with a method that does not
    exist. *)
Definition system_engine : WhoisEngine :=
  mkWhoisEngine "system" false (Some 30%Q) 1 2 None.

Definition rdap_engine : WhoisEngine :=
  mkWhoisEngine "rdap" false (Some 30%Q) 1 2 None.

(** A [whois] command that prints [sample_whois_output]. *)
Definition sample_command : Command :=
  fun _ _ => Completed sample_whois_output 0.

(** The lines of a file of addresses. *)
Definition sample_lines : list string :=
  ["# addresses" +:+ nl; " 1.1.1.1 " +:+ nl; nl; "  # not yet" +:+ nl; "8.8.4.4"].

(** * Properties *)

(** ** Strings *)

Lemma str_chars (s : string) : str (chars s) = s.
Proof. apply string_of_list_ascii_of_string. Qed.

Lemma chars_str (l : list ascii) : chars (str l) = l.
Proof. apply list_ascii_of_string_of_list_ascii. Qed.

Lemma chars_app (a b : string) : chars (a +:+ b) = chars a ++ chars b.
Proof. induction a as [|c a IH]; simpl; [reflexivity | now rewrite IH]. Qed.

Lemma chars_inj (a b : string) : chars a = chars b -> a = b.
Proof. intros E. rewrite <- (str_chars a), <- (str_chars b). now rewrite E. Qed.

Lemma eqb_string_true (a b : string) : String.eqb a b = true <-> a = b.
Proof. apply String.eqb_eq. Qed.

Lemma eqb_string_false (a b : string) : String.eqb a b = false <-> a <> b.
Proof. apply String.eqb_neq. Qed.

(** ** Dictionaries *)

Lemma dlookup_dset_eq (k : string) (v : pyval) (d : dict) :
  dlookup k (dset k v d) = Some v.
Proof.
  induction d as [|[k' v'] d IH]; simpl.
  - now rewrite String.eqb_refl.
  - destruct (String.eqb k k') eqn:E; simpl; rewrite E; [reflexivity | exact IH].
Qed.

Lemma dlookup_dset_ne (k k' : string) (v : pyval) (d : dict) :
  k <> k' -> dlookup k (dset k' v d) = dlookup k d.
Proof.
  intros Hne. induction d as [|[k2 v2] d IH]; simpl.
  - apply eqb_string_false in Hne. now rewrite Hne.
  - destruct (String.eqb k' k2) eqn:E; simpl.
    + apply eqb_string_true in E. subst k2.
      apply eqb_string_false in Hne. now rewrite Hne.
    + destruct (String.eqb k k2); [reflexivity | exact IH].
Qed.

Lemma dget_dset_eq (k : string) (v : pyval) (d : dict) :
  dget k (dset k v d) = v.
Proof. unfold dget, dget_default. now rewrite dlookup_dset_eq. Qed.

Lemma dget_dset_ne (k k' : string) (v : pyval) (d : dict) :
  k <> k' -> dget k (dset k' v d) = dget k d.
Proof. intros Hne. unfold dget, dget_default. now rewrite dlookup_dset_ne. Qed.

Lemma dhas_dlookup (k : string) (d : dict) :
  dhas k d = false <-> dlookup k d = None.
Proof.
  induction d as [|[k' v'] d IH]; simpl; [tauto|].
  destruct (String.eqb k k'); [split; discriminate | exact IH].
Qed.

Lemma dhas_dset (k k' : string) (v : pyval) (d : dict) :
  dhas k (dset k' v d) = String.eqb k k' || dhas k d.
Proof.
  induction d as [|[k2 v2] d IH]; simpl.
  - destruct (String.eqb k k'); reflexivity.
  - destruct (String.eqb k' k2) eqn:E; simpl.
    + apply eqb_string_true in E. subst k2.
      destruct (String.eqb k k'); reflexivity.
    + rewrite IH. destruct (String.eqb k k2), (String.eqb k k'); reflexivity.
Qed.

Lemma unique_keys_dset (k : string) (v : pyval) (d : dict) :
  unique_keys d = true -> unique_keys (dset k v d) = true.
Proof.
  induction d as [|[k2 v2] d IH]; simpl; [reflexivity|].
  intros H. apply andb_true_iff in H as [H1 H2].
  destruct (String.eqb k k2) eqn:E; simpl.
  - now rewrite H1, H2.
  - rewrite dhas_dset, IH by assumption.
    rewrite String.eqb_sym, E. simpl. now rewrite H1.
Qed.

(** ** merge_whois_results *)

Lemma merge_item_other (key : string) (merged : dict) (kv : string * pyval) :
  fst kv <> key -> dlookup key (merge_item merged kv) = dlookup key merged.
Proof.
  destruct kv as [k v]. simpl. intros Hne.
  destruct (is_source_or_raw k); [reflexivity|].
  destruct (dget k merged) as [| | |s| |]; try reflexivity.
  - now apply dlookup_dset_ne.
  - destruct s; [|reflexivity].
    destruct (truthy v); [now apply dlookup_dset_ne | reflexivity].
Qed.

Lemma merge_item_exempt (key : string) (merged : dict) (kv : string * pyval) :
  is_source_or_raw key = true ->
  dlookup key (merge_item merged kv) = dlookup key merged.
Proof.
  intros Hex. destruct kv as [k v].
  destruct (String.eqb k key) eqn:E.
  - apply eqb_string_true in E. subst k.
    unfold merge_item. now rewrite Hex.
  - apply merge_item_other. simpl. now apply eqb_string_false.
Qed.

Lemma merge_one_cons (merged : dict) (kv : string * pyval) (result : dict) :
  merge_one merged (kv :: result) = merge_one (merge_item merged kv) result.
Proof. reflexivity. Qed.

Lemma merge_one_absent (key : string) (result merged : dict) :
  dhas key result = false ->
  dlookup key (merge_one merged result) = dlookup key merged.
Proof.
  revert merged.
  induction result as [|[k v] result IH]; intros merged H.
  - reflexivity.
  - simpl in H. rewrite merge_one_cons.
    destruct (String.eqb key k) eqn:E; [discriminate|].
    rewrite IH by assumption.
    apply merge_item_other. simpl.
    apply eqb_string_false in E. congruence.
Qed.

Lemma merge_one_exempt (key : string) (result merged : dict) :
  is_source_or_raw key = true ->
  dlookup key (merge_one merged result) = dlookup key merged.
Proof.
  intros Hex. revert merged.
  induction result as [|kv result IH]; intros merged; [reflexivity|].
  rewrite merge_one_cons, IH. now apply merge_item_exempt.
Qed.

(** What one item does to the field it names. *)
Lemma merge_item_same (key : string) (value : pyval) (merged : dict) :
  is_source_or_raw key = false ->
  dget key (merge_item merged (key, value))
  = match dget key merged with
    | VNone => value
    | VStr "" => if truthy value then value else dget key merged
    | _ => dget key merged
    end.
Proof.
  intros Hk. unfold merge_item. rewrite Hk.
  destruct (dget key merged) as [| | |s| |] eqn:E; rewrite ?E; try reflexivity.
  - apply dget_dset_eq.
  - destruct s; [|exact E].
    destruct (truthy value); [apply dget_dset_eq | exact E].
Qed.

(** One later record changes a field exactly as the rule [adopt] says. *)
Lemma merge_one_adopt (key : string) (result merged : dict) :
  unique_keys result = true ->
  is_source_or_raw key = false ->
  dget key (merge_one merged result) = adopt key (dget key merged) result.
Proof.
  revert merged.
  induction result as [|[k v] result IH]; intros merged Hu Hk.
  - reflexivity.
  - simpl in Hu. apply andb_true_iff in Hu as [Hfresh Hu].
    rewrite merge_one_cons.
    unfold adopt. cbn [dlookup].
    destruct (String.eqb key k) eqn:E.
    + apply eqb_string_true in E. subst k.
      apply negb_true_iff in Hfresh.
      unfold dget at 1. unfold dget_default.
      rewrite merge_one_absent by assumption.
      fold (dget_default key VNone (merge_item merged (key, v))).
      fold (dget key (merge_item merged (key, v))).
      rewrite merge_item_same by assumption.
      destruct (dget key merged) as [| | |s| |]; try reflexivity.
    + rewrite IH by assumption.
      assert (Hsame : dget key (merge_item merged (k, v)) = dget key merged).
      { unfold dget, dget_default. rewrite merge_item_other; [reflexivity|].
        simpl. apply eqb_string_false in E. congruence. }
      rewrite Hsame. reflexivity.
Qed.

Lemma join_sources_go_str (i : nat) (l : list string) :
  join_sources_go i (map VStr l) = Ok l.
Proof.
  revert i. induction l as [|s l IH]; intros i; simpl; [reflexivity|].
  now rewrite IH.
Qed.

Lemma source_label_text (d : dict) :
  is_str (source_label d) = true -> source_label d = VStr (source_text d).
Proof. unfold source_text. destruct (source_label d); simpl; congruence. Qed.

(** The outer loop: every field follows [adopt] record after record, the
    exempt fields stay, the labels are collected in order. *)
Lemma merge_loop_spec (later : list dict) (merged : dict) (sources : list pyval) :
  forallb mergeable later = true ->
  exists merged',
    merge_loop merged sources (map VDict later)
    = Ok (merged', sources ++ map (fun d => VStr (source_text d)) later)
    /\ (forall key, is_source_or_raw key = false ->
          dget key merged' = fold_left (adopt key) later (dget key merged))
    /\ (forall key, is_source_or_raw key = true ->
          dlookup key merged' = dlookup key merged).
Proof.
  revert merged sources.
  induction later as [|d later IH]; intros merged sources Hall; simpl in *.
  - exists merged. rewrite app_nil_r. auto.
  - apply andb_true_iff in Hall as [Hd Hall].
    apply andb_true_iff in Hd as [Hu Hs].
    destruct (IH (merge_one merged d)
                (sources ++ [dget_default "source" (VStr "unknown") d]) Hall)
      as (merged' & Hrun & Hfield & Hex).
    exists merged'. split; [|split].
    + rewrite Hrun. f_equal. f_equal.
      rewrite <- app_assoc. simpl.
      fold (source_label d). now rewrite (source_label_text d Hs).
    + intros key Hk. rewrite (Hfield key Hk).
      now rewrite merge_one_adopt.
    + intros key Hk. rewrite (Hex key Hk). now apply merge_one_exempt.
Qed.

(** The whole merge on records as the normalizer produces them. *)
Lemma merge_run (first : dict) (later : list dict) :
  forallb mergeable (first :: later) = true ->
  exists merged',
    merge_whois_results (map VDict (first :: later))
    = Ok (VDict (dset "source"
                   (VStr (join ", " (map source_text (first :: later)))) merged'))
    /\ (forall key, is_source_or_raw key = false ->
          dget key merged' = fold_left (adopt key) later (dget key first))
    /\ (forall key, is_source_or_raw key = true ->
          dlookup key merged' = dlookup key first).
Proof.
  intros Hall. simpl in Hall.
  apply andb_true_iff in Hall as [Hfirst Hall].
  apply andb_true_iff in Hfirst as [Hu Hs].
  destruct (merge_loop_spec later first
              [dget_default "source" (VStr "unknown") first] Hall)
    as (merged' & Hrun & Hfield & Hex).
  exists merged'. split; [|split; assumption].
  simpl. rewrite Hrun.
  fold (source_label first). rewrite (source_label_text first Hs).
  unfold join_sources.
  change (VStr (source_text first) :: map (fun d => VStr (source_text d)) later)
    with ([VStr (source_text first)] ++ map (fun d => VStr (source_text d)) later).
  replace ([VStr (source_text first)] ++ map (fun d => VStr (source_text d)) later)
    with (map VStr (map source_text (first :: later)))
    by (simpl; now rewrite map_map).
  now rewrite join_sources_go_str.
Qed.

(** C5. For every non-empty list of records with unique keys and textual
    source labels, [merge_whois_results] returns a record in which every
    field other than [source] and [raw] is obtained from the first
    record's value by applying the rule [adopt] with each later record in
    turn (a later value is taken only if the current one is absent, or is
    the empty string while the later one is non-empty), [source] is the
    ', '-joined list of all source labels in input order, and [raw] is
    the first record's [raw]. *)
Theorem merge_fills_gaps (first : dict) (later : list dict) :
  forallb mergeable (first :: later) = true ->
  exists merged,
    merge_whois_results (map VDict (first :: later)) = Ok (VDict merged)
    /\ (forall key, is_source_or_raw key = false ->
          dget key merged = fold_left (adopt key) later (dget key first))
    /\ dget "source" merged
       = VStr (join ", " (map source_text (first :: later)))
    /\ dlookup "raw" merged = dlookup "raw" first.
Proof.
  intros Hall.
  destruct (merge_run first later Hall) as (merged' & Hrun & Hfield & Hex).
  exists (dset "source"
            (VStr (join ", " (map source_text (first :: later)))) merged').
  split; [exact Hrun|]. split; [|split].
  - intros key Hk. rewrite dget_dset_ne.
    + now apply Hfield.
    + intros ->. discriminate.
  - apply dget_dset_eq.
  - rewrite dlookup_dset_ne by discriminate. now apply Hex.
Qed.

(** Records of the normalizer, as values. *)
Lemma mergeable_values (results : list pyval) :
  Forall (fun v => exists d, v = VDict d /\ mergeable d = true) results ->
  exists ds, results = map VDict ds /\ forallb mergeable ds = true.
Proof.
  induction 1 as [|v results (d & -> & Hd) _ (ds & -> & Hds)].
  - exists []. split; reflexivity.
  - exists (d :: ds). split; [reflexivity|]. simpl. now rewrite Hd, Hds.
Qed.

(** The merge of records of the normalizer raises nothing: it returns a
    record. *)
Lemma merge_values_record (results : list pyval) :
  Forall (fun v => exists d, v = VDict d /\ mergeable d = true) results ->
  results <> [] ->
  exists merged, merge_whois_results results = Ok (VDict merged).
Proof.
  intros Hall Hne. destruct (mergeable_values results Hall) as (ds & -> & Hds).
  destruct ds as [|first later]; [now contradiction Hne|].
  destruct (merge_run first later Hds) as (merged' & Hrun & _).
  rewrite Hrun. eauto.
Qed.

(** C10. Applied to the empty list, [merge_whois_results] returns the
    empty record and raises nothing. *)
Theorem merge_empty_list : merge_whois_results [] = Ok (VDict []).
Proof. reflexivity. Qed.

(** A sample run of the merge. *)
Lemma merge_fills_gaps_witness :
  forallb mergeable [sample_primary; sample_system] = true
  /\ exists merged,
       merge_whois_results (map VDict [sample_primary; sample_system])
       = Ok (VDict merged)
       /\ (forall key, is_source_or_raw key = false ->
             dget key merged
             = fold_left (adopt key) [sample_system] (dget key sample_primary))
       /\ dget "source" merged
          = VStr (join ", " (map source_text [sample_primary; sample_system]))
       /\ dlookup "raw" merged = dlookup "raw" sample_primary.
Proof.
  split; [reflexivity|].
  apply (merge_fills_gaps sample_primary [sample_system]). reflexivity.
Defined.

(** ** _parse_whois_output *)

Lemma table_lookup_absent (key : string) (table : list (string * list regex)) :
  existsb (String.eqb key) (map fst table) = false ->
  table_lookup key table = None.
Proof.
  induction table as [|[k pl] table IH]; simpl; [reflexivity|].
  intros H. apply orb_false_iff in H as [H1 H2].
  rewrite H1. now apply IH.
Qed.

(** The loop over the table on one line, seen from one key. *)
Lemma parse_line_keys_lookup (table : list (string * list regex))
  (key : string) (line : string) (result : dict) :
  distinct (map fst table) = true ->
  dlookup key (parse_line_keys table line result)
  = match table_lookup key table with
    | Some pattern_list =>
        match first_match pattern_list line with
        | Some v => Some (VStr v)
        | None => dlookup key result
        end
    | None => dlookup key result
    end.
Proof.
  unfold parse_line_keys. revert result.
  induction table as [|[k pl] table IH]; intros result Hd; simpl in *.
  - reflexivity.
  - apply andb_true_iff in Hd as [Hfresh Hd].
    apply negb_true_iff in Hfresh.
    rewrite IH by assumption.
    destruct (String.eqb key k) eqn:E.
    + apply eqb_string_true in E. subst k.
      rewrite table_lookup_absent by assumption.
      destruct (first_match pl line); [apply dlookup_dset_eq | reflexivity].
    + assert (Hsame : dlookup key
                        match first_match pl line with
                        | Some v => dset k (VStr v) result
                        | None => result
                        end = dlookup key result).
      { destruct (first_match pl line); [|reflexivity].
        apply dlookup_dset_ne. apply eqb_string_false in E. exact E. }
      rewrite Hsame. reflexivity.
Qed.

Lemma patterns_distinct : distinct (map fst patterns) = true.
Proof. reflexivity. Qed.

Lemma parse_line_lookup (key : string) (pattern_list : list regex)
  (raw_line : string) (result : dict) :
  table_lookup key patterns = Some pattern_list ->
  dlookup key (parse_line result raw_line)
  = match line_value pattern_list raw_line with
    | Some v => Some (VStr v)
    | None => dlookup key result
    end.
Proof.
  intros Hk. unfold parse_line, line_value.
  destruct (skip_line (strip raw_line)); [reflexivity|].
  rewrite parse_line_keys_lookup by exact patterns_distinct.
  now rewrite Hk.
Qed.

Lemma parse_lines_lookup (key : string) (pattern_list : list regex)
  (lines : list string) (result : dict) :
  table_lookup key patterns = Some pattern_list ->
  dlookup key (fold_left parse_line lines result)
  = match last_value pattern_list lines with
    | Some v => Some (VStr v)
    | None => dlookup key result
    end.
Proof.
  intros Hk. revert result.
  induction lines as [|l lines IH]; intros result; simpl; [reflexivity|].
  rewrite IH. destruct (last_value pattern_list lines); [reflexivity|].
  now apply parse_line_lookup.
Qed.

Lemma table_key_not_ip (key : string) (pattern_list : list regex) :
  table_lookup key patterns = Some pattern_list -> key <> "ip".
Proof. intros H ->. discriminate H. Qed.

(** C4, as the code has it. For every output and every key of the
    pattern table, the parsed value of the key is the one captured on
    the last line (not skipped as empty or comment) on which a pattern of
    the key matches, the first such pattern of the key's list deciding
    the value on that line; the key is absent if no line matches. A later
    matching line replaces the value set by an earlier one. *)
Theorem parse_last_match_wins (output ip key : string)
  (pattern_list : list regex) :
  table_lookup key patterns = Some pattern_list ->
  dlookup key (_parse_whois_output output ip)
  = VStr <$> last_value pattern_list (splitlines output).
Proof.
  intros Hk. unfold _parse_whois_output.
  rewrite (parse_lines_lookup key pattern_list) by assumption.
  destruct (last_value pattern_list (splitlines output)); [reflexivity|].
  simpl. pose proof (table_key_not_ip key pattern_list Hk) as Hne.
  apply eqb_string_false in Hne. now rewrite Hne.
Qed.

Lemma parse_last_match_wins_witness :
  exists pattern_list,
    table_lookup "country" patterns = Some pattern_list
    /\ dlookup "country" (_parse_whois_output sample_whois_output "8.8.8.8")
       = VStr <$> last_value pattern_list (splitlines sample_whois_output)
    /\ last_value pattern_list (splitlines sample_whois_output) = Some "DE".
Proof.
  eexists. split; [reflexivity|]. split.
  - apply (parse_last_match_wins sample_whois_output "8.8.8.8" "country").
    reflexivity.
  - vm_compute. reflexivity.
Defined.

(** Against C4 as stated: the first line matching [country] yields "US",
    yet the parsed value is "DE", taken from a later matching line. *)
Lemma parse_later_line_overwrites :
  exists pattern_list,
    table_lookup "country" patterns = Some pattern_list
    /\ first_value pattern_list (splitlines sample_whois_output) = Some "US"
    /\ dlookup "country" (_parse_whois_output sample_whois_output "8.8.8.8")
       = Some (VStr "DE")
    /\ dlookup "country" (_parse_whois_output sample_whois_output "8.8.8.8")
       <> VStr <$> first_value pattern_list (splitlines sample_whois_output).
Proof.
  eexists. split; [reflexivity|].
  split; [vm_compute; reflexivity|].
  split; [vm_compute; reflexivity|].
  vm_compute. discriminate.
Qed.

(** ** CacheManager *)

Lemma append_tmp_ne (path : string) : path +:+ ".tmp" <> path.
Proof.
  intros E. apply (f_equal chars) in E. rewrite chars_app in E.
  apply (f_equal (@length ascii)) in E.
  rewrite List.length_app in E. simpl in E. lia.
Qed.

Ltac unfold_monad :=
  unfold bind, ret, raise, try_except, lift_res, time_time, io_fault,
    set_faults, set_files, set_clock, add_event, add_log in *.

Lemma cache_set_none (self : CacheManager) (ip method : string) (w : World) :
  CacheManager_set self ip method VNone w = (Ok false, w).
Proof. reflexivity. Qed.

(** The write protocol: temporary file, then rename. *)
Lemma store_steps (path : string) (data : pyval) (w : World) :
  let tmp := path +:+ ".tmp" in
  exists w',
    try_except (write_json tmp data ;;; os_replace tmp path ;;; ret true)
      (fun _ => Some (ret false)) w
    = (Ok (io_clear 3 (faults w)), w')
    /\ (io_clear 3 (faults w) = true ->
          files w' = <[path := JsonDoc data]> (delete tmp (files w))
          /\ trace w' = trace w ++ [EvWrite tmp; EvReplace tmp path])
    /\ (io_clear 3 (faults w) = false ->
          files w' !! path = files w !! path).
Proof.
  intros tmp. pose proof (append_tmp_ne path) as Hne. fold tmp in Hne.
  clearbody tmp.
  destruct w as [fs ds ck fl tr lg].
  destruct fl as [|[m1|] [|[m2|] [|[m3|] r]]];
    unfold write_json, os_replace; unfold_monad; simpl;
    rewrite ?lookup_insert_eq; simpl.
  all: eexists; split; [reflexivity|]; simpl.
  all: split; intros Hclear; try discriminate Hclear.
  all: try (split; [now rewrite !delete_insert_eq
                   | now rewrite <- app_assoc]).
  all: rewrite ?lookup_insert_ne by exact Hne; reflexivity.
Qed.

Lemma cache_set_steps (self : CacheManager) (ip method : string)
  (result : pyval) (w : World) :
  result <> VNone ->
  let cache_file := _get_cache_path self ip method in
  let temp_file := cache_file +:+ ".tmp" in
  let data := VDict [("timestamp", VNum (clock w)); ("result", result)] in
  exists w',
    CacheManager_set self ip method result w = (Ok (io_clear 3 (faults w)), w')
    /\ (io_clear 3 (faults w) = true ->
          files w' = <[cache_file := JsonDoc data]> (delete temp_file (files w))
          /\ trace w' = trace w ++ [EvWrite temp_file; EvReplace temp_file cache_file])
    /\ (io_clear 3 (faults w) = false ->
          files w' !! cache_file = files w !! cache_file).
Proof.
  intros Hres cache_file temp_file data.
  destruct result; try congruence;
    exact (store_steps cache_file data w).
Qed.

(** C6, as the code has it. [set] refuses only the absent record
    ([None]): it returns false and leaves the world as it is. Every other
    record, an empty one included, is written to the temporary file
    [cache_file + ".tmp"], which is then renamed to the cache file. [set]
    never raises: it returns true exactly when none of its three I/O
    steps (open, dump, rename) fails, and false otherwise, in which case
    the cache file itself is as it was before. *)
Theorem cache_set_contract (self : CacheManager) (ip method : string)
  (result : pyval) (w : World) :
  let cache_file := _get_cache_path self ip method in
  let temp_file := cache_file +:+ ".tmp" in
  let data := VDict [("timestamp", VNum (clock w)); ("result", result)] in
  exists ok w',
    CacheManager_set self ip method result w = (Ok ok, w')
    /\ (result = VNone -> ok = false /\ w' = w)
    /\ (result <> VNone -> ok = io_clear 3 (faults w))
    /\ (ok = true ->
          files w' = <[cache_file := JsonDoc data]> (delete temp_file (files w))
          /\ trace w' = trace w ++ [EvWrite temp_file; EvReplace temp_file cache_file])
    /\ (ok = false -> files w' !! cache_file = files w !! cache_file).
Proof.
  intros cache_file temp_file data.
  assert (Hcases : result = VNone \/ result <> VNone)
    by (destruct result; (now left) || (right; discriminate)).
  destruct Hcases as [->|Hres].
  - exists false, w. rewrite cache_set_none.
    split; [reflexivity|].
    split; [split; reflexivity|].
    split; [intros E; contradiction|].
    split; [discriminate | reflexivity].
  - destruct (cache_set_steps self ip method result w Hres)
      as (w' & Hrun & Htrue & Hfalse).
    exists (io_clear 3 (faults w)), w'.
    split; [exact Hrun|].
    split; [intros E; contradiction|].
    split; [reflexivity|].
    split; assumption.
Qed.

Lemma is_Some_decide_true {A} (x : A) : bool_decide (is_Some (Some x)) = true.
Proof. apply bool_decide_eq_true_2. eauto. Qed.

Lemma is_Some_decide_false {A} : bool_decide (is_Some (@None A)) = false.
Proof. apply bool_decide_eq_false_2. intros [x Hx]. discriminate Hx. Qed.

Lemma cache_get_spec (self : CacheManager) (ip method : string) (w : World) :
  let cache_file := _get_cache_path self ip method in
  exists v w',
    CacheManager_get self ip method w = (Ok v, w')
    /\ files w' = files w
    /\ (files w !! cache_file = None -> v = VNone)
    /\ (forall msg rest, faults w = Some msg :: rest -> v = VNone)
    /\ (forall text, files w !! cache_file = Some (Garbled text) -> v = VNone)
    /\ (forall data, files w !! cache_file = Some (JsonDoc data) ->
          match entry_age (clock w) data with
          | Raise _ => v = VNone
          | Ok age =>
              if Qlt_bool (ttl self) age then v = VNone
              else (forall msg rest, faults w <> Some msg :: rest) ->
                   v = entry_result data
          end).
Proof.
  unfold CacheManager_get. generalize (_get_cache_path self ip method).
  intros path. simpl.
  destruct w as [fs ds ck fl tr lg].
  unfold read_json, os_path_exists. unfold_monad. simpl.
  destruct (fs !! path) as [[data|text]|] eqn:Efile;
    rewrite ?is_Some_decide_true, ?is_Some_decide_false; simpl;
    [| |destruct (bool_decide (path ∈ ds)); simpl];
    destruct fl as [|[msg|] rest]; simpl; rewrite ?Efile; simpl.
  all: try (destruct (entry_age ck data) as [age|e] eqn:Eage; simpl;
            [destruct (Qlt_bool (ttl self) age) eqn:Ettl; simpl|]).
  all: repeat match goal with
              | |- context [ExnClass_eqb ?a ?b] => destruct (ExnClass_eqb a b)
              end; simpl.
  all: eexists; eexists; (split; [reflexivity|]); simpl.
  all: split; [reflexivity|].
  all: split; [intros; try reflexivity; discriminate|].
  all: split; [intros; try reflexivity; discriminate|].
  all: split; [intros; try reflexivity; discriminate|].
  all: intros data0 Hdata; try discriminate Hdata.
  all: injection Hdata as <-.
  all: rewrite ?Eage, ?Ettl; try reflexivity.
  all: try (destruct (entry_age ck data) as [age|e];
            [destruct (Qlt_bool (ttl self) age)|]; try reflexivity).
  all: try (intros Hclear; try reflexivity; exfalso; eapply Hclear; reflexivity).
Qed.

Lemma str_app (a b : list ascii) : str (a ++ b) = str a +:+ str b.
Proof. induction a as [|c a IH]; simpl; [reflexivity | now rewrite IH]. Qed.

Lemma strip_prefix_app (p l r : list ascii) :
  strip_prefix p l = Some r -> l = p ++ r.
Proof.
  revert l. induction p as [|a p IH]; intros l H; simpl in *.
  - now injection H as ->.
  - destruct l as [|c l]; [discriminate|].
    destruct (Ascii.eqb a c) eqn:E; [|discriminate].
    apply Ascii.eqb_eq in E. subst c. now rewrite (IH l H).
Qed.

Lemma startswith_slash (l : list ascii) :
  has_char "/"%char l = false -> startswith "/" (str l) = false.
Proof.
  destruct l as [|c l]; [reflexivity|].
  unfold has_char, startswith, str.
  cbn [string_of_list_ascii existsb String.prefix]. intros H.
  apply orb_false_iff in H as [H _].
  destruct (ascii_dec "/"%char c) as [<-|Hne]; [discriminate H | reflexivity].
Qed.

(** A name listed by [os.listdir] leads back to the file. *)
Lemma entry_name_join (d path name : string) :
  entry_name d path = Some name -> os_path_join d name = path.
Proof.
  unfold entry_name, os_path_join.
  destruct (strip_prefix _ (chars path)) as [nm|] eqn:Estrip; [|discriminate].
  destruct (is_empty_part nm || has_char "/"%char nm) eqn:Enm; [discriminate|].
  intros [= <-]. apply orb_false_iff in Enm as [_ Hslash].
  rewrite (startswith_slash nm Hslash).
  apply strip_prefix_app in Estrip.
  apply chars_inj. rewrite Estrip.
  destruct (String.eqb d "" || endswith "/" d);
    rewrite ?chars_app, ?chars_str, <- ?app_assoc; reflexivity.
Qed.

Lemma json_name_not_tmp (name : string) :
  endswith ".json" name = true -> endswith ".tmp" name = false.
Proof.
  unfold endswith. generalize (String.rev name). intros [|c r].
  - discriminate.
  - change (String.rev ".json") with "nosj.".
    change (String.rev ".tmp") with "pmt.".
    cbn [String.prefix].
    destruct (ascii_dec "n"%char c) as [<-|Hn]; [|discriminate].
    intros _. destruct (ascii_dec "p"%char "n"%char) as [E|_];
      [discriminate E | reflexivity].
Qed.

Lemma entry_age_raise_class (now : Q) (v : pyval) (e : exn) :
  entry_age now v = Raise e ->
  ExnClass_eqb (exn_class e) JSONDecodeError
  || ExnClass_eqb (exn_class e) KeyError = false.
Proof.
  destruct v; simpl; try (intros [= <-]; reflexivity).
  destruct (as_number _); [discriminate|].
  intros [= <-]. reflexivity.
Qed.

(** One file of the cleaning pass. *)
Lemma clean_file_spec (self : CacheManager) (now : Q) (filename : string)
  (w : World) :
  let full_path := os_path_join (cache_dir self) filename in
  exists removed w',
    clean_file self now filename w = (Ok removed, w')
    /\ (if removed
        then is_Some (files w !! full_path)
             /\ files w' = delete full_path (files w)
        else files w' = files w)
    /\ (faults w = [] ->
          faults w' = []
          /\ removed = match files w !! full_path with
                       | Some data => doomed self now data
                       | None => false
                       end).
Proof.
  unfold clean_file. generalize (os_path_join (cache_dir self) filename).
  intros path. simpl.
  destruct w as [fs ds ck fl tr lg].
  unfold read_json, os_remove. unfold_monad. simpl.
  destruct (fs !! path) as [[data|text]|] eqn:Efile;
    destruct fl as [|[m1|] [|[m2|] rest]]; simpl; rewrite ?Efile; simpl.
  all: try (destruct (entry_age now data) as [age|e] eqn:Eage; simpl;
            [destruct (Qlt_bool (ttl self) age) eqn:Ettl; simpl; rewrite ?Efile; simpl
            |rewrite (entry_age_raise_class now data e Eage); simpl]).
  all: repeat (rewrite Efile; simpl).
  all: eexists; eexists; (split; [reflexivity|]); simpl.
  all: split; [first [reflexivity | split; [eauto | reflexivity]]|].
  all: intros Hfl; try discriminate Hfl.
  all: split; [reflexivity|]; rewrite ?Eage, ?Ettl; reflexivity.
Qed.

Lemma size_delete_present (m : gmap string FileData) (i : string) :
  is_Some (m !! i) -> S (size (delete i m)) = size m.
Proof.
  intros [x Hx]. rewrite <- (insert_delete_id m i x Hx) at 2.
  rewrite map_size_insert_None by apply lookup_delete_eq. reflexivity.
Qed.

(** The cleaning loop: files are only deleted, the counter grows by the
    number of files deleted, and, if no I/O call fails, every listed
    [.json] file that is doomed is deleted. *)
Lemma clean_loop_spec (self : CacheManager) (now : Q) (names : list string) :
  forall (cleaned : nat) (w : World),
  exists n w',
    clean_loop self now names cleaned w = (Ok n, w')
    /\ files w' ⊆ files w
    /\ (n + size (files w') = cleaned + size (files w))%nat
    /\ (faults w = [] ->
        forall name data,
          name ∈ names ->
          endswith ".json" name = true ->
          files w !! os_path_join (cache_dir self) name = Some data ->
          doomed self now data = true ->
          files w' !! os_path_join (cache_dir self) name = None).
Proof.
  induction names as [|filename rest IH]; intros cleaned w.
  - exists cleaned, w. split; [reflexivity|]. split; [reflexivity|].
    split; [reflexivity|]. intros _ name data Hin. inversion Hin.
  - cbn [clean_loop].
    destruct (endswith ".json" filename) eqn:Ejson; cbn [negb].
    + rewrite (json_name_not_tmp filename Ejson).
      destruct (clean_file_spec self now filename w)
        as (removed & w1 & Hrun & Hfiles & Hplan).
      unfold bind at 1. rewrite Hrun.
      destruct (IH (if removed then S cleaned else cleaned) w1)
        as (n & w' & Hloop & Hsub & Hsize & Hdoomed).
      exists n, w'. split; [exact Hloop|].
      assert (Hsub1 : files w1 ⊆ files w).
      { destruct removed.
        - destruct Hfiles as [_ ->]. apply delete_subseteq.
        - now rewrite Hfiles. }
      split; [now transitivity (files w1)|].
      split.
      { destruct removed.
        - destruct Hfiles as [Hsome Hdel]. rewrite Hdel in Hsize.
          pose proof (size_delete_present _ _ Hsome). lia.
        - rewrite Hfiles in Hsize. exact Hsize. }
      intros Hfl name data Hin Hname Hfile Hdoom.
      destruct (Hplan Hfl) as [Hfl1 Hrem].
      destruct (files w1 !! os_path_join (cache_dir self) name)
        as [data1|] eqn:Efile1.
      * assert (data1 = data) as ->.
        { pose proof (lookup_weaken _ _ _ _ Efile1 Hsub1) as Hw.
          congruence. }
        apply elem_of_cons in Hin as [->|Hin].
        -- rewrite Hfile, Hdoom in Hrem. subst removed.
           destruct Hfiles as [_ Hdel]. rewrite Hdel in Efile1.
           rewrite lookup_delete_eq in Efile1. discriminate.
        -- now apply (Hdoomed Hfl1 name data).
      * now apply (lookup_weaken_None _ _ _ Efile1).
    + destruct (IH cleaned w) as (n & w' & Hloop & Hsub & Hsize & Hdoomed).
      exists n, w'. split; [exact Hloop|]. split; [exact Hsub|].
      split; [exact Hsize|].
      intros Hfl name data Hin Hname. 
      apply elem_of_cons in Hin as [->|Hin]; [congruence|].
      now apply Hdoomed.
Qed.

(** The listing step of [clean_expired], with its [try] statement. *)
Lemma listing_spec (d : string) (w : World) :
  exists listing w1,
    try_except (names <- os_listdir d ;; ret (Some names))
      (fun _ => Some (ret None)) w = (Ok listing, w1)
    /\ files w1 = files w
    /\ (faults w = [] -> d ∈ dirs w ->
        w1 = w
        /\ listing = Some (omap (entry_name d) (fst <$> map_to_list (files w)))).
Proof.
  destruct w as [fs ds ck fl tr lg].
  unfold os_listdir. unfold_monad. simpl.
  destruct fl as [|[m|] rest]; simpl;
    try (destruct (bool_decide (d ∈ ds)) eqn:Edir; simpl).
  all: eexists; eexists; (split; [reflexivity|]); simpl.
  all: split; [reflexivity|].
  all: intros Hfl Hdir; try discriminate Hfl.
  - split; reflexivity.
  - apply bool_decide_eq_false in Edir. contradiction.
Qed.

Lemma clean_expired_spec (self : CacheManager) (w : World) :
  exists n w',
    CacheManager_clean_expired self w = (Ok n, w')
    /\ files w' ⊆ files w
    /\ (n + size (files w') = size (files w))%nat
    /\ (files w !! cache_dir self = None -> cache_dir self ∉ dirs w ->
        n = 0%nat /\ w' = w)
    /\ (faults w = [] -> cache_dir self ∈ dirs w ->
        forall path name data,
          entry_name (cache_dir self) path = Some name ->
          endswith ".json" name = true ->
          files w !! path = Some data ->
          doomed self (clock w) data = true ->
          files w' !! path = None).
Proof.
  unfold CacheManager_clean_expired.
  unfold bind at 1. unfold time_time.
  unfold bind at 1. unfold os_path_exists.
  destruct (bool_decide (is_Some (files w !! cache_dir self))
            || bool_decide (cache_dir self ∈ dirs w)) eqn:Epresent; cbn [negb].
  - destruct (listing_spec (cache_dir self) w)
      as (listing & w1 & Hlist & Hfiles1 & Hplain).
    unfold bind at 1. rewrite Hlist.
    destruct listing as [names|].
    + destruct (clean_loop_spec self (clock w) names 0%nat w1)
        as (n & w' & Hloop & Hsub & Hsize & Hdoomed).
      exists n, w'. split; [exact Hloop|].
      rewrite Hfiles1 in Hsub, Hsize.
      split; [exact Hsub|]. split; [exact Hsize|]. split.
      * intros Hnofile Hnodir. rewrite Hnofile, is_Some_decide_false in Epresent.
        assert (Hd : bool_decide (cache_dir self ∈ dirs w) = false)
          by (apply bool_decide_eq_false_2; exact Hnodir).
        rewrite Hd in Epresent. discriminate Epresent.
      * intros Hfl Hdir path name data Hname Hjson Hfile Hdoom.
        destruct (Hplain Hfl Hdir) as [-> Hnames].
        injection Hnames as ->.
        rewrite <- (entry_name_join _ _ _ Hname).
        apply (Hdoomed Hfl name data); try assumption.
        -- apply list_elem_of_omap. exists path. split; [|exact Hname].
           apply list_elem_of_fmap. exists (path, data). split; [reflexivity|].
           now apply elem_of_map_to_list.
        -- now rewrite (entry_name_join _ _ _ Hname).
    + exists 0%nat, w1. split; [reflexivity|].
      rewrite Hfiles1. split; [reflexivity|]. split; [reflexivity|]. split.
      * intros Hnofile Hnodir. rewrite Hnofile, is_Some_decide_false in Epresent.
        assert (Hd : bool_decide (cache_dir self ∈ dirs w) = false)
          by (apply bool_decide_eq_false_2; exact Hnodir).
        rewrite Hd in Epresent. discriminate Epresent.
      * intros Hfl Hdir. destruct (Hplain Hfl Hdir) as [_ Hnames].
        discriminate Hnames.
  - exists 0%nat, w. split; [reflexivity|]. split; [reflexivity|].
    split; [reflexivity|]. split; [split; reflexivity|].
    intros _ Hdir. apply orb_false_iff in Epresent as [_ Hnodir].
    apply bool_decide_eq_false in Hnodir. contradiction.
Qed.


(** ** normalize_whois_result *)

Section Normalizer.
Context `{Backend}.

Lemma well_labelled_dset (source : string) (raw_result : pyval)
  (key : string) (v : pyval) (result : dict) :
  is_source_or_raw key = false ->
  well_labelled source raw_result result ->
  well_labelled source raw_result (dset key v result).
Proof.
  intros Hkey (Hu & Hs & Hr).
  unfold is_source_or_raw in Hkey. apply orb_false_iff in Hkey as [K1 K2].
  apply eqb_string_false in K1, K2.
  split; [now apply unique_keys_dset|].
  split; rewrite dlookup_dset_ne by congruence; assumption.
Qed.

Lemma first_description_labelled (source : string) (raw_result : pyval)
  (nets : list pyval) (result result' : dict) :
  first_description nets result = Ok result' ->
  well_labelled source raw_result result ->
  well_labelled source raw_result result'.
Proof.
  induction nets as [|net nets IH]; cbn [first_description]; intros E HP.
  - now injection E as <-.
  - destruct (py_in "description" net) as [[|]|e]; cbn [and_then] in E;
      try discriminate E.
    + destruct (py_getitem "description" net); cbn [and_then] in E;
        [|discriminate E].
      injection E as <-. now apply well_labelled_dset.
    + now apply IH.
Qed.

Ltac stage_step :=
  match goal with
  | E : and_then ?r _ = Ok _ |- _ =>
      destruct r; cbn [and_then] in E; [|discriminate E]
  | E : (if ?b then _ else _) = Ok _ |- _ => destruct b
  | E : match ?v with VNone => _ | _ => _ end = Ok _ |- _ => destruct v
  | E : match ?l with [] => _ | _ => _ end = Ok _ |- _ => destruct l
  | E : Ok _ = Ok _ |- _ => injection E as <-
  | E : first_description _ _ = Ok _ |- _ =>
      eapply first_description_labelled in E; [exact E|]
  | |- well_labelled _ _ (dset _ _ _) =>
      apply well_labelled_dset; [reflexivity|]
  end.

(** One binding of the normalizer: a test or a lookup is split into its
    outcomes; a stage that yields the next record is cut out and shown to
    keep the labelling. *)
Ltac cut_stage E source raw_result :=
  lazymatch type of E with
  | and_then ?r _ = _ =>
      lazymatch type of r with
      | Res (list _) =>
          let r' := fresh "r" in
          let E' := fresh "E" in
          let HP' := fresh "HP" in
          destruct r as [r'|] eqn:E'; cbn [and_then] in E; [|discriminate E];
          assert (HP' : well_labelled source raw_result r')
            by (clear E; repeat stage_step; assumption);
          clear E'
      | _ => destruct r; cbn [and_then] in E; [|discriminate E]
      end
  end.

(** The normalizer returns a record with unique keys that carries the
    source label and the raw data it was given. *)
Lemma normalize_labelled (raw_result : pyval) (source : string) (result : dict) :
  normalize_whois_result raw_result source = Ok result ->
  well_labelled source raw_result result.
Proof.
  unfold normalize_whois_result.
  set (initial := [("ip", VNone); ("network", VNone); ("asn", VNone);
                   ("organization", VNone); ("country", VNone); ("city", VNone);
                   ("registered", VNone); ("source", VStr source);
                   ("raw", raw_result)]).
  assert (H0 : well_labelled source raw_result initial)
    by (repeat split; reflexivity).
  clearbody initial. intros E.
  repeat (cut_stage E source raw_result).
  injection E as <-. assumption.
Qed.

Lemma normalize_mergeable (raw_result : pyval) (source : string) (result : dict) :
  normalize_whois_result raw_result source = Ok result ->
  mergeable result = true /\ source_text result = source.
Proof.
  intros E. destruct (normalize_labelled raw_result source result E)
    as (Hu & Hs & _).
  unfold mergeable, source_text, source_label, dget_default.
  rewrite Hu, Hs. split; reflexivity.
Qed.

End Normalizer.

(** ** BaseResolver.lookup *)

Lemma after_requests_app_quiet (quiet rest : list Event) :
  after_requests quiet = [] ->
  after_requests (quiet ++ rest) = after_requests rest.
Proof.
  induction quiet as [|e quiet IH]; simpl; [reflexivity|].
  destruct e; try exact IH. discriminate.
Qed.

Lemma sleep_backoff_ok (k : Z) : 0 <= k -> Qlt_bool (inject_Z k) 0 = false.
Proof.
  intros Hk. unfold Qlt_bool, Qle_bool. simpl.
  apply negb_false_iff. apply Z.leb_le. lia.
Qed.

Lemma sleep_remaining_ok (limit elapsed : Q) :
  Qlt_bool elapsed limit = true -> Qlt_bool (limit - elapsed) 0 = false.
Proof.
  unfold Qlt_bool. intros H. apply negb_true_iff in H.
  apply negb_false_iff. apply Qle_bool_iff.
  assert (Hlt : ~ (limit <= elapsed)%Q).
  { intros Hle. apply Qle_bool_iff in Hle. congruence. }
  lra.
Qed.

(** The rate limiter sleeps at most once and touches nothing else. *)
Lemma apply_rate_limit_spec (r : Resolver) (w : World) :
  exists r' w' quiet,
    _apply_rate_limit (r, w) = (Ok tt, (r', w'))
    /\ name r' = name r /\ kind r' = kind r /\ rate_limit r' = rate_limit r
    /\ trace w' = trace w ++ quiet /\ after_requests quiet = []
    /\ files w' = files w /\ dirs w' = dirs w /\ faults w' = faults w
    /\ log w' = log w.
Proof.
  unfold _apply_rate_limit, get_self, set_last_request_time, lift, time_sleep.
  unfold_monad. simpl.
  destruct (Qlt_bool (clock w - last_request_time r) (rate_limit r)) eqn:E; simpl.
  - rewrite (sleep_remaining_ok _ _ E). simpl.
    do 2 eexists. exists [EvSleep (rate_limit r - (clock w - last_request_time r))].
    split; [reflexivity|]. simpl. repeat (split; [reflexivity|]). reflexivity.
  - do 2 eexists. exists [].
    split; [reflexivity|]. simpl. rewrite app_nil_r.
    repeat (split; [reflexivity|]). reflexivity.
Qed.

Section Lookup.
Context `{Backend}.

(** One attempt: at most one rate-limit sleep, then exactly one request,
    whose outcome decides the attempt. *)
Lemma attempt_spec (ip : string) (timeout : option Q) (r : Resolver) (w : World) :
  exists r' w' w0 outcome duration quiet,
    attempt ip timeout (r, w) = (finish (name r) ip outcome, (r', w'))
    /\ perform_lookup (kind r) ip timeout w0 = (outcome, duration)
    /\ name r' = name r /\ kind r' = kind r /\ rate_limit r' = rate_limit r
    /\ trace w' = trace w0 ++ [EvRequest (name r) ip]
    /\ trace w0 = trace w ++ quiet /\ after_requests quiet = []
    /\ files w' = files w /\ dirs w' = dirs w /\ faults w' = faults w
    /\ log w' = log w.
Proof.
  destruct (apply_rate_limit_spec r w)
    as (r1 & w1 & quiet & Hrl & Hname & Hkind & Hlimit & Htrace & Hquiet
        & Hfiles & Hdirs & Hfaults & Hlog).
  unfold attempt. unfold bind at 1. rewrite Hrl.
  unfold bind at 1. unfold _perform_lookup. cbn [fst snd].
  destruct (perform_lookup (kind r1) ip timeout w1) as [outcome duration] eqn:Eperf.
  exists r1, (add_event (EvRequest (name r1) ip)
                (set_clock (clock w1 + duration)%Q w1)), w1, outcome, duration, quiet.
  rewrite <- Hname, <- Hkind.
  split.
  - unfold finish. destruct outcome as [raw|e]; [|reflexivity].
    unfold bind at 1, lift_res at 1.
    destruct (ensure_ip raw ip) as [with_ip|e]; [|reflexivity].
    unfold bind at 1, get_self. cbn [fst].
    unfold bind, lift_res, ret.
    destruct (normalize_whois_result with_ip (name r1)); reflexivity.
  - split; [exact Eperf|].
    repeat (split; [first [reflexivity | assumption]|]). assumption.
Qed.

(** The retry loop, started with [retry_count] retries already made. *)
Lemma lookup_loop_spec (ip : string) (timeout : option Q) (max_retries : Z)
  (fuel : nat) :
  forall (retry_count : Z) (r : Resolver) (w : World),
    0 <= retry_count <= max_retries ->
    (Z.to_nat (max_retries + 1 - retry_count) <= fuel)%nat ->
    exists out r' w' w0 outcome duration delta (n : nat),
      lookup_loop fuel ip timeout max_retries retry_count (r, w) = (out, (r', w'))
      /\ name r' = name r /\ kind r' = kind r /\ rate_limit r' = rate_limit r
      /\ files w' = files w /\ dirs w' = dirs w /\ faults w' = faults w
      /\ log w' = log w
      /\ trace w' = trace w ++ delta
      /\ after_requests delta = backoff_events (retry_count + 1) n ++ [None]
      /\ retry_count + Z.of_nat n <= max_retries
      /\ perform_lookup (kind r) ip timeout w0 = (outcome, duration)
      /\ trace w' = trace w0 ++ [EvRequest (name r) ip]
      /\ match finish (name r) ip outcome with
         | Ok v => out = Ok v
         | Raise e =>
             out = Raise (Exn ValueError ("Lookup failed: " +:+ exn_str e))
             /\ retry_count + Z.of_nat n = max_retries
         end.
Proof.
  induction fuel as [|fuel IH]; intros retry_count r w Hrc Hfuel.
  - exfalso. lia.
  - cbn [lookup_loop].
    assert (Hcond : (retry_count <=? max_retries) = true) by (apply Z.leb_le; lia).
    rewrite Hcond.
    destruct (attempt_spec ip timeout r w)
      as (r1 & w1 & w0 & outcome & duration & quiet & Hatt & Hperf & Hname & Hkind
          & Hlimit & Htrace1 & Htrace0 & Hquiet & Hfiles & Hdirs & Hfaults & Hlog).
    unfold try_except at 1. rewrite Hatt.
    destruct (finish (name r) ip outcome) as [v|e] eqn:Efin.
    + exists (Ok v), r1, w1, w0, outcome, duration,
        (quiet ++ [EvRequest (name r) ip]), 0%nat.
      split; [reflexivity|].
      repeat (split; [assumption|]).
      split; [rewrite Htrace1, Htrace0; now rewrite app_assoc|].
      split; [now rewrite after_requests_app_quiet|].
      split; [lia|]. split; [exact Hperf|]. split; [exact Htrace1|].
      rewrite Efin. reflexivity.
    + destruct (retry_count + 1 <=? max_retries) eqn:Emore.
      * apply Z.leb_le in Emore.
        unfold bind at 1, lift at 1, time_sleep. cbn [fst snd].
        rewrite sleep_backoff_ok by lia.
        set (w2 := add_event (EvSleep (inject_Z ((retry_count + 1) * 2)))
                     (set_clock (clock w1 + inject_Z ((retry_count + 1) * 2))%Q w1)).
        destruct (IH (retry_count + 1) r1 w2 ltac:(lia) ltac:(lia))
          as (out & r' & w' & w0' & outcome' & duration' & delta' & n' & Hloop
              & Hname' & Hkind' & Hlimit' & Hfiles' & Hdirs' & Hfaults' & Hlog'
              & Htrace' & Hafter' & Hn' & Hperf' & Hlast' & Hout').
        unfold w2 in Hfiles', Hdirs', Hfaults', Hlog'.
        simpl in Hfiles', Hdirs', Hfaults', Hlog'.
        exists out, r', w', w0', outcome', duration',
          (quiet ++ [EvRequest (name r) ip]
           ++ [EvSleep (inject_Z ((retry_count + 1) * 2))] ++ delta'), (S n').
        split; [exact Hloop|].
        split; [congruence|]. split; [congruence|]. split; [congruence|].
        split; [congruence|]. split; [congruence|]. split; [congruence|].
        split; [congruence|].
        split.
        { rewrite Htrace'. unfold w2. simpl. rewrite Htrace1, Htrace0.
          now rewrite <- !app_assoc. }
        split.
        { rewrite after_requests_app_quiet by assumption. simpl.
          now rewrite Hafter'. }
        split; [lia|].
        split; [now rewrite <- Hkind|].
        split; [now rewrite <- Hname|].
        rewrite <- Hname.
        destruct (finish (name r1) ip outcome'); [exact Hout'|].
        destruct Hout' as [-> Hlast]. split; [reflexivity | lia].
      * apply Z.leb_gt in Emore.
        exists (Raise (Exn ValueError ("Lookup failed: " +:+ exn_str e))),
          r1, w1, w0, outcome, duration, (quiet ++ [EvRequest (name r) ip]), 0%nat.
        split; [reflexivity|].
        repeat (split; [assumption|]).
        split; [rewrite Htrace1, Htrace0; now rewrite app_assoc|].
        split; [now rewrite after_requests_app_quiet|].
        split; [lia|]. split; [exact Hperf|]. split; [exact Htrace1|].
        rewrite Efin. split; [reflexivity | lia].
Qed.

(** More fuel than the loop needs changes nothing. *)
Lemma lookup_loop_fuel (ip : string) (timeout : option Q) (max_retries : Z)
  (fuel1 : nat) :
  forall (fuel2 : nat) (retry_count : Z) (s : Resolver * World),
    (Z.to_nat (max_retries + 1 - retry_count) <= fuel1)%nat ->
    (Z.to_nat (max_retries + 1 - retry_count) <= fuel2)%nat ->
    lookup_loop fuel1 ip timeout max_retries retry_count s
    = lookup_loop fuel2 ip timeout max_retries retry_count s.
Proof.
  induction fuel1 as [|fuel1 IH]; intros fuel2 retry_count s H1 H2.
  - assert (Hcond : (retry_count <=? max_retries) = false)
      by (apply Z.leb_gt; lia).
    destruct fuel2; cbn [lookup_loop]; now rewrite Hcond.
  - destruct (retry_count <=? max_retries) eqn:Hcond.
    + apply Z.leb_le in Hcond.
      destruct fuel2 as [|fuel2]; [exfalso; lia|].
      cbn [lookup_loop].
      assert (Htrue : (retry_count <=? max_retries) = true)
        by (apply Z.leb_le; lia).
      rewrite Htrue.
      unfold try_except.
      destruct (attempt ip timeout s) as [[v|e] s']; [reflexivity|].
      destruct (retry_count + 1 <=? max_retries) eqn:Emore; [|reflexivity].
      unfold bind.
      destruct (lift (time_sleep (inject_Z ((retry_count + 1) * 2))) s')
        as [[[]|e'] s'']; [|reflexivity].
      apply IH; lia.
    + destruct fuel2; cbn [lookup_loop]; now rewrite Hcond.
Qed.

End Lookup.

Section LookupContract.
Context `{Backend}.

Lemma ensure_ip_has_ip (raw_result with_ip : pyval) (ip : string) :
  ensure_ip raw_result ip = Ok with_ip -> has_ip with_ip = true.
Proof.
  unfold ensure_ip, has_ip, and_then.
  destruct raw_result as [| | |s|l|d]; simpl; try discriminate.
  - destruct (contains "ip" s) eqn:E; [|discriminate].
    intros [= <-]. simpl. exact E.
  - destruct (existsb _ l) eqn:E; [|discriminate].
    intros [= <-]. simpl. exact E.
  - destruct (dhas "ip" d) eqn:E; intros [= <-]; simpl; [exact E|].
    rewrite dhas_dset. reflexivity.
Qed.

Lemma finish_ok (resolver_name ip : string) (outcome : Res pyval) (v : pyval) :
  finish resolver_name ip outcome = Ok v ->
  exists raw_result with_ip result,
    outcome = Ok raw_result
    /\ ensure_ip raw_result ip = Ok with_ip
    /\ has_ip with_ip = true
    /\ normalize_whois_result with_ip resolver_name = Ok result
    /\ v = VDict result.
Proof.
  unfold finish. destruct outcome as [raw|e]; [|discriminate].
  destruct (ensure_ip raw ip) as [with_ip|e] eqn:Eens; [|discriminate].
  destruct (normalize_whois_result with_ip resolver_name) as [d|e] eqn:Enorm;
    [|discriminate].
  intros [= <-]. exists raw, with_ip, d.
  repeat split; try assumption. now apply (ensure_ip_has_ip raw with_ip ip).
Qed.


(** [lookup] in general: it leaves files, failure plan and log alone,
    and raises nothing but [ValueError]. *)
Lemma lookup_summary (ip : string) (timeout : option Q) (max_retries : Z)
  (r : Resolver) (w : World) :
  exists out w',
    on_instance r (BaseResolver_lookup ip timeout max_retries) w = (out, w')
    /\ files w' = files w /\ dirs w' = dirs w /\ faults w' = faults w
    /\ log w' = log w
    /\ (forall e, out = Raise e -> exn_class e = ValueError).
Proof.
  unfold on_instance, BaseResolver_lookup. unfold bind at 1, lift_res.
  unfold validate_ip.
  destruct (ip_address_ok ip).
  - destruct (Z_le_gt_dec 0 max_retries) as [Hmr|Hmr].
    + destruct (lookup_loop_spec ip timeout max_retries
                  (Z.to_nat (max_retries + 1)) 0 r w ltac:(lia) ltac:(lia))
        as (out & r' & w' & w0 & outcome & duration & delta & n & Hloop & _ & _
            & _ & Hfiles & Hdirs & Hfaults & Hlog & _ & _ & _ & _ & _ & Hout).
      rewrite Hloop. exists out, w'. cbn [snd].
      repeat (split; [first [reflexivity | assumption]|]).
      intros e ->. destruct (finish (name r) ip outcome).
      * discriminate Hout.
      * destruct Hout as [[= ->] _]. reflexivity.
    + assert (Hfuel : Z.to_nat (max_retries + 1) = 0%nat) by lia.
      rewrite Hfuel. cbn [lookup_loop].
      assert (Hcond : (0 <=? max_retries) = false) by (apply Z.leb_gt; lia).
      rewrite Hcond. exists (Ok VNone), w. cbn.
      repeat (split; [reflexivity|]). intros e. discriminate.
  - eexists. exists w. cbn. split; [reflexivity|].
    repeat (split; [reflexivity|]). intros e [= <-]. reflexivity.
Qed.

(** With a non-negative [max_retries], what a resolver returns is a
    record of the normalizer: its keys are unique and its source label is
    the resolver's name. *)
Lemma resolver_run_mergeable (self : WhoisEngine) (ip : string)
  (k : ResolverKind) (w : World) (v : pyval) :
  0 <= max_retries self ->
  fst (resolver_run self ip k w) = Ok v ->
  exists result,
    v = VDict result /\ mergeable result = true
    /\ source_text result = class_name k.
Proof.
  intros Hmr.
  unfold resolver_run, on_instance, BaseResolver_lookup.
  unfold bind at 1, lift_res, validate_ip.
  destruct (ip_address_ok ip); [|discriminate].
  destruct (lookup_loop_spec ip (timeout self) (max_retries self)
              (Z.to_nat (max_retries self + 1)) 0
              (new_resolver k (engine_rate_limit self)) w ltac:(lia) ltac:(lia))
    as (out & r' & w' & w0 & outcome & duration & delta & n & Hloop & _ & _
        & _ & _ & _ & _ & _ & _ & _ & _ & _ & _ & Hout).
  rewrite Hloop. cbn [fst]. intros ->.
  cbn [name new_resolver] in Hout.
  destruct (finish (class_name k) ip outcome) as [v'|e] eqn:Efin.
  - injection Hout as <-.
    destruct (finish_ok _ _ _ _ Efin)
      as (raw_result & with_ip & result & _ & _ & _ & Hnorm & ->).
    exists result. split; [reflexivity|].
    now apply (normalize_mergeable with_ip).
  - destruct Hout as [Hout _]. discriminate Hout.
Qed.

End LookupContract.


(** The same run, evaluated: three requests, with sleeps of 2 and 4
    seconds between them, then the error of the last request wrapped. *)
Example lookup_exhaustion_run :
  let run := @BaseResolver_lookup sample_backend "10.0.0.2" (Some 30%Q) 2
               (sample_resolver, sample_world) in
  fst run = Raise (Exn ValueError "Lookup failed: connection refused")
  /\ trace (snd (snd run))
     = [EvRequest "IPWhoisResolver" "10.0.0.2"; EvSleep 2;
        EvRequest "IPWhoisResolver" "10.0.0.2"; EvSleep 4;
        EvRequest "IPWhoisResolver" "10.0.0.2"].
Proof. vm_compute. split; reflexivity. Qed.

(** ** WhoisEngine.lookup_ip *)

(** [get] returns a value and only consumes entries of the failure plan. *)
Lemma cache_get_frame (self : CacheManager) (ip method : string) (w : World) :
  exists v w',
    CacheManager_get self ip method w = (Ok v, w')
    /\ files w' = files w /\ dirs w' = dirs w /\ clock w' = clock w
    /\ trace w' = trace w /\ log w' = log w.
Proof.
  unfold CacheManager_get. generalize (_get_cache_path self ip method).
  intros path. simpl.
  destruct w as [fs ds ck fl tr lg].
  unfold read_json, os_path_exists. unfold_monad. simpl.
  destruct (bool_decide (is_Some (fs !! path)) || bool_decide (path ∈ ds)); simpl;
    [|do 2 eexists; repeat (split; [reflexivity|]); reflexivity].
  destruct fl as [|[msg|] rest]; simpl;
    try (destruct (fs !! path) as [[data|text]|]; simpl;
         try (destruct (entry_age ck data) as [age|e]; simpl;
              [destruct (Qlt_bool (ttl self) age); simpl|])).
  all: repeat match goal with
              | |- context [ExnClass_eqb ?a ?b] => destruct (ExnClass_eqb a b)
              end; simpl.
  all: do 2 eexists; repeat (split; [reflexivity|]); reflexivity.
Qed.

Lemma note_failure_files (k : ResolverKind) (ip : string) (o : Res pyval)
  (w : World) : files (note_failure k ip o w) = files w.
Proof. destruct o; reflexivity. Qed.

Lemma note_failure_faults (k : ResolverKind) (ip : string) (o : Res pyval)
  (w : World) : faults (note_failure k ip o w) = faults w.
Proof. destruct o; reflexivity. Qed.

Section EngineContract.
Context `{Backend}.

Lemma lookup_ip_miss (self : WhoisEngine) (ip : string) (w : World) :
  truthy (cached_value self ip w) = false ->
  WhoisEngine_lookup_ip self ip w
  = lookup_uncached self ip (after_cache_check self ip w).
Proof.
  unfold WhoisEngine_lookup_ip, cached_value, after_cache_check.
  destruct (active_cache self) as [c|]; [|reflexivity].
  destruct (cache_get_frame c ip (lookup_method self) w) as (v & w' & Hget & _).
  unfold bind. rewrite Hget. cbn [fst snd]. intros ->. reflexivity.
Qed.

Lemma is_auto_method (self : WhoisEngine) :
  is_auto self = true -> lookup_method self = "auto".
Proof. unfold is_auto. apply String.eqb_eq. Qed.

(** One resolver in auto mode: it is announced and run; a success is
    appended to the results, a failure is logged and its text appended to
    the errors; the loop goes on either way. *)
Lemma try_resolver_auto (self : WhoisEngine) (ip : string) (k : ResolverKind)
  (results : list pyval) (errors : list string) (w : World) :
  is_auto self = true ->
  exists o w1,
    resolver_run self ip k (announce k ip w) = (o, w1)
    /\ files w1 = files w /\ dirs w1 = dirs w /\ faults w1 = faults w
    /\ log w1 = log (announce k ip w)
    /\ try_resolver self ip (new_resolver k (engine_rate_limit self))
         results errors w
       = (Ok (false, results ++ successes [o], errors ++ failure_texts [o]),
          note_failure k ip o w1).
Proof.
  intros Hauto.
  destruct (lookup_summary ip (timeout self) (max_retries self)
              (new_resolver k (engine_rate_limit self)) (announce k ip w))
    as (o & w1 & Hrun & Hfiles & Hdirs & Hfaults & Hlog & Hclass).
  exists o, w1. split; [exact Hrun|].
  repeat (split; [assumption|]).
  unfold try_resolver, try_except, bind, logger.
  change (add_log INFO
            ("Trying " +:+ name (new_resolver k (engine_rate_limit self))
             +:+ " for " +:+ ip) w) with (announce k ip w).
  unfold resolver_run in Hrun. rewrite Hrun.
  destruct o as [v|e]; cbn [successes failure_texts omap note_failure].
  - rewrite Hauto. cbn [negb]. unfold ret. now rewrite app_nil_r.
  - rewrite (Hclass e eq_refl). cbn [is_ValueError].
    rewrite Hauto. cbn [negb]. unfold ret, add_log.
    rewrite app_nil_r. reflexivity.
Qed.

(** The loop over the three resolvers of auto mode. *)
Lemma resolve_auto (self : WhoisEngine) (ip : string) (w : World) :
  is_auto self = true ->
  exists o1 o2 o3 w1 w2 w3,
    resolver_run self ip IPWhoisResolver (announce IPWhoisResolver ip w) = (o1, w1)
    /\ resolver_run self ip PythonWhoisResolver
         (announce PythonWhoisResolver ip (note_failure IPWhoisResolver ip o1 w1))
       = (o2, w2)
    /\ resolver_run self ip SystemWhoisResolver
         (announce SystemWhoisResolver ip (note_failure PythonWhoisResolver ip o2 w2))
       = (o3, w3)
    /\ resolve_loop self ip
         [new_resolver IPWhoisResolver (engine_rate_limit self);
          new_resolver PythonWhoisResolver (engine_rate_limit self);
          new_resolver SystemWhoisResolver (engine_rate_limit self)] [] [] w
       = (Ok (successes [o1; o2; o3], failure_texts [o1; o2; o3]),
          note_failure SystemWhoisResolver ip o3 w3)
    /\ files w3 = files w /\ faults w3 = faults w.
Proof.
  intros Hauto.
  destruct (try_resolver_auto self ip IPWhoisResolver [] [] w Hauto)
    as (o1 & w1 & Hrun1 & Hfiles1 & _ & Hfaults1 & _ & Htry1).
  destruct (try_resolver_auto self ip PythonWhoisResolver
              ([] ++ successes [o1]) ([] ++ failure_texts [o1])
              (note_failure IPWhoisResolver ip o1 w1) Hauto)
    as (o2 & w2 & Hrun2 & Hfiles2 & _ & Hfaults2 & _ & Htry2).
  destruct (try_resolver_auto self ip SystemWhoisResolver
              (([] ++ successes [o1]) ++ successes [o2])
              (([] ++ failure_texts [o1]) ++ failure_texts [o2])
              (note_failure PythonWhoisResolver ip o2 w2) Hauto)
    as (o3 & w3 & Hrun3 & Hfiles3 & _ & Hfaults3 & _ & Htry3).
  exists o1, o2, o3, w1, w2, w3.
  split; [exact Hrun1|]. split; [exact Hrun2|]. split; [exact Hrun3|].
  split.
  - cbn [resolve_loop]. unfold bind at 1. rewrite Htry1.
    unfold bind at 1. rewrite Htry2.
    unfold bind at 1. rewrite Htry3. unfold ret.
    destruct o1, o2, o3; reflexivity.
  - split.
    + now rewrite Hfiles3, note_failure_files, Hfiles2, note_failure_files.
    + now rewrite Hfaults3, note_failure_faults, Hfaults2, note_failure_faults.
Qed.

End EngineContract.

Lemma cache_set_returns (self : CacheManager) (ip method : string)
  (result : pyval) (w : World) :
  exists ok w', CacheManager_set self ip method result w = (Ok ok, w').
Proof.
  assert (Hcases : result = VNone \/ result <> VNone)
    by (destruct result; (now left) || (right; discriminate)).
  destruct Hcases as [->|Hres].
  - exists false, w. reflexivity.
  - destruct (cache_set_steps self ip method result w Hres) as (w' & Hrun & _).
    eauto.
Qed.

Section EngineTheorems.
Context `{Backend}.

(** The end of [lookup_ip]: the cache write cannot fail the lookup. *)
Lemma store_and_return (self : WhoisEngine) (ip : string) (final : pyval)
  (w : World) :
  fst (((match active_cache self with
         | Some c => CacheManager_set c ip (lookup_method self) final ;;; ret tt
         | None => ret tt
         end) ;;; ret final) w) = Ok final.
Proof.
  destruct (active_cache self) as [c|]; [|reflexivity].
  destruct (cache_set_returns c ip (lookup_method self) final w)
    as (ok & w' & Hset).
  unfold bind. rewrite Hset. reflexivity.
Qed.

Lemma lookup_uncached_auto (self : WhoisEngine) (ip : string) (w : World) :
  is_auto self = true ->
  let w0 := add_log DEBUG ("Cache miss for " +:+ ip +:+ ", looking it up") w in
  exists o1 o2 o3 w1 w2 w3,
    resolver_run self ip IPWhoisResolver (announce IPWhoisResolver ip w0) = (o1, w1)
    /\ resolver_run self ip PythonWhoisResolver
         (announce PythonWhoisResolver ip (note_failure IPWhoisResolver ip o1 w1))
       = (o2, w2)
    /\ resolver_run self ip SystemWhoisResolver
         (announce SystemWhoisResolver ip (note_failure PythonWhoisResolver ip o2 w2))
       = (o3, w3)
    /\ match successes [o1; o2; o3] with
       | [] =>
           lookup_uncached self ip w
           = (Raise (Exn ValueError ("All lookup methods failed for " +:+ ip)),
              add_log ERROR
                ("No joy for " +:+ ip +:+ " - all methods failed: "
                 +:+ join "; " (failure_texts [o1; o2; o3]))
                (note_failure SystemWhoisResolver ip o3 w3))
       | [only] => fst (lookup_uncached self ip w) = Ok only
       | results => fst (lookup_uncached self ip w) = merge_whois_results results
       end.
Proof.
  intros Hauto w0.
  destruct (resolve_auto self ip w0 Hauto)
    as (o1 & o2 & o3 & w1 & w2 & w3 & Hrun1 & Hrun2 & Hrun3 & Hloop & _ & _).
  exists o1, o2, o3, w1, w2, w3.
  split; [exact Hrun1|]. split; [exact Hrun2|]. split; [exact Hrun3|].
  destruct (successes [o1; o2; o3]) as [|first [|second others]] eqn:Esucc.
  all: unfold lookup_uncached.
  all: unfold bind at 1; unfold logger at 1; fold w0.
  all: rewrite (is_auto_method self Hauto).
  all: unfold bind at 1; unfold lift_res at 1.
  all: change (get_resolver_by_method "auto" (engine_rate_limit self))
         with (Ok (Several [new_resolver IPWhoisResolver (engine_rate_limit self);
                            new_resolver PythonWhoisResolver (engine_rate_limit self);
                            new_resolver SystemWhoisResolver (engine_rate_limit self)])).
  all: cbv iota beta.
  all: unfold bind at 1; rewrite Hloop.
  - reflexivity.
  - rewrite <- (is_auto_method self Hauto).
    unfold bind at 1. unfold ret at 1.
    apply store_and_return.
  - rewrite <- (is_auto_method self Hauto).
    unfold bind at 1. unfold bind at 1. unfold logger at 1.
    unfold lift_res at 1.
    destruct (merge_whois_results (first :: second :: others)) as [merged|e].
    + apply store_and_return.
    + reflexivity.
Qed.



End EngineTheorems.

Section EngineSamples.
Context `{Backend}.

(** A resolver whose every request fails has a failing [lookup]. *)
Lemma resolver_run_fails (self : WhoisEngine) (ip : string) (k : ResolverKind)
  (w : World) :
  0 <= max_retries self ->
  (forall w0, is_ok (fst (perform_lookup k ip (timeout self) w0)) = false) ->
  is_ok (fst (resolver_run self ip k w)) = false.
Proof.
  intros Hmr Hfail.
  unfold resolver_run, on_instance, BaseResolver_lookup.
  unfold bind at 1, lift_res, validate_ip.
  destruct (ip_address_ok ip); [|reflexivity].
  destruct (lookup_loop_spec ip (timeout self) (max_retries self)
              (Z.to_nat (max_retries self + 1)) 0
              (new_resolver k (engine_rate_limit self)) w ltac:(lia) ltac:(lia))
    as (out & r' & w' & w0 & outcome & duration & delta & n & Hloop & _ & _
        & _ & _ & _ & _ & _ & _ & _ & _ & Hperf & _ & Hout).
  rewrite Hloop. cbn [fst].
  specialize (Hfail w0). cbn [kind new_resolver] in Hperf.
  rewrite Hperf in Hfail. cbn [fst] in Hfail.
  destruct outcome as [raw|e]; [discriminate Hfail|].
  cbn [finish] in Hout. destruct Hout as [-> _]. reflexivity.
Qed.

End EngineSamples.


(** The same run, evaluated: two resolvers succeed and the record
    returned carries both source labels; the country is the registry's
    (the earlier record wins), the registration date is filled in from
    the [whois] output. *)
Example auto_mode_run :
  match fst (@WhoisEngine_lookup_ip sample_backend caching_engine "8.8.8.8"
               sample_world) with
  | Ok (VDict merged) =>
      dget "source" merged = VStr "IPWhoisResolver, SystemWhoisResolver"
      /\ dget "network" merged = VStr "8.8.8.0/24"
      /\ dget "country" merged = VStr "US"
      /\ dget "registered" merged = VStr "1992-12-01"
  | _ => False
  end.
Proof. vm_compute. repeat split; reflexivity. Qed.



(** ** WhoisEngine.process_ips *)

Lemma successes_app (a b : list (Res pyval)) :
  successes (a ++ b) = successes a ++ successes b.
Proof.
  induction a as [|[v|e] a IH]; simpl; [reflexivity | now rewrite IH | exact IH].
Qed.

(** The collecting loop: one outcome per identity, in order; successes
    go to [results], failures to [errors]; no failure stops the loop. *)
Lemma collect_spec (lookup_ip : string -> M World pyval) (failure_text : string)
  (ips : list string) :
  forall (results : list pyval) (errors : list (string * string)) (w : World),
  exists outcomes w',
    collect lookup_ip failure_text ips results errors w
    = (Ok (results ++ successes outcomes, errors ++ failures ips outcomes), w')
    /\ Forall2 (fun ip o => exists w1, fst (lookup_ip ip w1) = o) ips outcomes.
Proof.
  induction ips as [|ip ips IH]; intros results errors w.
  - exists [], w. simpl. rewrite !app_nil_r. split; [reflexivity | constructor].
  - cbn [collect]. unfold bind at 1. unfold try_except at 1. unfold bind at 1.
    destruct (lookup_ip ip w) as [[v|e] w1] eqn:Elook.
    + unfold ret at 1.
      destruct (IH (results ++ [v]) errors w1) as (outcomes & w' & Hrun & Hall).
      exists (Ok v :: outcomes), w'. split.
      * rewrite Hrun. cbn [successes failures]. now rewrite <- app_assoc.
      * constructor; [|exact Hall]. exists w. now rewrite Elook.
    + unfold bind at 1. unfold logger at 1. unfold ret at 1.
      destruct (IH results (errors ++ [(ip, exn_str e)])
                  (add_log ERROR (failure_text +:+ ip +:+ ": " +:+ exn_str e) w1))
        as (outcomes & w' & Hrun & Hall).
      exists (Raise e :: outcomes), w'. split.
      * rewrite Hrun. cbn [successes failures]. now rewrite <- app_assoc.
      * constructor; [|exact Hall]. exists w. now rewrite Elook.
Qed.

Lemma log_summary_returns (results : list pyval)
  (errors : list (string * string)) (w : World) :
  exists w', log_summary results errors w = (Ok tt, w').
Proof.
  unfold log_summary, bind, logger, ret.
  destruct results; destruct errors as [|e1 errors]; simpl;
    try (destruct (length errors =? 0)%nat);
    try (destruct (length errors <=? 2)%nat); eauto.
Qed.

Lemma lookup_in_order {A} (pre l : list A) :
  omap (fun i => (pre ++ l) !! i) (seq (length pre) (length l)) = l.
Proof.
  revert pre. induction l as [|x l IH]; intros pre; [reflexivity|].
  simpl.
  rewrite list_lookup_middle by reflexivity.
  f_equal.
  replace (pre ++ x :: l) with ((pre ++ [x]) ++ l) by now rewrite <- app_assoc.
  replace (S (length pre)) with (length (pre ++ [x]))
    by (rewrite length_app; simpl; lia).
  apply IH.
Qed.

(** Taking the elements of a list in the order of a permutation of its
    indices gives a permutation of the list. *)
Lemma completion_order (l : list string) (completion : list nat) :
  Permutation completion (seq 0 (length l)) ->
  Permutation (omap (fun i => l !! i) completion) l.
Proof.
  intros Hperm. rewrite Hperm.
  pose proof (lookup_in_order [] l) as Hid. simpl in Hid.
  now rewrite Hid.
Qed.



(** The sample batch, evaluated in both modes: two records are
    returned, and the failure of 10.0.0.2 is in the internal list. *)
Example batch_isolation_run :
  let lookup := @WhoisEngine_lookup_ip sample_backend sample_engine in
  (match fst (process_ips_collect lookup sample_ips true 8 [2; 0; 1]%nat
                sample_world) with
   | Ok (results, errors) =>
       map record_ip results = [VStr "2001:4860:4860::8888"; VStr "8.8.8.8"]
       /\ errors = [("10.0.0.2", "All lookup methods failed for 10.0.0.2")]
   | Raise _ => False
   end)
  /\ (match fst (process_ips_collect lookup sample_ips false 8 [] sample_world) with
      | Ok (results, errors) =>
          map record_ip results = [VStr "8.8.8.8"; VStr "2001:4860:4860::8888"]
          /\ errors = [("10.0.0.2", "All lookup methods failed for 10.0.0.2")]
      | Raise _ => False
      end).
Proof. vm_compute. repeat split; reflexivity. Qed.


(** ** Samples for the cache *)

Lemma cache_set_contract_witness :
  exists ok w',
    CacheManager_set sample_cache "8.8.8.8" "auto" (VDict sample_primary)
      sample_world = (Ok ok, w')
    /\ ok = true
    /\ files w' !! "/var/cache/whois/8.8.8.8_auto.json"
       = Some (JsonDoc (VDict [("timestamp", VNum (clock sample_world));
                               ("result", VDict sample_primary)]))
    /\ files w' !! "/var/cache/whois/8.8.8.8_auto.json.tmp" = None.
Proof.
  destruct (cache_set_contract sample_cache "8.8.8.8" "auto"
              (VDict sample_primary) sample_world)
    as (ok & w' & Hrun & _ & Hok & Htrue & _).
  exists ok, w'. split; [exact Hrun|].
  assert (Hyes : ok = true) by (rewrite Hok; [reflexivity | discriminate]).
  split; [exact Hyes|].
  destruct (Htrue Hyes) as [Hfiles _]. rewrite Hfiles.
  split.
  - apply lookup_insert_eq.
  - rewrite lookup_insert_ne by (vm_compute; discriminate).
    apply lookup_delete_eq.
Defined.

(** Against C6 as stated: [set] stores an empty record and returns
    true. *)
Lemma cache_set_stores_empty_record :
  let run := CacheManager_set sample_cache "8.8.8.8" "auto" (VDict [])
               sample_world in
  truthy (VDict []) = false
  /\ fst run = Ok true
  /\ files (snd run) !! "/var/cache/whois/8.8.8.8_auto.json"
     = Some (JsonDoc (VDict [("timestamp", VNum (clock sample_world));
                             ("result", VDict [])]))
  /\ trace (snd run)
     = [EvWrite "/var/cache/whois/8.8.8.8_auto.json.tmp";
        EvReplace "/var/cache/whois/8.8.8.8_auto.json.tmp"
          "/var/cache/whois/8.8.8.8_auto.json"].
Proof. vm_compute. repeat split; reflexivity. Qed.


(** The cleaning pass on the stocked cache, evaluated: the stale entry
    and the undecodable file go, the fresh entry and the foreign file
    stay. *)
Example clean_expired_run :
  let run := CacheManager_clean_expired sample_cache stocked_world in
  fst run = Ok 2%nat
  /\ files (snd run) !! "/var/cache/whois/1.1.1.1_auto.json" = None
  /\ files (snd run) !! "/var/cache/whois/9.9.9.9_auto.json" = None
  /\ is_Some (files (snd run) !! "/var/cache/whois/8.8.8.8_auto.json")
  /\ is_Some (files (snd run) !! "/var/cache/whois/README").
Proof. vm_compute. repeat split; eauto. Qed.

(** A fresh entry is served from the cache. *)
Example cache_hit_run :
  fst (@WhoisEngine_lookup_ip sample_backend caching_engine "8.8.8.8" stocked_world)
  = Ok (VDict sample_primary)
  /\ trace (snd (@WhoisEngine_lookup_ip sample_backend caching_engine "8.8.8.8"
                   stocked_world)) = [].
Proof. vm_compute. split; reflexivity. Qed.

(** ** _get_cache_path *)

(** C9, where the code departs from it. Two distinct identities that
    [ipaddress.ip_address] accepts, IPv6 literals whose zone identifiers
    differ in a colon against an underscore, are given the same cache
    path under the same method: the replacement of [':'] by ['_'] is not
    lossless on them. *)
Theorem cache_path_zone_collision (self : CacheManager) :
  is_valid_ip "fe80::1%a:b" = true
  /\ is_valid_ip "fe80::1%a_b" = true
  /\ "fe80::1%a:b" <> "fe80::1%a_b"
  /\ _get_cache_path self "fe80::1%a:b" "auto"
     = _get_cache_path self "fe80::1%a_b" "auto".
Proof.
  split; [vm_compute; reflexivity|].
  split; [vm_compute; reflexivity|].
  split; [discriminate|].
  unfold _get_cache_path. f_equal.
Qed.

(** Where the key derivation does what C9 asks: on identities made of
    the characters of zone-less IP literals and the four method labels,
    the file name is made of portable characters and the path determines
    identity and method. *)

Lemma escape_char_safe (c : ascii) :
  is_plain_ip_char c = true ->
  is_safe_char (if Ascii.eqb c ":"%char then "_"%char else c) = true.
Proof.
  destruct c as [b0 b1 b2 b3 b4 b5 b6 b7].
  destruct b0, b1, b2, b3, b4, b5, b6, b7; vm_compute; congruence.
Qed.

Lemma escape_char_inj (c1 c2 : ascii) :
  is_plain_ip_char c1 = true -> is_plain_ip_char c2 = true ->
  (if Ascii.eqb c1 ":"%char then "_"%char else c1)
  = (if Ascii.eqb c2 ":"%char then "_"%char else c2) ->
  c1 = c2.
Proof.
  intros H1 H2.
  destruct (Ascii.eqb c1 ":"%char) eqn:E1; destruct (Ascii.eqb c2 ":"%char) eqn:E2.
  - apply Ascii.eqb_eq in E1, E2. congruence.
  - intros <-. discriminate H2.
  - intros ->. discriminate H1.
  - trivial.
Qed.

Lemma escape_inj (l1 l2 : list ascii) :
  forallb is_plain_ip_char l1 = true -> forallb is_plain_ip_char l2 = true ->
  map (fun c => if Ascii.eqb c ":"%char then "_"%char else c) l1
  = map (fun c => if Ascii.eqb c ":"%char then "_"%char else c) l2 ->
  l1 = l2.
Proof.
  revert l2. induction l1 as [|c1 l1 IH]; intros [|c2 l2] H1 H2 E;
    simpl in *; try discriminate; [reflexivity|].
  apply andb_true_iff in H1 as [Hc1 H1].
  apply andb_true_iff in H2 as [Hc2 H2].
  injection E as Ec El.
  f_equal; [now apply escape_char_inj | now apply IH].
Qed.

Lemma method_label_cases (method : string) :
  is_method_label method = true ->
  method = "auto" \/ method = "ipwhois" \/ method = "pythonwhois"
  \/ method = "system".
Proof.
  unfold is_method_label. simpl. intros H.
  repeat (apply orb_true_iff in H as [H|H];
          [apply String.eqb_eq in H; tauto|]).
  discriminate H.
Qed.

Lemma cache_file_name_chars (ip method : string) :
  chars (cache_file_name ip method)
  = map (fun c => if Ascii.eqb c ":"%char then "_"%char else c) (chars ip)
    ++ chars "_" ++ chars method ++ chars ".json".
Proof.
  unfold cache_file_name, replace_char.
  now rewrite !chars_app, chars_str.
Qed.

Lemma cache_file_name_safe (ip method : string) :
  plain_literal ip = true -> is_method_label method = true ->
  forallb is_safe_char (chars (cache_file_name ip method)) = true.
Proof.
  intros Hip Hm. rewrite cache_file_name_chars, !forallb_app.
  apply andb_true_iff; split; [|apply andb_true_iff; split;
                                [|apply andb_true_iff; split]].
  - unfold plain_literal in Hip.
    induction (chars ip) as [|c l IH]; simpl in *; [reflexivity|].
    apply andb_true_iff in Hip as [Hc Hl].
    now rewrite escape_char_safe, IH.
  - reflexivity.
  - destruct (method_label_cases method Hm) as [ -> | [ -> | [ -> | -> ] ] ]; reflexivity.
  - reflexivity.
Qed.

Lemma safe_no_slash (l : list ascii) :
  forallb is_safe_char l = true -> has_char "/"%char l = false.
Proof.
  unfold has_char.
  induction l as [|c l IH]; [reflexivity|].
  cbn [forallb existsb].
  intros H. apply andb_true_iff in H as [Hc Hl].
  rewrite (IH Hl), orb_false_r.
  destruct (Ascii.eqb "/"%char c) eqn:E; [|reflexivity].
  apply Ascii.eqb_eq in E. subst c. discriminate Hc.
Qed.

Lemma os_path_join_inj (d a b : string) :
  startswith "/" a = false -> startswith "/" b = false ->
  os_path_join d a = os_path_join d b -> a = b.
Proof.
  unfold os_path_join. intros -> ->.
  destruct (String.eqb d "" || endswith "/" d); intros E;
    apply (f_equal chars) in E; rewrite !chars_app in E;
    repeat apply app_inv_head in E; now apply chars_inj.
Qed.

Lemma cache_file_name_inj (ip1 m1 ip2 m2 : string) :
  plain_literal ip1 = true -> plain_literal ip2 = true ->
  is_method_label m1 = true -> is_method_label m2 = true ->
  cache_file_name ip1 m1 = cache_file_name ip2 m2 ->
  ip1 = ip2 /\ m1 = m2.
Proof.
  intros Hip1 Hip2 Hm1 Hm2 E.
  apply (f_equal chars) in E. rewrite !cache_file_name_chars in E.
  apply (f_equal (@rev ascii)) in E.
  rewrite !rev_app_distr in E.
  assert (Hescaped :
    map (fun c => if Ascii.eqb c ":"%char then "_"%char else c) (chars ip1)
    = map (fun c => if Ascii.eqb c ":"%char then "_"%char else c) (chars ip2)
    /\ m1 = m2).
  { destruct (method_label_cases m1 Hm1) as [ -> | [ -> | [ -> | -> ] ] ];
      destruct (method_label_cases m2 Hm2) as [ -> | [ -> | [ -> | -> ] ] ];
      simpl in E; try discriminate E; (split; [|reflexivity]);
      repeat (injection E as E); now apply rev_inj in E. }
  destruct Hescaped as [Hesc ->]. split; [|reflexivity].
  apply chars_inj. now apply escape_inj.
Qed.

(** On zone-less literals and the method labels, distinct pairs get
    distinct paths, made of portable characters. *)
Lemma cache_path_injective_plain (self : CacheManager) (ip1 m1 ip2 m2 : string) :
  plain_literal ip1 = true -> plain_literal ip2 = true ->
  is_method_label m1 = true -> is_method_label m2 = true ->
  (forallb is_safe_char (chars (cache_file_name ip1 m1)) = true)
  /\ (_get_cache_path self ip1 m1 = _get_cache_path self ip2 m2 ->
      ip1 = ip2 /\ m1 = m2).
Proof.
  intros Hip1 Hip2 Hm1 Hm2.
  split; [now apply cache_file_name_safe|].
  change (_get_cache_path self ip1 m1)
    with (os_path_join (cache_dir self) (cache_file_name ip1 m1)).
  change (_get_cache_path self ip2 m2)
    with (os_path_join (cache_dir self) (cache_file_name ip2 m2)).
  intros E. apply os_path_join_inj in E.
  - now apply cache_file_name_inj.
  - rewrite <- (str_chars (cache_file_name ip1 m1)).
    apply startswith_slash, safe_no_slash. now apply cache_file_name_safe.
  - rewrite <- (str_chars (cache_file_name ip2 m2)).
    apply startswith_slash, safe_no_slash. now apply cache_file_name_safe.
Qed.

(** ** The normalizer: keys, totality, identity *)

Lemma dkeys_dset_present (k : string) (v : pyval) (d : dict) :
  dhas k d = true -> dkeys (dset k v d) = dkeys d.
Proof.
  unfold dkeys. induction d as [|[k' v'] d IH]; simpl; [discriminate|].
  destruct (String.eqb k k') eqn:E; [reflexivity|].
  intros Hk. simpl. now rewrite IH.
Qed.

Lemma dhas_dkeys (k : string) (d : dict) :
  dhas k d = existsb (String.eqb k) (dkeys d).
Proof.
  unfold dkeys. induction d as [|[k' v'] d IH]; simpl; [reflexivity|].
  destruct (String.eqb k k'); [reflexivity | exact IH].
Qed.

Section NormalizerSchema.
Context `{Backend}.

Lemma same_keys_dset (key : string) (v : pyval) (result : dict) :
  existsb (String.eqb key) record_keys = true ->
  same_keys result -> same_keys (dset key v result).
Proof.
  unfold same_keys. intros Hk Hd.
  rewrite dkeys_dset_present; [exact Hd|].
  now rewrite dhas_dkeys, Hd.
Qed.

Lemma first_description_assigns (nets : list pyval) (result result' : dict) :
  first_description nets result = Ok result' ->
  result' = result \/ exists v, result' = dset "organization" v result.
Proof.
  induction nets as [|net nets IH]; cbn [first_description]; intros E.
  - injection E as <-. now left.
  - destruct (py_in "description" net) as [[|]|e]; cbn [and_then] in E;
      try discriminate E.
    + destruct (py_getitem "description" net); cbn [and_then] in E;
        [|discriminate E].
      injection E as <-. right. eauto.
    + now apply IH.
Qed.

End NormalizerSchema.

Ltac inv_step P_dset :=
  match goal with
  | E : and_then ?r _ = Ok _ |- _ =>
      destruct r; cbn [and_then] in E; [|discriminate E]
  | E : (if ?b then _ else _) = Ok _ |- _ => destruct b
  | E : match ?v with VNone => _ | _ => _ end = Ok _ |- _ => destruct v
  | E : match ?l with [] => _ | _ => _ end = Ok _ |- _ => destruct l
  | E : Ok _ = Ok _ |- _ => injection E as <-
  | E : first_description _ _ = Ok _ |- _ =>
      apply first_description_assigns in E as [->|[? ->]]
  | |- _ => apply P_dset; [reflexivity|]
  end.

(** One binding of the normalizer: a test or a lookup is split into its
    outcomes; a stage that yields the next record is cut out and shown to
    keep the invariant [P]. *)
Ltac cut_inv E P P_dset :=
  lazymatch type of E with
  | and_then ?r _ = _ =>
      lazymatch type of r with
      | Res (list _) =>
          let r' := fresh "r" in
          let E' := fresh "E" in
          let HP' := fresh "HP" in
          destruct r as [r'|] eqn:E'; cbn [and_then] in E; [|discriminate E];
          assert (HP' : P r')
            by (clear E; repeat (inv_step P_dset); assumption);
          clear E'
      | _ => destruct r; cbn [and_then] in E; [|discriminate E]
      end
  end.

Section NormalizerSchemaTheorem.
Context `{Backend}.

(** X1. A record that [normalize_whois_result] returns has exactly the
    nine keys ip, network, asn, organization, country, city, registered,
    source and raw, in this order, whatever the raw data hold; its
    [source] is the source it was given and its [raw] is the raw data it
    was given. *)
Theorem normalize_schema (raw_result : pyval) (source : string) (result : dict) :
  normalize_whois_result raw_result source = Ok result ->
  dkeys result = record_keys
  /\ dget "source" result = VStr source
  /\ dget "raw" result = raw_result.
Proof.
  intros E.
  destruct (normalize_labelled raw_result source result E) as (_ & Hs & Hr).
  split; [|split; unfold dget, dget_default; [now rewrite Hs | now rewrite Hr]].
  revert E. unfold normalize_whois_result.
  set (initial := [("ip", VNone); ("network", VNone); ("asn", VNone);
                   ("organization", VNone); ("country", VNone); ("city", VNone);
                   ("registered", VNone); ("source", VStr source);
                   ("raw", raw_result)]).
  assert (H0 : same_keys initial) by reflexivity.
  clearbody initial. intros E.
  repeat (cut_inv E same_keys same_keys_dset).
  injection E as <-. assumption.
Qed.

End NormalizerSchemaTheorem.

Lemma and_then_ok {A B} (r : Res A) (k : A -> Res B) :
  is_ok r = true ->
  (forall a, r = Ok a -> is_ok (k a) = true) ->
  is_ok (and_then r k) = true.
Proof. destruct r as [a|e]; [|discriminate]. intros _ Hk. now apply Hk. Qed.

Lemma py_getitem_present (key : string) (d : dict) :
  dhas key d = true -> exists v, py_getitem key (VDict d) = Ok v.
Proof.
  intros Hk. unfold py_getitem.
  destruct (dlookup key d) as [v|] eqn:E; [eauto|].
  apply dhas_dlookup in E. congruence.
Qed.

Section NormalizerTotal.
Context `{Backend}.

Lemma first_description_dicts (nets : list pyval) (result : dict) :
  forallb is_dict nets = true ->
  is_ok (first_description nets result) = true.
Proof.
  induction nets as [|net nets IH]; cbn [first_description forallb];
    [reflexivity|].
  intros Hn. apply andb_true_iff in Hn as [Hd Hn].
  destruct net as [| | | | |d]; try discriminate Hd.
  cbn [py_in and_then]. destruct (dhas "description" d) eqn:E.
  - destruct (py_getitem_present _ _ E) as [v ->]. reflexivity.
  - now apply IH.
Qed.

Ltac probe :=
  repeat match goal with
  | |- context [py_in ?k (VDict ?d)] =>
      change (py_in k (VDict d)) with (Ok (dhas k d)); cbn [and_then]
  end.

Ltac fetch :=
  match goal with
  | Hk : dhas ?k ?d = true |- context [py_getitem ?k (VDict ?d)] =>
      let v := fresh "v" in
      let Hv := fresh "Hv" in
      destruct (py_getitem_present k d Hk) as [v Hv]; rewrite Hv;
      cbn [and_then]
  end.

Ltac stage_ok :=
  probe;
  repeat match goal with
  | |- is_ok (Ok _) = true => reflexivity
  | |- is_ok (if dhas ?k ?d then _ else _) = true =>
      let Hk := fresh "Hk" in destruct (dhas k d) eqn:Hk
  | |- _ => fetch
  end.

(** X2. On a raw dictionary whose ['nets'] entry, if it is a list, holds
    dictionaries only, [normalize_whois_result] raises nothing: it
    returns a record. *)
Theorem normalize_total_on_dicts (raw : dict) (source : string) :
  nets_are_dicts raw = true ->
  exists result, normalize_whois_result (VDict raw) source = Ok result.
Proof.
  intros Hnets.
  assert (Hok : is_ok (normalize_whois_result (VDict raw) source) = true).
  2: { destruct (normalize_whois_result (VDict raw) source) as [result|e];
       [eauto | discriminate Hok]. }
  unfold normalize_whois_result. probe.
  (* ip *)
  apply and_then_ok; [stage_ok|]. intros result1 _.
  (* network *)
  apply and_then_ok; [stage_ok|]. intros network _.
  apply and_then_ok.
  { destruct (dhas "network" raw && is_dict network) eqn:Hn.
    - apply andb_true_iff in Hn as [_ Hd].
      destruct network as [| | | | |nd]; try discriminate Hd.
      stage_ok.
      destruct (dhas "start_address" nd) eqn:Hs; cbn [and_then andb].
      + destruct (dhas "end_address" nd) eqn:He; [|reflexivity].
        do 2 fetch. reflexivity.
      + reflexivity.
    - stage_ok. }
  intros result2 _.
  (* asn *)
  apply and_then_ok; [stage_ok|]. intros result3 _.
  (* organization *)
  apply and_then_ok.
  { destruct (dhas "org" raw) eqn:Horg; [stage_ok|].
    destruct (dhas "organization" raw) eqn:Horganization; [stage_ok|].
    unfold nets_are_dicts in Hnets.
    destruct (dhas "nets" raw) eqn:Hhas.
    - fetch. unfold py_getitem in Hv.
      destruct (dlookup "nets" raw) as [nv|]; [|discriminate Hv].
      injection Hv as ->.
      destruct v as [| | | |[|net rest]|]; try reflexivity.
      now apply first_description_dicts.
    - reflexivity. }
  intros result4 _.
  (* country, city, registered *)
  apply and_then_ok; [stage_ok|]. intros result5 _.
  apply and_then_ok; [stage_ok|]. intros result6 _.
  apply and_then_ok; [stage_ok|]. intros result7 _.
  reflexivity.
Qed.

End NormalizerTotal.

Lemma keeps_ip_dset (x : pyval) (key : string) (v : pyval) (result : dict) :
  String.eqb key "ip" = false ->
  keeps_ip x result -> keeps_ip x (dset key v result).
Proof.
  unfold keeps_ip. intros Hk Hx. apply eqb_string_false in Hk.
  rewrite dlookup_dset_ne by congruence. exact Hx.
Qed.

Section LookupIdentity.
Context `{Backend}.

Lemma normalize_ip_of_dict (d : dict) (x : pyval) (source : string)
  (result : dict) :
  dlookup "ip" d = Some x ->
  normalize_whois_result (VDict d) source = Ok result ->
  keeps_ip x result.
Proof.
  intros Hx. unfold normalize_whois_result.
  assert (Hhas : dhas "ip" d = true).
  { destruct (dhas "ip" d) eqn:E; [reflexivity|].
    apply dhas_dlookup in E. congruence. }
  change (py_in "ip" (VDict d)) with (Ok (dhas "ip" d)).
  rewrite Hhas. cbn [and_then].
  unfold py_getitem at 1. rewrite Hx. cbn [and_then].
  match goal with
  | |- context [dset "ip" x ?init] => set (first := dset "ip" x init)
  end.
  assert (H0 : keeps_ip x first) by (unfold keeps_ip; apply dlookup_dset_eq).
  clearbody first. intros E.
  repeat (cut_inv E (keeps_ip x) (keeps_ip_dset x)).
  injection E as <-. assumption.
Qed.

(** X3. An attempt of [lookup] succeeds only on raw data that are a
    dictionary, and the identity of the record it returns is the raw
    data's ['ip'] if they have one, and the identity that was asked for
    otherwise (the identity is added to the raw data before they are
    normalized, so that the key ['query'] is not consulted then). *)
Theorem lookup_record_ip (resolver_name ip : string) (raw_result v : pyval) :
  finish resolver_name ip (Ok raw_result) = Ok v ->
  exists raw result,
    raw_result = VDict raw
    /\ v = VDict result
    /\ dget "ip" result
       = match dlookup "ip" raw with Some x => x | None => VStr ip end.
Proof.
  unfold finish, ensure_ip.
  destruct raw_result as [| | |s|l|raw]; cbn [py_in and_then];
    try discriminate.
  - (* a string *)
    destruct (contains "ip" s) eqn:Es; cbn [py_setitem]; [|cbn; discriminate].
    unfold normalize_whois_result. cbn [py_in and_then]. rewrite Es.
    cbn [py_getitem and_then]. discriminate.
  - (* a list *)
    destruct (existsb _ l) eqn:El; cbn [py_setitem]; [|cbn; discriminate].
    unfold normalize_whois_result. cbn [py_in and_then]. rewrite El.
    cbn [py_getitem and_then]. discriminate.
  - (* a dictionary *)
    destruct (dhas "ip" raw) eqn:Hhas; cbn [py_setitem].
    + destruct (normalize_whois_result (VDict raw) resolver_name)
        as [result|e] eqn:E; [|discriminate].
      intros [= <-]. exists raw, result. split; [reflexivity|].
      split; [reflexivity|].
      destruct (dlookup "ip" raw) as [x|] eqn:Hx.
      * pose proof (normalize_ip_of_dict raw x resolver_name result Hx E) as K.
        unfold keeps_ip in K. unfold dget, dget_default. now rewrite K.
      * apply dhas_dlookup in Hx. congruence.
    + destruct (normalize_whois_result (VDict (dset "ip" (VStr ip) raw))
                  resolver_name) as [result|e] eqn:E; [|discriminate].
      intros [= <-]. exists raw, result. split; [reflexivity|].
      split; [reflexivity|].
      apply dhas_dlookup in Hhas. rewrite Hhas.
      pose proof (normalize_ip_of_dict _ (VStr ip) resolver_name result
                    (dlookup_dset_eq "ip" (VStr ip) raw) E) as K.
      unfold keeps_ip in K. unfold dget, dget_default. now rewrite K.
Qed.

End LookupIdentity.

(** ** extract_asn and the text extractors *)

Lemma rmatch_star (icase : bool) (r1 : regex) (l : list ascii)
  (cap : option (list ascii)) k :
  rmatch icase (RStar r1) l cap k = star_run icase r1 k (length l) l cap.
Proof. reflexivity. Qed.

Lemma rmatch_group (icase : bool) (r1 : regex) (l : list ascii)
  (cap : option (list ascii)) k :
  rmatch icase (RGroup r1) l cap k
  = rmatch icase r1 l cap
      (fun l' _ => k l' (Some (firstn (length l - length l') l))).
Proof. reflexivity. Qed.

Lemma rmatch_seq (icase : bool) (r1 r2 : regex) (l : list ascii)
  (cap : option (list ascii)) k :
  rmatch icase (RSeq r1 r2) l cap k
  = rmatch icase r1 l cap (fun l' cap' => rmatch icase r2 l' cap' k).
Proof. reflexivity. Qed.

Lemma rmatch_digit (icase : bool) (l : list ascii)
  (cap : option (list ascii)) k :
  rmatch icase re_digit l cap k
  = match l with
    | c :: l' => if is_digit c then k l' cap else None
    | [] => None
    end.
Proof. reflexivity. Qed.

Lemma star_digits_some (K : list ascii -> option (list ascii)) (fuel : nat) :
  forall (l : list ascii) (cap : option (list ascii)),
    (forall l', exists g, K l' = Some g) ->
    exists ds rest,
      l = ds ++ rest /\ forallb is_digit ds = true
      /\ star_run false re_digit (fun l' _ => K l') fuel l cap = K rest.
Proof.
  induction fuel as [|fuel IH]; intros l cap HK.
  - exists [], l. repeat split.
  - cbn [star_run]. rewrite rmatch_digit.
    destruct l as [|c l1].
    + exists [], []. repeat split.
    + destruct (is_digit c) eqn:Ec.
      * assert (Hlt : (length l1 <? length (c :: l1))%nat = true)
          by (apply Nat.ltb_lt; simpl; lia).
        rewrite Hlt.
        destruct (IH l1 cap HK) as (ds & rest & -> & Hds & Hrun).
        fold (star_run false re_digit (fun l' _ => K l')).
        rewrite Hrun. destruct (HK rest) as [g Hg]. rewrite Hg.
        exists (c :: ds), rest. split; [reflexivity|].
        split; [simpl; now rewrite Ec, Hds | now symmetry].
      * exists [], (c :: l1). repeat split.
Qed.

Lemma star_digits_all (K : list ascii -> option (list ascii)) (fuel : nat) :
  forall (l : list ascii) (cap : option (list ascii)),
    (length l <= fuel)%nat ->
    forallb is_digit l = true ->
    (exists g, K [] = Some g) ->
    star_run false re_digit (fun l' _ => K l') fuel l cap = K [].
Proof.
  induction fuel as [|fuel IH]; intros l cap Hlen Hl HK.
  - destruct l; [reflexivity | simpl in Hlen; lia].
  - cbn [star_run]. rewrite rmatch_digit.
    destruct l as [|c l1]; [reflexivity|].
    simpl in Hl. apply andb_true_iff in Hl as [Ec Hl1]. rewrite Ec.
    assert (Hlt : (length l1 <? length (c :: l1))%nat = true)
      by (apply Nat.ltb_lt; simpl; lia).
    rewrite Hlt.
    fold (star_run false re_digit (fun l' _ => K l')).
    rewrite IH by (simpl in Hlen; try lia; assumption).
    destruct HK as [g Hg]. now rewrite Hg.
Qed.

(** [(\d+)] at the end of a pattern, tried at [l]. *)
Lemma group_digits_at (l : list ascii) (g : list ascii) :
  rmatch false (RGroup (RPlus re_digit)) l None
    (fun _ cap => Some (default [] cap)) = Some g ->
  is_digits g = true /\ exists rest, l = g ++ rest.
Proof.
  unfold RPlus. rewrite rmatch_group, rmatch_seq, rmatch_digit.
  destruct l as [|c l1]; [discriminate|].
  destruct (is_digit c) eqn:Ec; [|discriminate].
  rewrite rmatch_star.
  destruct (star_digits_some
              (fun l' => Some (default [] (Some (firstn (length (c :: l1) - length l')
                                                    (c :: l1)))))
              (length l1) l1 None) as (ds & rest & -> & Hds & Hrun).
  { intros l'. eauto. }
  rewrite Hrun. cbn [default]. intros [= <-].
  change (c :: ds ++ rest) with ((c :: ds) ++ rest).
  match goal with
  | |- context [take ?n _] =>
      replace n with (length (c :: ds)) by (simpl; rewrite length_app; lia)
  end.
  rewrite take_app_length. split; [|eauto].
  unfold is_digits. simpl. now rewrite Ec, Hds.
Qed.

Lemma group_digits_whole (l : list ascii) :
  is_digits l = true ->
  rmatch false (RGroup (RPlus re_digit)) l None
    (fun _ cap => Some (default [] cap)) = Some l.
Proof.
  unfold is_digits. intros Hl. apply andb_true_iff in Hl as [Hne Hl].
  destruct l as [|c l1]; [discriminate Hne|].
  simpl in Hl. apply andb_true_iff in Hl as [Ec Hl1].
  unfold RPlus. rewrite rmatch_group, rmatch_seq, rmatch_digit, Ec.
  rewrite rmatch_star.
  rewrite (star_digits_all
             (fun l' => Some (default [] (Some (firstn (length (c :: l1) - length l')
                                                   (c :: l1))))))
    by (eauto; lia).
  cbn [default]. rewrite Nat.sub_0_r, firstn_all. reflexivity.
Qed.

Lemma rmatch_lit (icase : bool) (s : string) (l : list ascii)
  (cap : option (list ascii)) k :
  rmatch icase (RLit s) l cap k
  = match strip_lit icase (chars s) l with
    | Some l' => k l' cap
    | None => None
    end.
Proof. reflexivity. Qed.

Lemma search_digits_shape (l g : list ascii) :
  search_l false (RGroup (RPlus re_digit)) l = Some g -> is_digits g = true.
Proof.
  induction l as [|c l IH]; cbn [search_l].
  - destruct (rmatch false (RGroup (RPlus re_digit)) [] None _) eqn:E;
      [|discriminate].
    intros [= <-]. now apply group_digits_at in E as [? _].
  - destruct (rmatch false (RGroup (RPlus re_digit)) (c :: l) None _) eqn:E.
    + intros [= <-]. now apply group_digits_at in E as [? _].
    + exact IH.
Qed.

Lemma as_digits_at (l g : list ascii) :
  rmatch false (RSeq (RLit "AS") (RGroup (RPlus re_digit))) l None
    (fun _ cap => Some (default [] cap)) = Some g ->
  is_digits g = true.
Proof.
  rewrite rmatch_seq, rmatch_lit.
  destruct (strip_lit false (chars "AS") l) as [l'|]; [|discriminate].
  intros E. now apply group_digits_at in E as [? _].
Qed.

Lemma search_as_shape (l g : list ascii) :
  search_l false (RSeq (RLit "AS") (RGroup (RPlus re_digit))) l = Some g ->
  is_digits g = true.
Proof.
  induction l as [|c l IH]; cbn [search_l].
  - destruct (rmatch false _ [] None _) eqn:E; [|discriminate].
    intros [= <-]. now apply as_digits_at in E.
  - destruct (rmatch false _ (c :: l) None _) eqn:E.
    + intros [= <-]. now apply as_digits_at in E.
    + exact IH.
Qed.

Lemma digit_not_A (c : ascii) : is_digit c = true -> Ascii.eqb "A" c = false.
Proof.
  intros Hc. destruct (Ascii.eqb_spec "A"%char c) as [<-|]; [|reflexivity].
  discriminate Hc.
Qed.

Lemma search_as_none (l : list ascii) :
  forallb is_digit l = true ->
  search_l false (RSeq (RLit "AS") (RGroup (RPlus re_digit))) l = None.
Proof.
  induction l as [|c l IH]; intros Hl; cbn [search_l];
    rewrite rmatch_seq, rmatch_lit.
  - reflexivity.
  - simpl in Hl. apply andb_true_iff in Hl as [Hc Hl].
    cbn [chars list_ascii_of_string strip_lit].
    rewrite (digit_not_A c Hc). now apply IH.
Qed.

Lemma is_digits_nonempty (digits : string) :
  is_digits (chars digits) = true -> String.eqb digits "" = false.
Proof. destruct digits; [discriminate | reflexivity]. Qed.

(** X4. [extract_asn] returns [None] or a non-empty string of decimal
    digits; applied to the string it returned, it returns it again. *)
Theorem extract_asn_digits (asn_str : string) :
  extract_asn asn_str = VNone
  \/ exists digits,
       extract_asn asn_str = VStr digits
       /\ is_digits (chars digits) = true
       /\ extract_asn digits = VStr digits.
Proof.
  assert (Hfix : forall g, is_digits g = true -> extract_asn (str g) = VStr (str g)).
  { intros g Hg. unfold extract_asn.
    rewrite is_digits_nonempty by now rewrite chars_str.
    unfold re_search. rewrite chars_str.
    pose proof Hg as Hg'. unfold is_digits in Hg'.
    apply andb_true_iff in Hg' as [_ Hall].
    rewrite (search_as_none g Hall). cbn [fmap option_fmap option_map].
    destruct g as [|c g]; [discriminate Hg|].
    cbn [search_l]. rewrite (group_digits_whole (c :: g) Hg). reflexivity. }
  unfold extract_asn at 1 2.
  destruct (String.eqb asn_str ""); [now left|].
  unfold re_search.
  destruct (search_l false (RSeq (RLit "AS") (RGroup (RPlus re_digit)))
              (chars asn_str)) as [g|] eqn:E1; cbn [fmap option_fmap option_map].
  - right. exists (str g). apply search_as_shape in E1.
    split; [reflexivity|]. split; [now rewrite chars_str | now apply Hfix].
  - destruct (search_l false (RGroup (RPlus re_digit)) (chars asn_str))
      as [g|] eqn:E2; cbn [fmap option_fmap option_map]; [|now left].
    right. exists (str g). apply search_digits_shape in E2.
    split; [reflexivity|]. split; [now rewrite chars_str | now apply Hfix].
Qed.

(** X5. For a non-empty string of decimal digits [d],
    [extract_asn('AS' + d)] is [d]. *)
Theorem extract_asn_of_label (digits : string) :
  is_digits (chars digits) = true ->
  extract_asn ("AS" +:+ digits) = VStr digits.
Proof.
  intros Hd. unfold extract_asn.
  change (String.eqb ("AS" +:+ digits) "") with false. cbv iota.
  unfold re_search.
  change (chars ("AS" +:+ digits))
    with ("A"%char :: "S"%char :: chars digits).
  cbn [search_l]. rewrite rmatch_seq, rmatch_lit.
  cbn [chars list_ascii_of_string strip_lit Ascii.eqb Bool.eqb].
  fold (chars digits).
  rewrite (group_digits_whole (chars digits) Hd).
  cbn [fmap option_fmap option_map]. now rewrite str_chars.
Qed.

Lemma lstrip_starts_clean (l : list ascii) : starts_clean (lstrip_l l) = true.
Proof.
  induction l as [|c l IH]; [reflexivity|].
  cbn [lstrip_l]. destruct (is_space c) eqn:E; [exact IH|].
  cbn [starts_clean]. now rewrite E.
Qed.

Lemma lstrip_suffix (l : list ascii) : exists pre, l = pre ++ lstrip_l l.
Proof.
  induction l as [|c l [pre IH]]; [now exists []|].
  cbn [lstrip_l]. destruct (is_space c).
  - exists (c :: pre). simpl. now rewrite <- IH.
  - now exists [].
Qed.

Lemma starts_clean_rev_suffix (pre l : list ascii) :
  starts_clean (rev (pre ++ l)) = true -> l <> [] ->
  starts_clean (rev l) = true.
Proof.
  intros H Hl. rewrite rev_app_distr in H.
  destruct (rev l) as [|c r] eqn:E.
  - apply (f_equal (@rev ascii)) in E. rewrite rev_involutive in E.
    now contradiction Hl.
  - exact H.
Qed.

Lemma strip_is_stripped (s : string) : is_stripped (strip s) = true.
Proof.
  unfold is_stripped, strip. rewrite chars_str, rev_involutive.
  set (a := lstrip_l (chars s)).
  rewrite lstrip_starts_clean, andb_true_r.
  destruct (lstrip_suffix (rev a)) as [pre Hpre].
  destruct (lstrip_l (rev a)) as [|c b] eqn:Eb; [reflexivity|].
  apply (starts_clean_rev_suffix pre); [|discriminate].
  rewrite <- Hpre, rev_involutive. apply lstrip_starts_clean.
Qed.

Lemma strip_fixed (s : string) : is_stripped s = true -> strip s = s.
Proof.
  unfold is_stripped, strip. intros H.
  apply andb_true_iff in H as [H1 H2].
  assert (L : forall l, starts_clean l = true -> lstrip_l l = l).
  { intros [|c l]; [reflexivity|]. cbn [starts_clean lstrip_l].
    destruct (is_space c); [discriminate | reflexivity]. }
  rewrite (L _ H1), (L _ H2), rev_involutive. apply str_chars.
Qed.

Section Extractors.
Context `{Backend}.

Lemma probe_keys_stripped (keys : list string) (data : dict) :
  none_or_stripped (probe_keys keys data) = true.
Proof.
  induction keys as [|key keys IH]; cbn [probe_keys]; [reflexivity|].
  destruct (dlookup key data) as [v|]; [|exact IH].
  destruct (truthy v); [|exact IH].
  apply strip_is_stripped.
Qed.

(** X6. [extract_organization], [extract_country] and [extract_city]
    return [None] or a text that neither begins nor ends with
    whitespace, whatever they are given. *)
Theorem extractors_strip (data : pyval) :
  none_or_stripped (extract_organization data) = true
  /\ none_or_stripped (extract_country data) = true
  /\ none_or_stripped (extract_city data) = true.
Proof.
  unfold extract_organization, extract_country, extract_city.
  destruct (truthy data); cbn [negb]; [|repeat split].
  destruct data as [| | |s| |d]; repeat split;
    first [apply probe_keys_stripped | apply strip_is_stripped].
Qed.

End Extractors.

(** ** merge_whois_results: errors and keys *)

Lemma merge_loop_outcome (later : list pyval) :
  forall (merged : dict) (sources : list pyval),
    match merge_loop merged sources later with
    | Ok (_, sources') =>
        forallb is_dict later = true
        /\ forallb is_str sources' = forallb is_str sources
                                      && forallb has_text_source later
    | Raise e =>
        forallb is_dict later = false /\ exn_class e = AttributeError
    end.
Proof.
  induction later as [|v later IH]; intros merged sources; cbn [merge_loop].
  - split; [reflexivity|]. cbn [forallb]. now rewrite andb_true_r.
  - destruct v as [| | | | |d]; cbn [merge_later forallb is_dict andb];
      try (split; reflexivity).
    specialize (IH (merge_one merged d)
                  (sources ++ [dget_default "source" (VStr "unknown") d])).
    destruct (merge_loop _ _ later) as [[merged' sources']|e].
    + destruct IH as [Hd Hs]. split; [exact Hd|].
      rewrite Hs, forallb_app. cbn [forallb has_text_source].
      unfold source_label. rewrite andb_true_r. now rewrite andb_assoc.
    + exact IH.
Qed.

Lemma join_sources_outcome (sources : list pyval) (i : nat) :
  match join_sources_go i sources with
  | Ok _ => forallb is_str sources = true
  | Raise e => forallb is_str sources = false /\ exn_class e = TypeError
  end.
Proof.
  revert i. induction sources as [|v sources IH]; intros i;
    cbn [join_sources_go]; [reflexivity|].
  destruct v as [| | |s| |]; cbn [forallb is_str andb];
    try (split; reflexivity).
  specialize (IH (S i)).
  destruct (join_sources_go (S i) sources); exact IH.
Qed.

(** X7. [merge_whois_results] returns a dictionary exactly when every
    item of the list is a dictionary whose source label (the value of
    ['source'], 'unknown' if the key is missing) is text. Otherwise it
    raises [AttributeError] if some item is not a dictionary, and
    [TypeError] if all items are dictionaries but some source label is
    not text. *)
Theorem merge_raises_exactly (results : list pyval) :
  match merge_whois_results results with
  | Ok merged =>
      is_dict merged = true /\ forallb has_text_source results = true
  | Raise e =>
      if forallb is_dict results
      then exn_class e = TypeError /\ forallb has_text_source results = false
      else exn_class e = AttributeError
  end.
Proof.
  destruct results as [|first later]; [split; reflexivity|].
  cbn [merge_whois_results].
  destruct first as [| | | | |merged]; cbn [merge_base forallb is_dict andb];
    try reflexivity.
  pose proof (merge_loop_outcome later merged
                [dget_default "source" (VStr "unknown") merged]) as Hloop.
  destruct (merge_loop merged _ later) as [[merged' sources]|e].
  - destruct Hloop as [Hd Hs]. rewrite Hd.
    unfold join_sources.
    pose proof (join_sources_outcome sources 0) as Hjoin.
    cbn [forallb] in Hs. rewrite andb_true_r in Hs.
    fold (source_label merged) in Hs.
    cbn [has_text_source]. rewrite <- Hs.
    destruct (join_sources_go 0 sources).
    + split; [reflexivity | exact Hjoin].
    + destruct Hjoin as [Hf Hc]. split; assumption.
  - destruct Hloop as [Hd Hc]. now rewrite Hd.
Qed.

Lemma forallb_dhas_keys (a b : dict) (l : list string) :
  dkeys a = dkeys b ->
  forallb (fun key => dhas key a) l = forallb (fun key => dhas key b) l.
Proof.
  intros Hk. induction l as [|key l IH]; [reflexivity|].
  cbn [forallb]. now rewrite IH, !dhas_dkeys, Hk.
Qed.

Lemma merge_item_keys (merged : dict) (kv : string * pyval) :
  dhas (fst kv) merged = true ->
  dkeys (merge_item merged kv) = dkeys merged.
Proof.
  destruct kv as [key value]. cbn [fst]. intros Hk. unfold merge_item.
  destruct (is_source_or_raw key); [reflexivity|].
  destruct (dget key merged) as [| | |s| |]; try reflexivity.
  - now apply dkeys_dset_present.
  - destruct s; [|reflexivity].
    destruct (truthy value); [now apply dkeys_dset_present | reflexivity].
Qed.

Lemma merge_one_keys (result : dict) :
  forall merged,
    forallb (fun key => dhas key merged) (dkeys result) = true ->
    dkeys (merge_one merged result) = dkeys merged.
Proof.
  unfold merge_one.
  induction result as [|kv result IH]; intros merged Hk; [reflexivity|].
  cbn [dkeys map forallb] in Hk. apply andb_true_iff in Hk as [Hkv Hk].
  cbn [fold_left].
  pose proof (merge_item_keys merged kv Hkv) as Hkeys.
  rewrite IH; [exact Hkeys|].
  now rewrite (forallb_dhas_keys _ merged).
Qed.

Lemma merge_loop_keys (later : list dict) :
  forall (base merged : dict) (sources : list pyval) merged' sources',
    dkeys merged = dkeys base ->
    forallb (no_new_key base) later = true ->
    merge_loop merged sources (map VDict later) = Ok (merged', sources') ->
    dkeys merged' = dkeys base.
Proof.
  induction later as [|d later IH];
    intros base merged sources merged' sources' Hm Hl; cbn [map merge_loop].
  - now intros [= <- _].
  - cbn [merge_later]. cbn [forallb] in Hl.
    apply andb_true_iff in Hl as [Hd Hl].
    apply IH; [|exact Hl].
    rewrite merge_one_keys; [exact Hm|].
    unfold no_new_key in Hd. now rewrite (forallb_dhas_keys _ base).
Qed.

(** X8. If the first record has the key ['source'] and no later record
    has a key that the first one lacks, the merged record has the keys of
    the first record, in the same order. *)
Theorem merge_keeps_keys (first : dict) (later : list dict) (merged : dict) :
  dhas "source" first = true ->
  forallb (no_new_key first) later = true ->
  merge_whois_results (map VDict (first :: later)) = Ok (VDict merged) ->
  dkeys merged = dkeys first.
Proof.
  intros Hsource Hlater. cbn [map merge_whois_results merge_base].
  destruct (merge_loop first _ (map VDict later))
    as [[merged' sources]|e] eqn:Eloop; [|discriminate].
  destruct (join_sources sources) as [joined|e]; [|discriminate].
  intros [= <-].
  pose proof (merge_loop_keys later first first _ merged' sources eq_refl
                Hlater Eloop) as Hkeys.
  rewrite dkeys_dset_present; [exact Hkeys|].
  now rewrite dhas_dkeys, Hkeys, <- dhas_dkeys.
Qed.

Lemma merge_keeps_keys_witness :
  dhas "source" sample_primary = true
  /\ forallb (no_new_key sample_primary) [sample_system] = true
  /\ exists merged,
       merge_whois_results (map VDict [sample_primary; sample_system])
       = Ok (VDict merged)
       /\ dkeys merged = dkeys sample_primary.
Proof.
  split; [reflexivity|]. split; [reflexivity|].
  eexists. split; [reflexivity|].
  apply (merge_keeps_keys sample_primary [sample_system]); reflexivity.
Defined.

(** ** _parse_whois_output: the shape of the record *)

Lemma first_match_stripped (pattern_list : list regex) (line v : string) :
  first_match pattern_list line = Some v -> is_stripped v = true.
Proof.
  induction pattern_list as [|p rest IH]; cbn [first_match]; [discriminate|].
  destruct (re_search true p line); [|exact IH].
  intros [= <-]. apply strip_is_stripped.
Qed.

Lemma parsed_shape_dset (ip key text : string) (result : dict) :
  is_field key = true -> is_stripped text = true ->
  parsed_shape ip result -> parsed_shape ip (dset key (VStr text) result).
Proof.
  intros Hk Ht (Hu & Hip & Hall).
  assert (Hne : key <> "ip") by (intros ->; discriminate Hk).
  split; [now apply unique_keys_dset|].
  split; [rewrite dlookup_dset_ne by congruence; exact Hip|].
  intros key' v. destruct (String.eqb key' key) eqn:E.
  - apply eqb_string_true in E as ->. rewrite dlookup_dset_eq.
    intros [= <-]. right. eauto.
  - apply eqb_string_false in E. rewrite dlookup_dset_ne by congruence.
    apply Hall.
Qed.

Lemma parse_line_keys_shape (ip line : string)
  (table : list (string * list regex)) :
  forall result,
    forallb (fun kp => is_field (fst kp)) table = true ->
    parsed_shape ip result ->
    parsed_shape ip (parse_line_keys table line result).
Proof.
  unfold parse_line_keys.
  induction table as [|kp table IH]; intros result Ht Hr; [exact Hr|].
  cbn [forallb] in Ht. apply andb_true_iff in Ht as [Hk Ht].
  cbn [fold_left]. apply IH; [exact Ht|].
  destruct (first_match (snd kp) line) as [v|] eqn:E; [|exact Hr].
  apply parsed_shape_dset; [exact Hk | | exact Hr].
  now apply first_match_stripped in E.
Qed.

Lemma parse_lines_shape (ip : string) (lines : list string) :
  forall result,
    parsed_shape ip result ->
    parsed_shape ip (fold_left parse_line lines result).
Proof.
  induction lines as [|line lines IH]; intros result Hr; [exact Hr|].
  cbn [fold_left]. apply IH. unfold parse_line.
  destruct (skip_line (strip line)); [exact Hr|].
  now apply parse_line_keys_shape.
Qed.

Lemma parse_lines_skipped (lines : list string) (result : dict) :
  forallb (fun line => skip_line (strip line)) lines = true ->
  fold_left parse_line lines result = result.
Proof.
  induction lines as [|line lines IH]; [reflexivity|].
  cbn [forallb fold_left]. intros Hs. apply andb_true_iff in Hs as [Hl Hs].
  unfold parse_line at 2. rewrite Hl. now apply IH.
Qed.

(** X9. The record that [_parse_whois_output] builds has no key twice,
    holds the identity under ['ip'], and every other key of it is one of
    the keys of the table [patterns], with a text value that neither
    begins nor ends with whitespace. An output whose lines are all blank
    or comments gives the record [{'ip': ip}]. *)
Theorem parse_output_shape (output ip : string) :
  parsed_shape ip (_parse_whois_output output ip)
  /\ (forallb (fun line => skip_line (strip line)) (splitlines output) = true ->
      _parse_whois_output output ip = [("ip", VStr ip)]).
Proof.
  unfold _parse_whois_output. split.
  - apply parse_lines_shape. split; [reflexivity|]. split; [reflexivity|].
    intros key v. cbn [dlookup].
    destruct (String.eqb key "ip") eqn:E; [|discriminate].
    apply eqb_string_true in E. now left.
  - apply parse_lines_skipped.
Qed.

(** ** CacheManager: round trip, reading, cleaning *)

(** [get] with no failure pending: the world is left as it is. *)
Lemma cache_get_pure (self : CacheManager) (ip method : string) (w : World) :
  faults w = [] ->
  exists v, CacheManager_get self ip method w = (Ok v, w).
Proof.
  unfold CacheManager_get. generalize (_get_cache_path self ip method).
  intros path. destruct w as [fs ds ck fl tr lg]. simpl. intros ->.
  unfold read_json, os_path_exists. unfold_monad. simpl.
  destruct (bool_decide (is_Some (fs !! path)) || bool_decide (path ∈ ds)); simpl;
    [|eexists; reflexivity].
  destruct (fs !! path) as [[data|text]|]; simpl;
    try (destruct (entry_age ck data) as [age|e]; simpl;
         [destruct (Qlt_bool (ttl self) age); simpl|]).
  all: repeat match goal with
              | |- context [ExnClass_eqb ?a ?b] => destruct (ExnClass_eqb a b)
              end; simpl.
  all: eexists; reflexivity.
Qed.

(** X10. Round trip of the cache: with no I/O failure pending, [set]
    stores the record and returns [True]; in any later state with the
    same files and no failure pending, [get] for the same identity and
    method returns the stored record as long as the time elapsed since
    [set] does not exceed the ttl (an age equal to the ttl is still
    served), and [None] after that. *)
Theorem cache_round_trip (self : CacheManager) (ip method : string)
  (result : pyval) (w later : World) :
  result <> VNone ->
  faults w = [] ->
  files later = files (snd (CacheManager_set self ip method result w)) ->
  faults later = [] ->
  fst (CacheManager_set self ip method result w) = Ok true
  /\ fst (CacheManager_get self ip method later)
     = Ok (if Qlt_bool (ttl self) (clock later - clock w) then VNone else result).
Proof.
  intros Hres Hfl Hfiles Hfl2.
  destruct (cache_set_steps self ip method result w Hres)
    as (w' & Hset & Hgood & _).
  rewrite Hset in Hfiles |- *. cbn [fst snd] in Hfiles |- *.
  assert (Hclear : io_clear 3 (faults w) = true) by now rewrite Hfl.
  rewrite Hclear. split; [reflexivity|].
  destruct (Hgood Hclear) as [Hfiles' _].
  destruct (cache_get_spec self ip method later)
    as (v & w2 & Hget & _ & _ & _ & _ & Hdoc).
  rewrite Hget. cbn [fst]. f_equal.
  specialize (Hdoc (VDict [("timestamp", VNum (clock w)); ("result", result)])).
  rewrite Hfiles, Hfiles', lookup_insert_eq in Hdoc.
  specialize (Hdoc eq_refl). cbn in Hdoc.
  destruct (Qlt_bool (ttl self) (clock later - clock w)); [exact Hdoc|].
  apply Hdoc. intros msg rest. rewrite Hfl2. discriminate.
Qed.

(** X11. [get] always returns and changes neither files nor
    directories nor the clock nor the trace of side effects: a stale or
    corrupt entry is left in place. With no I/O failure pending it leaves
    the world as it is. *)
Theorem cache_get_read_only (self : CacheManager) (ip method : string)
  (w : World) :
  exists v w',
    CacheManager_get self ip method w = (Ok v, w')
    /\ files w' = files w /\ dirs w' = dirs w /\ clock w' = clock w
    /\ trace w' = trace w
    /\ (faults w = [] -> w' = w).
Proof.
  destruct (cache_get_frame self ip method w)
    as (v & w' & Hget & Hfiles & Hdirs & Hclock & Htrace & _).
  exists v, w'. repeat (split; [assumption|]).
  intros Hfl. destruct (cache_get_pure self ip method w Hfl) as [v' Hpure].
  congruence.
Qed.

(** One file of the loop of [clean_expired], whatever fails: only a
    doomed file is removed; directories and clock are left alone. *)
Lemma clean_file_effect (self : CacheManager) (now : Q) (filename : string)
  (w : World) :
  let full_path := os_path_join (cache_dir self) filename in
  exists removed w',
    clean_file self now filename w = (Ok removed, w')
    /\ dirs w' = dirs w /\ clock w' = clock w
    /\ (faults w = [] -> faults w' = [])
    /\ (if removed
        then exists data,
               files w !! full_path = Some data
               /\ doomed self now data = true
               /\ files w' = delete full_path (files w)
        else files w' = files w).
Proof.
  unfold clean_file. generalize (os_path_join (cache_dir self) filename).
  intros path. simpl.
  destruct w as [fs ds ck fl tr lg].
  unfold read_json, os_remove. unfold_monad. simpl.
  destruct (fs !! path) as [[data|text]|] eqn:Efile;
    destruct fl as [|[m1|] [|[m2|] rest]]; simpl; rewrite ?Efile; simpl.
  all: try (destruct (entry_age now data) as [age|e] eqn:Eage; simpl;
            [destruct (Qlt_bool (ttl self) age) eqn:Ettl; simpl; rewrite ?Efile; simpl
            |rewrite (entry_age_raise_class now data e Eage); simpl]).
  all: repeat (rewrite Efile; simpl).
  all: eexists; eexists; (split; [reflexivity|]); simpl.
  all: split; [reflexivity|]. all: split; [reflexivity|].
  all: split; [intros Hfl; first [reflexivity | discriminate Hfl]|].
  all: try reflexivity.
  all: try (eexists; split; [reflexivity|];
               split; [cbn [doomed]; rewrite ?Eage, ?Ettl; reflexivity | reflexivity]).
Qed.

Lemma clean_loop_effect (self : CacheManager) (now : Q) (names : list string) :
  forall (cleaned : nat) (w : World),
  exists n w',
    clean_loop self now names cleaned w = (Ok n, w')
    /\ dirs w' = dirs w /\ clock w' = clock w
    /\ (faults w = [] -> faults w' = [])
    /\ (forall path data,
          files w !! path = Some data ->
          doomed self now data = false
          \/ (forall name, name ∈ names -> endswith ".json" name = true ->
                           os_path_join (cache_dir self) name <> path) ->
          files w' !! path = Some data).
Proof.
  induction names as [|filename rest IH]; intros cleaned w.
  - exists cleaned, w. repeat (split; [reflexivity|]).
    split; [tauto|]. intros path data Hfile _. exact Hfile.
  - cbn [clean_loop].
    destruct (endswith ".json" filename) eqn:Ejson; cbn [negb].
    + rewrite (json_name_not_tmp filename Ejson).
      destruct (clean_file_effect self now filename w)
        as (removed & w1 & Hrun & Hdirs1 & Hclock1 & Hfl1 & Hfiles1).
      unfold bind at 1. rewrite Hrun.
      destruct (IH (if removed then S cleaned else cleaned) w1)
        as (n & w' & Hloop & Hdirs & Hclock & Hfl & Hkeep).
      exists n, w'. split; [exact Hloop|].
      split; [congruence|]. split; [congruence|].
      split; [intros Hw; apply Hfl, Hfl1, Hw|].
      intros path data Hfile Hsafe.
      apply Hkeep.
      * destruct removed; [|now rewrite Hfiles1].
        destruct Hfiles1 as (data1 & Hfile1 & Hdoom1 & ->).
        rewrite lookup_delete_ne; [exact Hfile|].
        intros <-. destruct Hsafe as [Hfresh|Hother].
        -- congruence.
        -- apply (Hother filename); [left | exact Ejson | reflexivity].
      * destruct Hsafe as [Hfresh|Hother]; [now left|].
        right. intros name Hin. apply Hother. now right.
    + destruct (IH cleaned w) as (n & w' & Hloop & Hdirs & Hclock & Hfl & Hkeep).
      exists n, w'. split; [exact Hloop|].
      repeat (split; [assumption|]).
      intros path data Hfile Hsafe. apply Hkeep; [exact Hfile|].
      destruct Hsafe as [Hfresh|Hother]; [now left|].
      right. intros name Hin. apply Hother. now right.
Qed.

(** What [os.listdir] lists are names of direct entries. *)
Lemma listing_names (d : string) (w : World) (names : list string) (w1 : World) :
  try_except (names <- os_listdir d ;; ret (Some names))
    (fun _ => Some (ret None)) w = (Ok (Some names), w1) ->
  forall name, name ∈ names -> exists path, entry_name d path = Some name.
Proof.
  destruct w as [fs ds ck fl tr lg].
  unfold os_listdir. unfold_monad. simpl.
  destruct fl as [|[m|] rest]; simpl;
    try (destruct (bool_decide (d ∈ ds)) eqn:Edir; simpl);
    intros [= <- _]; intros name Hin.
  all: apply list_elem_of_omap in Hin as (path & _ & Hname); eauto.
Qed.

Lemma listing_frame (d : string) (w : World) :
  exists listing w1,
    try_except (names <- os_listdir d ;; ret (Some names))
      (fun _ => Some (ret None)) w = (Ok listing, w1)
    /\ files w1 = files w /\ dirs w1 = dirs w /\ clock w1 = clock w
    /\ (faults w = [] -> faults w1 = [])
    /\ (d ∉ dirs w -> listing = None).
Proof.
  destruct w as [fs ds ck fl tr lg].
  unfold os_listdir. unfold_monad. simpl.
  destruct fl as [|[m|] rest]; simpl;
    try (destruct (bool_decide (d ∈ ds)) eqn:Edir; simpl).
  all: eexists; eexists; (split; [reflexivity|]); simpl.
  all: do 3 (split; [reflexivity|]).
  all: split; [intros Hfl; first [reflexivity | discriminate Hfl]|].
  all: intros Hd; try reflexivity.
  all: try (apply bool_decide_eq_true in Edir; contradiction).
Qed.

(** The whole of [clean_expired], whatever fails. *)
Lemma clean_expired_effect (self : CacheManager) (w : World) :
  exists n w',
    CacheManager_clean_expired self w = (Ok n, w')
    /\ dirs w' = dirs w /\ clock w' = clock w
    /\ (faults w = [] -> faults w' = [])
    /\ (cache_dir self ∉ dirs w -> n = 0%nat)
    /\ (forall path data,
          files w !! path = Some data ->
          doomed self (clock w) data = false
          \/ (forall name, entry_name (cache_dir self) path = Some name ->
                           endswith ".json" name = false) ->
          files w' !! path = Some data).
Proof.
  unfold CacheManager_clean_expired.
  unfold bind at 1. unfold time_time.
  unfold bind at 1. unfold os_path_exists.
  destruct (bool_decide (is_Some (files w !! cache_dir self))
            || bool_decide (cache_dir self ∈ dirs w)); cbn [negb].
  - destruct (listing_frame (cache_dir self) w)
      as (listing & w1 & Hlist & Hfiles1 & Hdirs1 & Hclock1 & Hfl1 & Hnodir).
    unfold bind at 1. rewrite Hlist.
    destruct listing as [names|].
    + destruct (clean_loop_effect self (clock w) names 0%nat w1)
        as (n & w' & Hloop & Hdirs & Hclock & Hfl & Hkeep).
      exists n, w'. split; [exact Hloop|].
      split; [congruence|]. split; [congruence|].
      split; [intros Hw; apply Hfl, Hfl1, Hw|].
      split; [intros Hd; specialize (Hnodir Hd); discriminate Hnodir|].
      intros path data Hfile Hsafe. apply Hkeep; [now rewrite Hfiles1|].
      destruct Hsafe as [Hfresh|Hother]; [now left|].
      right. intros name Hin Hjson Hpath.
      destruct (listing_names _ _ _ _ Hlist name Hin) as [path' Hname].
      pose proof (entry_name_join _ _ _ Hname) as Hjoin.
      rewrite Hpath in Hjoin. subst path'.
      specialize (Hother name Hname). congruence.
    + exists 0%nat, w1. split; [reflexivity|].
      repeat (split; [first [assumption | reflexivity]|]).
      intros path data Hfile _. now rewrite Hfiles1.
  - exists 0%nat, w. repeat (split; [first [reflexivity | tauto]|]).
    intros path data Hfile _. exact Hfile.
Qed.

(** X12. Whatever fails, [clean_expired] keeps every file that is not
    doomed (it decodes to an entry whose age does not exceed the ttl, or
    whose age cannot be computed), and every file that is not a direct
    entry of the cache directory with a name ending in '.json'. *)
Theorem clean_expired_keeps (self : CacheManager) (w : World)
  (path : string) (data : FileData) :
  files w !! path = Some data ->
  doomed self (clock w) data = false
  \/ (forall name, entry_name (cache_dir self) path = Some name ->
                   endswith ".json" name = false) ->
  files (snd (CacheManager_clean_expired self w)) !! path = Some data.
Proof.
  intros Hfile Hsafe.
  destruct (clean_expired_effect self w)
    as (n & w' & Hrun & _ & _ & _ & _ & Hkeep).
  rewrite Hrun. cbn [snd]. now apply Hkeep.
Qed.


(** ** The cache path of a valid address *)

Lemma rev_app_chars (s1 s2 : string) :
  chars (String.rev_app s1 s2) = rev (chars s1) ++ chars s2.
Proof.
  revert s2. induction s1 as [|c s1 IH]; intros s2; [reflexivity|].
  cbn [String.rev_app]. rewrite IH. cbn [chars list_ascii_of_string rev].
  now rewrite <- app_assoc.
Qed.

Lemma string_rev_app (a b : string) :
  String.rev (a +:+ b) = String.rev b +:+ String.rev a.
Proof.
  apply chars_inj. unfold String.rev.
  rewrite chars_app, !rev_app_chars, !app_nil_r, chars_app.
  apply rev_app_distr.
Qed.

Lemma prefix_app (p s : string) : String.prefix p (p +:+ s) = true.
Proof.
  induction p as [|c p IH]; simpl; [now destruct s|].
  destruct (ascii_dec c c) as [_|Hne]; [exact IH | now contradiction Hne].
Qed.

(** [(s + p).endswith(p)] *)
Lemma endswith_app (p s : string) : endswith p (s +:+ p) = true.
Proof. unfold endswith. rewrite string_rev_app. apply prefix_app. Qed.

Lemma strip_prefix_exact (p r : list ascii) : strip_prefix p (p ++ r) = Some r.
Proof.
  induction p as [|c p IH]; [reflexivity|].
  cbn [app strip_prefix]. now rewrite Ascii.eqb_refl.
Qed.

Lemma has_char_app (c : ascii) (a b : list ascii) :
  has_char c (a ++ b) = has_char c a || has_char c b.
Proof. unfold has_char. apply existsb_app. Qed.

(** A name without ['/'] joined to a directory is a direct entry of the
    directory. *)
Lemma entry_name_of_join (d name : string) :
  name <> "" -> has_char "/"%char (chars name) = false ->
  entry_name d (os_path_join d name) = Some name.
Proof.
  intros Hne Hslash. unfold entry_name, os_path_join.
  rewrite <- (str_chars name) at 1.
  rewrite (startswith_slash _ Hslash).
  assert (Hstrip :
    strip_prefix
      (chars (if String.eqb d "" || endswith "/" d then d else d +:+ "/"))
      (chars (if String.eqb d "" || endswith "/" d
              then d +:+ name else d +:+ "/" +:+ name))
    = Some (chars name)).
  { destruct (String.eqb d "" || endswith "/" d);
      rewrite ?chars_app, ?app_assoc; apply strip_prefix_exact. }
  rewrite Hstrip, Hslash, orb_false_r.
  destruct name as [|a rest]; [now contradiction Hne|].
  cbn [chars list_ascii_of_string is_empty_part].
  f_equal. apply (str_chars (String a rest)).
Qed.

Lemma valid_ip_no_slash (ip : string) :
  is_valid_ip ip = true -> has_char "/"%char (chars ip) = false.
Proof.
  unfold is_valid_ip, validate_ip, ip_address_ok.
  destruct (ipv4_ok (chars ip)) eqn:E4.
  - intros _. unfold ipv4_ok in E4.
    destruct (has_char "/"%char (chars ip)); [discriminate E4 | reflexivity].
  - destruct (ipv6_ok (chars ip)) eqn:E6; [|discriminate].
    intros _. unfold ipv6_ok in E6.
    destruct (has_char "/"%char (chars ip)); [discriminate E6 | reflexivity].
Qed.

Lemma replace_no_slash (l : list ascii) :
  has_char "/"%char l = false ->
  has_char "/"%char
    (map (fun c => if Ascii.eqb c ":"%char then "_"%char else c) l) = false.
Proof.
  unfold has_char. induction l as [|c l IH]; [reflexivity|].
  cbn [existsb map]. intros H. apply orb_false_iff in H as [Hc Hl].
  rewrite (IH Hl), orb_false_r.
  destruct (Ascii.eqb c ":"%char); [reflexivity | exact Hc].
Qed.

(** X14. For a valid IP address and a method label without '/', the
    cache path is a direct entry of the cache directory, under the name
    [<escaped ip>_<method>.json]; the name ends in '.json' and not in
    '.tmp', so that [clean_expired] examines the entry. *)
Theorem cache_path_in_cache_dir (self : CacheManager) (ip method : string) :
  is_valid_ip ip = true ->
  has_char "/"%char (chars method) = false ->
  entry_name (cache_dir self) (_get_cache_path self ip method)
  = Some (cache_file_name ip method)
  /\ endswith ".json" (cache_file_name ip method) = true
  /\ endswith ".tmp" (cache_file_name ip method) = false.
Proof.
  intros Hip Hm.
  assert (Hjson : endswith ".json" (cache_file_name ip method) = true).
  { unfold cache_file_name.
    replace (replace_char ":" "_" ip +:+ "_" +:+ method +:+ ".json")
      with ((replace_char ":" "_" ip +:+ "_" +:+ method) +:+ ".json").
    - apply endswith_app.
    - apply chars_inj. rewrite !chars_app. now rewrite <- !app_assoc. }
  split; [|split; [exact Hjson | now apply json_name_not_tmp]].
  change (_get_cache_path self ip method)
    with (os_path_join (cache_dir self) (cache_file_name ip method)).
  apply entry_name_of_join.
  - intros E. apply (f_equal chars) in E.
    rewrite cache_file_name_chars in E.
    destruct (map _ (chars ip)); discriminate E.
  - rewrite cache_file_name_chars, !has_char_app.
    rewrite (replace_no_slash _ (valid_ip_no_slash ip Hip)), Hm. reflexivity.
Qed.

(** ** BaseResolver: rate limit and outcomes of lookup *)

(** X15. [_apply_rate_limit] always returns. Afterwards the time since
    the previous request is at least [rate_limit]: it sleeps for the
    remainder if less time has elapsed and does not sleep otherwise, and
    it records the current time as the time of the last request. *)
Theorem rate_limit_spacing (r : Resolver) (w : World) :
  let elapsed := (clock w - last_request_time r)%Q in
  exists r' w',
    _apply_rate_limit (r, w) = (Ok tt, (r', w'))
    /\ last_request_time r' = clock w'
    /\ (rate_limit r <= clock w' - last_request_time r)%Q
    /\ trace w' = trace w ++ (if Qlt_bool elapsed (rate_limit r)
                              then [EvSleep (rate_limit r - elapsed)]
                              else []).
Proof.
  unfold _apply_rate_limit, get_self, set_last_request_time, lift, time_sleep.
  unfold_monad. simpl.
  destruct (Qlt_bool (clock w - last_request_time r) (rate_limit r)) eqn:E; simpl.
  - rewrite (sleep_remaining_ok _ _ E). simpl.
    do 2 eexists. split; [reflexivity|]. simpl.
    split; [reflexivity|]. split; [lra | reflexivity].
  - do 2 eexists. split; [reflexivity|]. simpl.
    split; [reflexivity|]. split; [|now rewrite app_nil_r].
    unfold Qlt_bool in E. apply negb_false_iff in E.
    now apply Qle_bool_iff in E.
Qed.

Section LookupEdges.
Context `{Backend}.

(** X16. [lookup] raises nothing but [ValueError], whatever
    [_perform_lookup] raises; it leaves files, directories, the I/O
    failure plan and the engine's log unchanged; it returns a value only
    for a valid identity. *)
Theorem lookup_raises_value_error (ip : string) (timeout : option Q)
  (max_retries : Z) (r : Resolver) (w : World) :
  exists out r' w',
    BaseResolver_lookup ip timeout max_retries (r, w) = (out, (r', w'))
    /\ files w' = files w /\ dirs w' = dirs w /\ faults w' = faults w
    /\ log w' = log w
    /\ (forall e, out = Raise e -> exn_class e = ValueError)
    /\ (forall v, out = Ok v -> is_valid_ip ip = true).
Proof.
  unfold BaseResolver_lookup. unfold bind at 1, lift_res.
  unfold is_valid_ip, validate_ip.
  destruct (ip_address_ok ip).
  - destruct (Z_le_gt_dec 0 max_retries) as [Hmr|Hmr].
    + destruct (lookup_loop_spec ip timeout max_retries
                  (Z.to_nat (max_retries + 1)) 0 r w ltac:(lia) ltac:(lia))
        as (out & r' & w' & w0 & outcome & duration & delta & n & Hloop & _ & _
            & _ & Hfiles & Hdirs & Hfaults & Hlog & _ & _ & _ & _ & _ & Hout).
      rewrite Hloop. exists out, r', w'. split; [reflexivity|].
      repeat (split; [assumption|]). split; [|reflexivity].
      intros e ->. destruct (finish (name r) ip outcome).
      * discriminate Hout.
      * destruct Hout as [[= ->] _]. reflexivity.
    + assert (Hfuel : Z.to_nat (max_retries + 1) = 0%nat) by lia.
      rewrite Hfuel. cbn [lookup_loop].
      assert (Hcond : (0 <=? max_retries) = false) by (apply Z.leb_gt; lia).
      rewrite Hcond. exists (Ok VNone), r, w. cbn.
      repeat (split; [reflexivity|]). split; [discriminate | reflexivity].
  - eexists. exists r, w. split; [reflexivity|].
    repeat (split; [reflexivity|]).
    split; [intros e [= <-]; reflexivity | discriminate].
Qed.

(** X17. For an invalid identity [lookup] raises
    [ValueError('Invalid IP address: ' + ip)] without sleeping or sending
    a request: resolver and world are unchanged. For a valid identity and
    a negative [max_retries] the loop is not entered and [lookup] returns
    [None], again without any request. *)
Theorem lookup_without_request (ip : string) (timeout : option Q)
  (max_retries : Z) (s : Resolver * World) :
  (is_valid_ip ip = false ->
   BaseResolver_lookup ip timeout max_retries s
   = (Raise (Exn ValueError ("Invalid IP address: " +:+ ip)), s))
  /\ (is_valid_ip ip = true -> max_retries < 0 ->
      BaseResolver_lookup ip timeout max_retries s = (Ok VNone, s)).
Proof.
  unfold BaseResolver_lookup. unfold bind at 1, lift_res.
  unfold is_valid_ip, validate_ip.
  destruct (ip_address_ok ip); split; try discriminate.
  - intros _ Hmr.
    assert (Hfuel : Z.to_nat (max_retries + 1) = 0%nat) by lia.
    rewrite Hfuel. cbn [lookup_loop].
    assert (Hcond : (0 <=? max_retries) = false) by (apply Z.leb_gt; lia).
    now rewrite Hcond.
  - reflexivity.
Qed.

End LookupEdges.

(** ** WhoisEngine.lookup_ip: modes, cache hit, invalid input *)

Lemma method_kind_resolver (method : string) (k : ResolverKind) (rl : Q) :
  method_kind method = Some k ->
  String.eqb method "auto" = false
  /\ get_resolver_by_method method rl = Ok (Single (new_resolver k rl)).
Proof.
  unfold method_kind, get_resolver_by_method.
  destruct (String.eqb method "ipwhois") eqn:E1.
  { apply eqb_string_true in E1 as ->. intros [= <-]. split; reflexivity. }
  destruct (String.eqb method "pythonwhois") eqn:E2.
  { apply eqb_string_true in E2 as ->. intros [= <-]. split; reflexivity. }
  destruct (String.eqb method "system") eqn:E3; [|discriminate].
  apply eqb_string_true in E3 as ->. intros [= <-]. split; reflexivity.
Qed.

Section EngineModes.
Context `{Backend}.

(** X18. In single-method mode (ipwhois, pythonwhois or system), after
    a cache miss, [lookup_ip] runs one resolver, of the class that the
    method names. A result is returned as it is. A failure with text [e]
    is logged as a warning and raised as
    [ValueError('Lookup with <class name> failed: ' + e)]. *)
Theorem lookup_single_method (self : WhoisEngine) (ip : string)
  (k : ResolverKind) (w : World) :
  method_kind (lookup_method self) = Some k ->
  truthy (cached_value self ip w) = false ->
  let w0 := add_log DEBUG ("Cache miss for " +:+ ip +:+ ", looking it up")
              (after_cache_check self ip w) in
  exists o w1,
    resolver_run self ip k (announce k ip w0) = (o, w1)
    /\ match o with
       | Ok v => fst (WhoisEngine_lookup_ip self ip w) = Ok v
       | Raise e =>
           WhoisEngine_lookup_ip self ip w
           = (Raise (Exn ValueError ("Lookup with " +:+ class_name k
                                     +:+ " failed: " +:+ exn_str e)),
              note_failure k ip o w1)
       end.
Proof.
  intros Hkind Hmiss w0.
  destruct (method_kind_resolver _ k (engine_rate_limit self) Hkind)
    as [Hauto Hget].
  rewrite (lookup_ip_miss self ip w Hmiss).
  destruct (lookup_summary ip (timeout self) (max_retries self)
              (new_resolver k (engine_rate_limit self)) (announce k ip w0))
    as (o & w1 & Hrun & _ & _ & _ & _ & Hclass).
  exists o, w1. split; [exact Hrun|].
  unfold resolver_run in Hrun.
  destruct o as [v|e].
  all: unfold lookup_uncached, bind, logger, lift_res; fold w0; rewrite Hget.
  all: cbn [resolve_loop]; unfold try_resolver, try_except, bind, logger.
  all: change (add_log INFO
                 ("Trying " +:+ name (new_resolver k (engine_rate_limit self))
                  +:+ " for " +:+ ip) w0) with (announce k ip w0).
  all: rewrite Hrun; unfold is_auto; rewrite Hauto; cbn [negb].
  - unfold ret. cbn [app].
    destruct (active_cache self) as [c|]; [|reflexivity].
    destruct (cache_set_returns c ip (lookup_method self) v w1)
      as (ok & w' & Hset).
    now rewrite Hset.
  - rewrite (Hclass e eq_refl). cbn [is_ValueError].
    unfold raise. reflexivity.
Qed.

(** X19. With a lookup method that is none of auto, ipwhois,
    pythonwhois and system, [lookup_ip] after a cache miss raises
    [ValueError("Invalid lookup method '<method>'. Available methods:
    auto, ipwhois, pythonwhois, system")]; nothing but the cache check
    and the debug record of the miss has happened by then. *)
Theorem lookup_invalid_method (self : WhoisEngine) (ip : string) (w : World) :
  is_method_label (lookup_method self) = false ->
  truthy (cached_value self ip w) = false ->
  WhoisEngine_lookup_ip self ip w
  = (Raise (Exn ValueError
              ("Invalid lookup method '" +:+ lookup_method self
               +:+ "'. Available methods: auto, ipwhois, pythonwhois, system")),
     add_log DEBUG ("Cache miss for " +:+ ip +:+ ", looking it up")
       (after_cache_check self ip w)).
Proof.
  intros Hlabel Hmiss. rewrite (lookup_ip_miss self ip w Hmiss).
  unfold is_method_label in Hlabel. cbn [existsb] in Hlabel.
  repeat (apply orb_false_iff in Hlabel as [? Hlabel]).
  unfold lookup_uncached, bind, logger, lift_res, get_resolver_by_method.
  now repeat match goal with
             | E : String.eqb _ _ = false |- _ => rewrite E; clear E
             end.
Qed.

(** X20. When the cache check finds a truthy value, [lookup_ip]
    returns it at once, whether the identity is valid or not: no request
    and no sleep is made, no file is written, and the only record added
    to the engine's log is the debug record of the hit. *)
Theorem lookup_cache_hit (self : WhoisEngine) (ip : string) (w : World) :
  truthy (cached_value self ip w) = true ->
  exists w',
    WhoisEngine_lookup_ip self ip w = (Ok (cached_value self ip w), w')
    /\ files w' = files w /\ dirs w' = dirs w /\ clock w' = clock w
    /\ trace w' = trace w
    /\ log w' = log w ++ [(DEBUG, "Found " +:+ ip +:+ " in cache 🎯")].
Proof.
  unfold WhoisEngine_lookup_ip, cached_value.
  destruct (active_cache self) as [c|]; [|discriminate].
  destruct (cache_get_frame c ip (lookup_method self) w)
    as (v & w1 & Hget & Hfiles & Hdirs & Hclock & Htrace & Hlog).
  unfold bind at 1. rewrite Hget. cbn [fst]. intros ->.
  eexists. split; [reflexivity|]. cbn.
  repeat (split; [assumption|]). now rewrite Hlog.
Qed.

Lemma resolver_run_invalid (self : WhoisEngine) (ip : string)
  (k : ResolverKind) (w : World) :
  is_valid_ip ip = false ->
  resolver_run self ip k w
  = (Raise (Exn ValueError ("Invalid IP address: " +:+ ip)), w).
Proof.
  unfold resolver_run, on_instance, BaseResolver_lookup.
  unfold bind at 1, lift_res. unfold is_valid_ip, validate_ip.
  destruct (ip_address_ok ip); [discriminate | reflexivity].
Qed.

Lemma after_cache_check_frame (self : WhoisEngine) (ip : string) (w : World) :
  files (after_cache_check self ip w) = files w
  /\ trace (after_cache_check self ip w) = trace w.
Proof.
  unfold after_cache_check. destruct (active_cache self) as [c|]; [|now split].
  destruct (cache_get_frame c ip (lookup_method self) w)
    as (v & w1 & Hget & Hfiles & _ & _ & Htrace & _).
  rewrite Hget. now split.
Qed.

(** X21. In auto mode, [lookup_ip] for an invalid identity that the
    cache does not answer raises
    [ValueError('All lookup methods failed for ' + ip)] without any
    request or sleep and without writing a file; the error record of the
    log lists the reason 'Invalid IP address: <ip>' three times, once per
    resolver. *)
Theorem lookup_invalid_identity (self : WhoisEngine) (ip : string) (w : World) :
  is_auto self = true ->
  is_valid_ip ip = false ->
  truthy (cached_value self ip w) = false ->
  let reason := "Invalid IP address: " +:+ ip in
  exists w',
    WhoisEngine_lookup_ip self ip w
    = (Raise (Exn ValueError ("All lookup methods failed for " +:+ ip)), w')
    /\ trace w' = trace w /\ files w' = files w
    /\ last (log w')
       = Some (ERROR, "No joy for " +:+ ip +:+ " - all methods failed: "
                      +:+ join "; " [reason; reason; reason]).
Proof.
  intros Hauto Hbad Hmiss reason.
  rewrite (lookup_ip_miss self ip w Hmiss).
  destruct (lookup_uncached_auto self ip (after_cache_check self ip w) Hauto)
    as (o1 & o2 & o3 & w1 & w2 & w3 & Hrun1 & Hrun2 & Hrun3 & Hout).
  rewrite (resolver_run_invalid self ip _ _ Hbad) in Hrun1.
  injection Hrun1 as <- <-.
  rewrite (resolver_run_invalid self ip _ _ Hbad) in Hrun2.
  injection Hrun2 as <- <-.
  rewrite (resolver_run_invalid self ip _ _ Hbad) in Hrun3.
  injection Hrun3 as <- <-.
  cbn [successes failure_texts omap exn_str] in Hout.
  eexists. split; [exact Hout|].
  destruct (after_cache_check_frame self ip w) as [Hfiles Htrace].
  split; [exact Htrace|]. split; [exact Hfiles|].
  unfold add_log at 1. cbn [log]. apply last_snoc.
Qed.

End EngineModes.

(** ** A lookup after a lookup *)

(** [set] with no failure pending: the entry is in place afterwards;
    clock and failure plan are as before. *)
Lemma cache_set_clear (self : CacheManager) (ip method : string)
  (result : pyval) (w : World) :
  result <> VNone -> faults w = [] ->
  exists w',
    CacheManager_set self ip method result w = (Ok true, w')
    /\ files w' !! _get_cache_path self ip method
       = Some (JsonDoc (VDict [("timestamp", VNum (clock w)); ("result", result)]))
    /\ clock w' = clock w /\ faults w' = [].
Proof.
  intros Hres Hfl.
  assert (Hstore : exists w',
    try_except
      (write_json (_get_cache_path self ip method +:+ ".tmp")
         (VDict [("timestamp", VNum (clock w)); ("result", result)]) ;;;
       os_replace (_get_cache_path self ip method +:+ ".tmp")
         (_get_cache_path self ip method) ;;; ret true)
      (fun _ => Some (ret false)) w = (Ok true, w')
    /\ files w' !! _get_cache_path self ip method
       = Some (JsonDoc (VDict [("timestamp", VNum (clock w)); ("result", result)]))
    /\ clock w' = clock w /\ faults w' = []).
  { generalize (_get_cache_path self ip method). intros path.
    destruct w as [fs ds ck fl tr lg]. simpl in Hfl. subst fl.
    unfold write_json, os_replace. unfold_monad. simpl.
    rewrite lookup_insert_eq. simpl.
    eexists. split; [reflexivity|]. simpl.
    rewrite lookup_insert_eq. repeat split. }
  destruct result; try congruence; exact Hstore.
Qed.

Lemma cache_get_add_log (self : CacheManager) (ip method : string)
  (lvl : Level) (msg : string) (w : World) :
  CacheManager_get self ip method (add_log lvl msg w)
  = (fst (CacheManager_get self ip method w),
     add_log lvl msg (snd (CacheManager_get self ip method w))).
Proof.
  unfold CacheManager_get. generalize (_get_cache_path self ip method).
  intros path. destruct w as [fs ds ck fl tr lg].
  unfold read_json, os_path_exists. unfold_monad. simpl.
  destruct (bool_decide (is_Some (fs !! path)) || bool_decide (path ∈ ds)); simpl;
    [|reflexivity].
  destruct fl as [|[msg'|] rest]; simpl;
    try (destruct (fs !! path) as [[data|text]|]; simpl;
         try (destruct (entry_age ck data) as [age|e]; simpl;
              [destruct (Qlt_bool (ttl self) age); simpl|])).
  all: repeat match goal with
              | |- context [ExnClass_eqb ?a ?b] => destruct (ExnClass_eqb a b)
              end; simpl.
  all: reflexivity.
Qed.

(** A fresh entry answers the next [get]. *)
Lemma cache_get_fresh (self : CacheManager) (ip method : string)
  (result : pyval) (w : World) (stored : Q) :
  faults w = [] ->
  (0 <= ttl self)%Q ->
  (clock w == stored)%Q ->
  files w !! _get_cache_path self ip method
  = Some (JsonDoc (VDict [("timestamp", VNum stored); ("result", result)])) ->
  CacheManager_get self ip method w = (Ok result, w).
Proof.
  intros Hfl Httl Hclock Hfile.
  destruct (cache_get_pure self ip method w Hfl) as [v Hget].
  destruct (cache_get_spec self ip method w)
    as (v' & w' & Hget' & _ & _ & _ & _ & Hdoc).
  rewrite Hget in Hget'. injection Hget' as <- <-.
  specialize (Hdoc _ Hfile). cbn in Hdoc.
  assert (Hfresh : Qlt_bool (ttl self) (clock w - stored) = false).
  { unfold Qlt_bool. apply negb_false_iff. apply Qle_bool_iff. lra. }
  rewrite Hfresh in Hdoc. rewrite Hget. f_equal. f_equal.
  apply Hdoc. intros msg rest. rewrite Hfl. discriminate.
Qed.

Lemma dset_nonempty (k : string) (v : pyval) (d : dict) : dset k v d <> [].
Proof.
  destruct d as [|[k' v'] d]; simpl; [discriminate|].
  destruct (String.eqb k k'); discriminate.
Qed.

Lemma merge_truthy (first : pyval) (later : list pyval) (v : pyval) :
  merge_whois_results (first :: later) = Ok v -> truthy v = true.
Proof.
  cbn [merge_whois_results].
  destruct (merge_base first) as [merged|e]; [|discriminate].
  destruct (merge_loop merged _ later) as [[merged' sources]|e]; [|discriminate].
  destruct (join_sources sources) as [joined|e]; [|discriminate].
  intros [= <-]. cbn [truthy].
  pose proof (dset_nonempty "source" (VStr joined) merged').
  destruct (dset "source" (VStr joined) merged'); [congruence | reflexivity].
Qed.

Section SecondLookup.
Context `{Backend}.

Lemma resolver_run_truthy (self : WhoisEngine) (ip : string)
  (k : ResolverKind) (w : World) (v : pyval) :
  0 <= max_retries self ->
  fst (resolver_run self ip k w) = Ok v -> truthy v = true.
Proof.
  intros Hmr Hrun.
  destruct (resolver_run_mergeable self ip k w v Hmr Hrun)
    as (result & -> & _ & Hsource).
  destruct result as [|kv result]; [|reflexivity].
  destruct k; discriminate Hsource.
Qed.

(** [lookup_uncached] in auto mode with a cache, as one equation. *)
Lemma lookup_uncached_auto_eq (self : WhoisEngine) (ip : string)
  (c : CacheManager) (w : World) :
  is_auto self = true ->
  active_cache self = Some c ->
  let w0 := add_log DEBUG ("Cache miss for " +:+ ip +:+ ", looking it up") w in
  exists o1 o2 o3 w1 w2 w3,
    resolver_run self ip IPWhoisResolver (announce IPWhoisResolver ip w0) = (o1, w1)
    /\ resolver_run self ip PythonWhoisResolver
         (announce PythonWhoisResolver ip (note_failure IPWhoisResolver ip o1 w1))
       = (o2, w2)
    /\ resolver_run self ip SystemWhoisResolver
         (announce SystemWhoisResolver ip (note_failure PythonWhoisResolver ip o2 w2))
       = (o3, w3)
    /\ faults w3 = faults w
    /\ let w_end := note_failure SystemWhoisResolver ip o3 w3 in
       lookup_uncached self ip w
       = match successes [o1; o2; o3] with
         | [] =>
             (Raise (Exn ValueError ("All lookup methods failed for " +:+ ip)),
              add_log ERROR
                ("No joy for " +:+ ip +:+ " - all methods failed: "
                 +:+ join "; " (failure_texts [o1; o2; o3])) w_end)
         | [only] =>
             (Ok only, snd (CacheManager_set c ip (lookup_method self) only w_end))
         | results =>
             let w_merge :=
               add_log DEBUG ("Got " +:+ pretty (length results) +:+ " results for "
                              +:+ ip +:+ ", merging them") w_end in
             match merge_whois_results results with
             | Ok merged =>
                 (Ok merged,
                  snd (CacheManager_set c ip (lookup_method self) merged w_merge))
             | Raise e => (Raise e, w_merge)
             end
         end.
Proof.
  intros Hauto Hcache w0.
  destruct (resolve_auto self ip w0 Hauto)
    as (o1 & o2 & o3 & w1 & w2 & w3 & Hrun1 & Hrun2 & Hrun3 & Hloop & _ & Hfaults).
  exists o1, o2, o3, w1, w2, w3.
  split; [exact Hrun1|]. split; [exact Hrun2|]. split; [exact Hrun3|].
  split; [exact Hfaults|]. cbv zeta.
  unfold lookup_uncached.
  unfold bind at 1; unfold logger at 1; fold w0.
  rewrite (is_auto_method self Hauto).
  unfold bind at 1; unfold lift_res at 1.
  change (get_resolver_by_method "auto" (engine_rate_limit self))
    with (Ok (Several [new_resolver IPWhoisResolver (engine_rate_limit self);
                       new_resolver PythonWhoisResolver (engine_rate_limit self);
                       new_resolver SystemWhoisResolver (engine_rate_limit self)])).
  cbv iota beta.
  unfold bind at 1; rewrite Hloop.
  rewrite <- (is_auto_method self Hauto). rewrite Hcache.
  destruct (successes [o1; o2; o3]) as [|first [|second others]].
  - reflexivity.
  - unfold bind at 1. unfold ret at 1.
    unfold bind at 1. unfold bind at 1.
    destruct (cache_set_returns c ip (lookup_method self) first
                (note_failure SystemWhoisResolver ip o3 w3))
      as (ok & w' & Hset).
    rewrite Hset. reflexivity.
  - unfold bind at 1. unfold bind at 1. unfold logger at 1.
    unfold lift_res at 1.
    destruct (merge_whois_results (first :: second :: others))
      as [merged|e]; [|reflexivity].
    unfold bind at 1. unfold bind at 1.
    match goal with
    | |- context [CacheManager_set c ip (lookup_method self) merged ?W] =>
        destruct (cache_set_returns c ip (lookup_method self) merged W)
          as (ok & w' & Hset)
    end.
    rewrite Hset. reflexivity.
Qed.

(** In auto mode with a cache, a lookup that resolves stores what it
    returns. *)
Lemma lookup_uncached_auto_stores (self : WhoisEngine) (ip : string)
  (c : CacheManager) (w : World) (final : pyval) :
  is_auto self = true ->
  active_cache self = Some c ->
  0 <= max_retries self ->
  fst (lookup_uncached self ip w) = Ok final ->
  exists w_set,
    lookup_uncached self ip w
    = (Ok final, snd (CacheManager_set c ip (lookup_method self) final w_set))
    /\ faults w_set = faults w
    /\ truthy final = true.
Proof.
  intros Hauto Hcache Hmr.
  destruct (lookup_uncached_auto_eq self ip c w Hauto Hcache)
    as (o1 & o2 & o3 & w1 & w2 & w3 & Hrun1 & Hrun2 & Hrun3 & Hfaults & Heq).
  cbv zeta in Heq. rewrite Heq. clear Heq.
  assert (Htruthy : Forall (fun v => truthy v = true) (successes [o1; o2; o3])).
  { match type of Hrun1 with
    | resolver_run _ _ ?k ?W = _ =>
        pose proof (fun v => resolver_run_truthy self ip k W v Hmr) as R1
    end. rewrite Hrun1 in R1.
    match type of Hrun2 with
    | resolver_run _ _ ?k ?W = _ =>
        pose proof (fun v => resolver_run_truthy self ip k W v Hmr) as R2
    end. rewrite Hrun2 in R2.
    match type of Hrun3 with
    | resolver_run _ _ ?k ?W = _ =>
        pose proof (fun v => resolver_run_truthy self ip k W v Hmr) as R3
    end. rewrite Hrun3 in R3.
    cbn [fst] in R1, R2, R3.
    destruct o1 as [v1|e1], o2 as [v2|e2], o3 as [v3|e3];
      cbn [successes]; repeat constructor; auto. }
  destruct (successes [o1; o2; o3]) as [|first [|second others]].
  - discriminate.
  - cbn [fst]. intros [= <-]. eexists. split; [reflexivity|].
    split; [now rewrite note_failure_faults | now inversion Htruthy].
  - destruct (merge_whois_results (first :: second :: others))
      as [merged|e] eqn:Emerge; [|discriminate].
    cbn [fst]. intros [= <-]. eexists. split; [reflexivity|].
    split; [cbn [faults add_log]; now rewrite note_failure_faults|].
    now apply merge_truthy in Emerge.
Qed.


End SecondLookup.

(** ** process_ips and invalid identities *)

Lemma filter_valid_ips_idem (ips : list string) :
  filter_valid_ips (filter_valid_ips ips) = filter_valid_ips ips.
Proof.
  unfold filter_valid_ips.
  induction ips as [|ip ips IH]; [reflexivity|].
  cbn [List.filter]. destruct (is_valid_ip ip) eqn:E; [|exact IH].
  cbn [List.filter]. now rewrite E, IH.
Qed.

Lemma filter_valid_ips_none (ips : list string) :
  forallb (fun ip => negb (is_valid_ip ip)) ips = true ->
  filter_valid_ips ips = [].
Proof.
  unfold filter_valid_ips.
  induction ips as [|ip ips IH]; [reflexivity|].
  cbn [forallb List.filter]. intros Hall.
  apply andb_true_iff in Hall as [Hip Hall].
  apply negb_true_iff in Hip. rewrite Hip. now apply IH.
Qed.

(** X23. [process_ips] does to a list what it does to the list of its
    valid identities: invalid ones never reach [lookup_ip]. If no
    identity is valid (in particular for the empty list) it returns the
    empty list, whatever [parallel] and [max_workers] are; [lookup_ip]
    is not called and only a warning is logged. *)
Theorem process_ips_skips_invalid (lookup_ip : string -> M World pyval)
  (ips : list string) (parallel : bool) (max_workers : Z)
  (completion : list nat) (w : World) :
  process_ips lookup_ip ips parallel max_workers completion w
  = process_ips lookup_ip (filter_valid_ips ips) parallel max_workers
      completion w
  /\ (forallb (fun ip => negb (is_valid_ip ip)) ips = true ->
      process_ips lookup_ip ips parallel max_workers completion w
      = (Ok [], add_log WARNING "Found no valid IPs to process!" w)).
Proof.
  split.
  - unfold process_ips, process_ips_collect.
    now rewrite filter_valid_ips_idem.
  - intros Hnone. unfold process_ips, process_ips_collect.
    rewrite (filter_valid_ips_none ips Hnone). reflexivity.
Qed.

(** ** SystemWhoisResolver._perform_lookup *)

(** X24. [SystemWhoisResolver._perform_lookup] raises nothing but
    [ValueError]. A timeout of the command gives 'Timeout expired for
    whois command'; an empty output gives 'No output from whois command'
    if the return code is 0 and 'whois command failed with code <code>'
    otherwise; an exception of the run that is no [ValueError] and no
    [SubprocessError] is wrapped as 'Unexpected error during lookup:
    <text>'. *)
Theorem system_lookup_errors (run : Command) (whois_path ip : string)
  (timeout : option Q) :
  let timeout_val := match timeout with Some t => t | None => 30%Q end in
  let outcome := SystemWhoisResolver_perform_lookup run whois_path ip timeout in
  (forall e, outcome = Raise e -> is_ValueError (exn_class e) = true)
  /\ (run [whois_path; ip] timeout_val = TimeoutExpired ->
      outcome = Raise (Exn ValueError "Timeout expired for whois command"))
  /\ (forall returncode,
        run [whois_path; ip] timeout_val = Completed "" returncode ->
        outcome
        = Raise (Exn ValueError
                   (if returncode =? 0 then "No output from whois command"
                    else "whois command failed with code " +:+ pretty returncode)))
  /\ (forall e,
        run [whois_path; ip] timeout_val = RunFailed e ->
        is_ValueError (exn_class e) = false ->
        outcome = Raise (Exn ValueError
                           ("Unexpected error during lookup: " +:+ exn_str e))).
Proof.
  cbv zeta.
  unfold SystemWhoisResolver_perform_lookup, _execute_whois_command.
  split; [|split; [|split]].
  - intros e.
    destruct (run _ _) as [output rc| |text|e0]; cbn [and_then].
    + destruct (negb (rc =? 0) && String.eqb output ""); [now intros [= <-]|].
      destruct (String.eqb output ""); [now intros [= <-] | discriminate].
    + now intros [= <-].
    + now intros [= <-].
    + destruct (is_ValueError (exn_class e0)) eqn:E; intros [= <-];
        [exact E | reflexivity].
  - intros ->. reflexivity.
  - intros rc ->. cbn [and_then]. cbn [String.eqb]. rewrite andb_true_r.
    now destruct (rc =? 0).
  - intros e -> He. cbn [and_then]. now rewrite He.
Qed.

(** X25. When the command completes with a non-empty output,
    [SystemWhoisResolver._perform_lookup] returns a dictionary, whatever
    the return code is: it holds the output under ['raw_output'], the
    identity under ['ip'], and for every other key what
    [_parse_whois_output] gives. *)
Theorem system_lookup_success (run : Command) (whois_path ip : string)
  (timeout : option Q) (output : string) (returncode : Z) :
  run [whois_path; ip] (match timeout with Some t => t | None => 30%Q end)
  = Completed output returncode ->
  output <> "" ->
  exists result,
    SystemWhoisResolver_perform_lookup run whois_path ip timeout
    = Ok (VDict result)
    /\ dget "raw_output" result = VStr output
    /\ dget "ip" result = VStr ip
    /\ forall key, key <> "raw_output" ->
         dlookup key result = dlookup key (_parse_whois_output output ip).
Proof.
  intros Hrun Hout.
  unfold SystemWhoisResolver_perform_lookup, _execute_whois_command.
  rewrite Hrun. cbn [and_then].
  apply eqb_string_false in Hout. rewrite Hout, andb_false_r.
  eexists. split; [reflexivity|].
  split; [apply dget_dset_eq|]. split.
  - rewrite dget_dset_ne by discriminate.
    destruct (parse_lines_shape ip (splitlines output) [("ip", VStr ip)])
      as (_ & Hip & _).
    { split; [reflexivity|]. split; [reflexivity|].
      intros key v. cbn [dlookup].
      destruct (String.eqb key "ip") eqn:E; [|discriminate].
      apply eqb_string_true in E. now left. }
    unfold dget, dget_default, _parse_whois_output. now rewrite Hip.
  - intros key Hkey. now apply dlookup_dset_ne.
Qed.

(** ** The resolver registry *)

Lemma register_elem (cls : ResolverClass) (registry : list string) (n : string) :
  In n (register cls registry) ->
  In n registry \/ (n = cls_name cls /\ is_BaseResolver cls = false).
Proof.
  unfold register.
  destruct (existsb _ registry) eqn:E; cbn [negb andb]; [now left|].
  destruct (is_BaseResolver cls); cbn [negb]; [now left|].
  intros Hin. apply in_app_or in Hin as [Hin|[<-|[]]]; [now left | now right].
Qed.

(** X26. [register] keeps the registry free of duplicates, registering
    a class a second time changes nothing, [BaseResolver.register()]
    changes nothing, and the name 'BaseResolver' never enters the
    registry. *)
Theorem register_keeps_registry (cls : ResolverClass) (registry : list string) :
  (NoDup registry -> NoDup (register cls registry))
  /\ register cls (register cls registry) = register cls registry
  /\ register BaseResolver registry = registry
  /\ (~ In "BaseResolver" registry ->
      ~ In "BaseResolver" (register cls registry)).
Proof.
  split; [|split; [|split]].
  - intros Hnd. unfold register.
    destruct (existsb _ registry) eqn:E; cbn [negb andb]; [exact Hnd|].
    destruct (is_BaseResolver cls); cbn [negb]; [exact Hnd|].
    apply NoDup_app; repeat split; [exact Hnd | | apply NoDup_singleton].
    intros x Hx Hc. apply list_elem_of_singleton in Hc. subst x.
    assert (existsb (String.eqb (cls_name cls)) registry = true); [|congruence].
    apply existsb_exists. exists (cls_name cls). split.
    + now apply list_elem_of_In.
    + apply String.eqb_refl.
  - unfold register.
    destruct (existsb _ registry) eqn:E; cbn [negb andb]; [now rewrite E|].
    destruct (is_BaseResolver cls) eqn:B; cbn [negb]; [now rewrite E|].
    rewrite existsb_app. cbn [existsb].
    rewrite String.eqb_refl. cbn [orb]. now rewrite orb_true_r.
  - unfold register. cbn [is_BaseResolver negb]. now rewrite andb_false_r.
  - intros Hno Hin. apply register_elem in Hin as [Hin|[Heq Hb]]; [tauto|].
    destruct cls as [|k]; [discriminate Hb|]. destruct k; discriminate Heq.
Qed.

(** X27. Once the package is imported the registry lists the keys of
    [RESOLVER_MAP], in their order. [get_resolver] returns a resolver
    exactly for the names in the registry: its [name] is the name asked
    for, its rate limit is the one given, or the default of its class
    (1, 1.5 and 2 seconds) if none is given, and no request time is
    recorded yet. For any other name it raises a [ValueError] that lists
    the registry. *)
Theorem get_resolver_by_name (label : string) (limit : option Q) :
  imported_registry = map fst RESOLVER_MAP
  /\ match get_resolver imported_registry label limit with
     | Ok resolver =>
         In label imported_registry
         /\ name resolver = label
         /\ rate_limit resolver
            = match limit with
              | Some given => given
              | None => default_rate_limit (kind resolver)
              end
         /\ last_request_time resolver = 0%Q
     | Raise e =>
         ~ In label imported_registry
         /\ e = Exn ValueError
                  ("Resolver '" +:+ label
                   +:+ "' not found. Available resolvers: IPWhoisResolver, "
                   +:+ "PythonWhoisResolver, SystemWhoisResolver")
     end.
Proof.
  split; [reflexivity|].
  unfold get_resolver. change imported_registry with (map fst RESOLVER_MAP).
  cbn [map_get RESOLVER_MAP map fst].
  destruct (String.eqb label "IPWhoisResolver") eqn:E1.
  { apply eqb_string_true in E1 as ->. cbn. tauto. }
  destruct (String.eqb label "PythonWhoisResolver") eqn:E2.
  { apply eqb_string_true in E2 as ->. cbn. tauto. }
  destruct (String.eqb label "SystemWhoisResolver") eqn:E3.
  { apply eqb_string_true in E3 as ->. cbn. tauto. }
  apply eqb_string_false in E1, E2, E3. split; [|reflexivity].
  cbn [In]. intuition congruence.
Qed.

(** ** get_ip_addresses *)

Lemma split_go_head (sep : ascii) (l : list ascii) :
  forall cur, exists more rest,
    split_go sep cur l = (rev cur ++ more) :: rest.
Proof.
  induction l as [|c l IH]; intros cur; cbn [split_go].
  - exists [], []. now rewrite app_nil_r.
  - destruct (Ascii.eqb c sep).
    + exists [], (split_go sep [] l). now rewrite app_nil_r.
    + destruct (IH (c :: cur)) as (more & rest & ->).
      exists (c :: more), rest. cbn [rev]. now rewrite <- app_assoc.
Qed.

(** The first part of a text that begins with a character other than
    the separator begins with that character. *)
Lemma split_head (sep c : ascii) (l : list ascii) :
  Ascii.eqb c sep = false ->
  exists more rest, split sep (c :: l) = (c :: more) :: rest.
Proof.
  intros Hc. unfold split. cbn [split_go]. rewrite Hc.
  destruct (split_go_head sep l [c]) as (more & rest & ->).
  now exists more, rest.
Qed.

Lemma ipv4_head (c : ascii) (l : list ascii) :
  is_digit c = false -> ipv4_ok (c :: l) = false.
Proof.
  intros Hc. unfold ipv4_ok.
  destruct (Ascii.eqb c ".") eqn:Edot.
  - apply Ascii.eqb_eq in Edot. subst c.
    unfold split. cbn [split_go]. cbn [Ascii.eqb Bool.eqb rev].
    destruct (split_go "." [] l) as [|o os] eqn:E;
      cbn [length forallb parse_octet_ok andb]; now rewrite !andb_false_r.
  - destruct (split_head "." c l Edot) as (more & rest & ->).
    cbn [forallb parse_octet_ok]. rewrite Hc.
    cbn [andb]. now rewrite !andb_false_r.
Qed.

Lemma parse_hextet_head (c : ascii) (more : list ascii) :
  is_hexdigit c = false -> parse_hextet_ok (c :: more) = false.
Proof. intros Hc. unfold parse_hextet_ok. cbn [forallb]. now rewrite Hc. Qed.

Lemma hextets_head (c : ascii) (more : list ascii) (rest : list (list ascii)) :
  is_hexdigit c = false -> ipv6_hextets_ok ((c :: more) :: rest) = false.
Proof.
  intros Hc. unfold ipv6_hextets_ok.
  destruct (9 <? length ((c :: more) :: rest))%nat; [reflexivity|].
  cbn [nth is_empty_part].
  destruct (skip_indices ((c :: more) :: rest)) as [|i [|j others]] eqn:Eskip;
    [| |reflexivity].
  - cbn [forallb]. rewrite (parse_hextet_head c more Hc). cbn [andb].
    now rewrite andb_false_r.
  - assert (Hi : (1 <= i)%nat).
    { assert (Hin : i ∈ skip_indices ((c :: more) :: rest))
        by (rewrite Eskip; left).
      unfold skip_indices in Hin.
      apply list_elem_of_filter in Hin as [_ Hin].
      apply elem_of_seq in Hin. lia. }
    destruct i as [|i]; [lia|].
    cbn [firstn forallb]. rewrite (parse_hextet_head c more Hc). cbn [andb].
    now rewrite !andb_false_r.
Qed.

Lemma ipv6_parts_head (c : ascii) (l : list ascii) (parts : list (list ascii)) :
  Ascii.eqb c ":" = false ->
  ipv6_parts (c :: l) = Some parts ->
  exists more rest, parts = (c :: more) :: rest.
Proof.
  intros Hc. unfold ipv6_parts.
  destruct (split_head ":" c l Hc) as (more & rest & ->).
  destruct (length ((c :: more) :: rest) <? 3)%nat eqn:Elen; [discriminate|].
  apply Nat.ltb_ge in Elen.
  destruct (has_char "." (List.last ((c :: more) :: rest) [])).
  - destruct (ipv4_ok _); [|discriminate]. intros [= <-].
    destruct rest as [|r1 rest]; [simpl in Elen; lia|].
    cbn [removelast app]. eauto.
  - intros [= <-]. eauto.
Qed.

Lemma ipv6_head (c : ascii) (l : list ascii) :
  is_hexdigit c = false -> Ascii.eqb c ":" = false ->
  Ascii.eqb c "%" = false ->
  ipv6_ok (c :: l) = false.
Proof.
  intros Hc Hcolon Hpct. unfold ipv6_ok.
  destruct (negb (has_char "/" (c :: l))); [|reflexivity]. cbn [andb].
  unfold split_scope_id.
  destruct (split_head "%" c l Hpct) as (more & rest & ->).
  assert (Haddr : (match ipv6_parts (c :: more) with
                   | Some parts => ipv6_hextets_ok parts
                   | None => false
                   end) = false).
  { destruct (ipv6_parts (c :: more)) as [parts|] eqn:E; [|reflexivity].
    destruct (ipv6_parts_head c more parts Hcolon E) as (m & r & ->).
    now apply hextets_head. }
  destruct rest as [|scope [|x rest]]; [| |reflexivity].
  - cbn [is_empty_part negb andb]. exact Haddr.
  - destruct scope; [reflexivity|]. cbn [is_empty_part negb andb]. exact Haddr.
Qed.

(** A text that begins with ['#'] is no IP address. *)
Lemma comment_not_valid (s : string) :
  startswith "#" s = true -> is_valid_ip s = false.
Proof.
  unfold startswith. destruct s as [|c s]; [discriminate|].
  cbn [String.prefix].
  destruct (ascii_dec "#"%char c) as [<-|]; [|discriminate].
  intros _. unfold is_valid_ip, validate_ip, ip_address_ok.
  cbn [chars list_ascii_of_string]. fold (chars s).
  rewrite ipv4_head by reflexivity.
  rewrite ipv6_head by reflexivity. reflexivity.
Qed.

Lemma file_ips_clean (lines : list string) :
  Forall (fun a => a <> "" /\ is_stripped a = true) (file_ips lines).
Proof.
  unfold file_ips. induction lines as [|line lines IH]; [constructor|].
  cbn [List.filter].
  destruct (String.eqb (strip line) "") eqn:E; cbn [negb andb]; [exact IH|].
  destruct (startswith "#" line); cbn [negb]; [exact IH|].
  cbn [map]. constructor; [|exact IH].
  split; [now apply eqb_string_false | apply strip_is_stripped].
Qed.


(** ** output.write_json *)

Lemma dhas_ddel (k : string) (d : dict) : dhas k (ddel k d) = false.
Proof.
  unfold ddel. induction d as [|[k' v] d IH]; [reflexivity|].
  cbn [List.filter fst]. destruct (String.eqb k k') eqn:E; cbn [negb]; [exact IH|].
  cbn [dhas]. now rewrite E.
Qed.

Lemma dlookup_ddel_ne (k key : string) (d : dict) :
  key <> k -> dlookup key (ddel k d) = dlookup key d.
Proof.
  intros Hne. unfold ddel. induction d as [|[k' v] d IH]; [reflexivity|].
  cbn [List.filter fst dlookup].
  destruct (String.eqb k k') eqn:E; cbn [negb].
  - apply eqb_string_true in E. subst k'.
    apply eqb_string_false in Hne. now rewrite Hne.
  - cbn [dlookup]. now rewrite IH.
Qed.

Lemma ddel_absent (k : string) (d : dict) : dhas k d = false -> ddel k d = d.
Proof.
  unfold ddel. induction d as [|[k' v] d IH]; [reflexivity|].
  cbn [dhas List.filter fst]. destruct (String.eqb k k'); [discriminate|].
  intros Hd. cbn [negb]. now rewrite IH.
Qed.

Lemma output_results_dicts (ds : list dict) :
  Output.output_results false (map VDict ds)
  = Ok (map (fun d => VDict (ddel "raw" d)) ds).
Proof.
  induction ds as [|d ds IH]; [reflexivity|].
  cbn [map Output.output_results Output.output_result negb andb and_then].
  rewrite IH. cbn [and_then]. do 3 f_equal.
  destruct (dhas "raw" d) eqn:E; [reflexivity|].
  symmetry. now apply ddel_absent.
Qed.

(** X29. [write_json] never raises: it returns a boolean for every
    list of values and every failure. With no I/O failure pending,
    writing a list of records without [include_raw] returns [True] and
    leaves in the file the records without their ['raw'] key and with
    every other key as it was. *)
Theorem write_json_without_raw (results : list pyval) (ds : list dict)
  (output_file : string) (include_raw : bool) (w : World) :
  (exists ok w',
     Output.write_json results output_file include_raw w = (Ok ok, w'))
  /\ (faults w = [] ->
      exists w',
        Output.write_json (map VDict ds) output_file false w = (Ok true, w')
        /\ files w' !! output_file
           = Some (JsonDoc (VList (map (fun d => VDict (ddel "raw" d)) ds)))
        /\ Forall (fun d =>
                     dhas "raw" (ddel "raw" d) = false
                     /\ forall key, key <> "raw" ->
                          dlookup key (ddel "raw" d) = dlookup key d) ds).
Proof.
  split.
  - unfold Output.write_json.
    destruct (Output.output_results include_raw results) as [copies|e];
      unfold try_except, bind, lift_res, ret; [|eauto].
    destruct (write_json output_file (VList copies) w) as [[[]|e] w']; eauto.
  - intros Hfl. unfold Output.write_json. rewrite output_results_dicts.
    destruct w as [fs dirs0 ck fl tr lg]. simpl in Hfl. subst fl.
    unfold write_json. unfold_monad. simpl.
    eexists. split; [reflexivity|]. simpl.
    split; [now rewrite lookup_insert_eq|].
    apply List.Forall_forall. intros d _.
    split; [apply dhas_ddel | intros key Hkey; now apply dlookup_ddel_ne].
Qed.

(** ** clean_cache *)

(** [get] with no failure pending, by the state of the file. *)
Lemma cache_get_value (self : CacheManager) (ip method : string) (w : World) :
  faults w = [] ->
  fst (CacheManager_get self ip method w)
  = Ok (match files w !! _get_cache_path self ip method with
        | Some (JsonDoc data) =>
            match entry_age (clock w) data with
            | Ok age => if Qlt_bool (ttl self) age then VNone else entry_result data
            | Raise _ => VNone
            end
        | _ => VNone
        end).
Proof.
  intros Hfl.
  destruct (cache_get_spec self ip method w)
    as (v & w' & Hget & _ & Hmissing & _ & Hgarbled & Hdoc).
  rewrite Hget. cbn [fst]. f_equal.
  destruct (files w !! _get_cache_path self ip method) as [[data|text]|] eqn:E.
  - specialize (Hdoc data eq_refl).
    destruct (entry_age (clock w) data) as [age|e]; [|exact Hdoc].
    destruct (Qlt_bool (ttl self) age); [exact Hdoc|].
    apply Hdoc. intros msg rest. rewrite Hfl. discriminate.
  - now apply (Hgarbled text).
  - now apply Hmissing.
Qed.


(** ** Sample runs of the properties above *)

Lemma normalize_schema_witness :
  exists result,
    @normalize_whois_result sample_backend (VDict sample_raw) "IPWhoisResolver"
    = Ok result
    /\ dkeys result = record_keys
    /\ dget "source" result = VStr "IPWhoisResolver"
    /\ dget "raw" result = VDict sample_raw.
Proof.
  assert (Hrun : exists result,
             @normalize_whois_result sample_backend (VDict sample_raw)
               "IPWhoisResolver" = Ok result)
    by (vm_compute; eexists; reflexivity).
  destruct Hrun as [result E]. exists result. split; [exact E|].
  exact (@normalize_schema sample_backend (VDict sample_raw) "IPWhoisResolver"
           result E).
Defined.

Lemma normalize_total_on_dicts_witness :
  nets_are_dicts sample_raw = true
  /\ exists result,
       @normalize_whois_result sample_backend (VDict sample_raw) "IPWhoisResolver"
       = Ok result.
Proof.
  split; [reflexivity|].
  apply (@normalize_total_on_dicts sample_backend sample_raw "IPWhoisResolver").
  reflexivity.
Defined.

Lemma lookup_record_ip_witness :
  exists v,
    @finish sample_backend "IPWhoisResolver" "8.8.8.8" (Ok (VDict sample_raw)) = Ok v
    /\ exists raw result,
         VDict sample_raw = VDict raw
         /\ v = VDict result
         /\ dget "ip" result
            = match dlookup "ip" raw with Some x => x | None => VStr "8.8.8.8" end.
Proof.
  assert (Hrun : exists v,
             @finish sample_backend "IPWhoisResolver" "8.8.8.8"
               (Ok (VDict sample_raw)) = Ok v)
    by (vm_compute; eexists; reflexivity).
  destruct Hrun as [v E]. exists v. split; [exact E|].
  exact (@lookup_record_ip sample_backend "IPWhoisResolver" "8.8.8.8"
           (VDict sample_raw) v E).
Defined.

Lemma extract_asn_of_label_witness :
  is_digits (chars "15169") = true
  /\ extract_asn ("AS" +:+ "15169") = VStr "15169".
Proof.
  split; [reflexivity|]. apply (extract_asn_of_label "15169"). reflexivity.
Defined.

Lemma cache_round_trip_witness :
  VDict sample_primary <> VNone
  /\ faults sample_world = []
  /\ faults (snd (CacheManager_set sample_cache "8.8.8.8" "auto"
                    (VDict sample_primary) sample_world)) = []
  /\ fst (CacheManager_set sample_cache "8.8.8.8" "auto" (VDict sample_primary)
            sample_world) = Ok true
  /\ fst (CacheManager_get sample_cache "8.8.8.8" "auto"
            (snd (CacheManager_set sample_cache "8.8.8.8" "auto"
                    (VDict sample_primary) sample_world)))
     = Ok (if Qlt_bool (ttl sample_cache)
                (clock (snd (CacheManager_set sample_cache "8.8.8.8" "auto"
                               (VDict sample_primary) sample_world))
                 - clock sample_world)
           then VNone else VDict sample_primary).
Proof.
  split; [discriminate|]. split; [reflexivity|].
  split; [vm_compute; reflexivity|].
  apply (cache_round_trip sample_cache "8.8.8.8" "auto" (VDict sample_primary)
           sample_world);
    [discriminate | reflexivity | reflexivity | vm_compute; reflexivity].
Defined.

Lemma clean_expired_keeps_witness :
  files stocked_world !! "/var/cache/whois/8.8.8.8_auto.json"
  = Some (JsonDoc (VDict [("timestamp", VNum 99000);
                          ("result", VDict sample_primary)]))
  /\ doomed sample_cache (clock stocked_world)
       (JsonDoc (VDict [("timestamp", VNum 99000);
                        ("result", VDict sample_primary)])) = false
  /\ files (snd (CacheManager_clean_expired sample_cache stocked_world))
       !! "/var/cache/whois/8.8.8.8_auto.json"
     = Some (JsonDoc (VDict [("timestamp", VNum 99000);
                             ("result", VDict sample_primary)])).
Proof.
  split; [vm_compute; reflexivity|]. split; [vm_compute; reflexivity|].
  apply (clean_expired_keeps sample_cache stocked_world);
    [vm_compute; reflexivity | left; vm_compute; reflexivity].
Defined.


Lemma cache_path_in_cache_dir_witness :
  is_valid_ip "2001:4860:4860::8888" = true
  /\ has_char "/"%char (chars "auto") = false
  /\ entry_name (cache_dir sample_cache)
       (_get_cache_path sample_cache "2001:4860:4860::8888" "auto")
     = Some (cache_file_name "2001:4860:4860::8888" "auto")
  /\ endswith ".json" (cache_file_name "2001:4860:4860::8888" "auto") = true
  /\ endswith ".tmp" (cache_file_name "2001:4860:4860::8888" "auto") = false.
Proof.
  split; [vm_compute; reflexivity|]. split; [reflexivity|].
  apply (cache_path_in_cache_dir sample_cache "2001:4860:4860::8888" "auto");
    [vm_compute; reflexivity | reflexivity].
Defined.

Lemma lookup_single_method_witness :
  method_kind (lookup_method system_engine) = Some SystemWhoisResolver
  /\ truthy (cached_value system_engine "8.8.8.8" sample_world) = false
  /\ exists o w1,
       @resolver_run sample_backend system_engine "8.8.8.8" SystemWhoisResolver
         (announce SystemWhoisResolver "8.8.8.8"
            (add_log DEBUG ("Cache miss for " +:+ "8.8.8.8" +:+ ", looking it up")
               (after_cache_check system_engine "8.8.8.8" sample_world)))
       = (o, w1)
       /\ match o with
          | Ok v =>
              fst (@WhoisEngine_lookup_ip sample_backend system_engine "8.8.8.8"
                     sample_world) = Ok v
          | Raise e =>
              @WhoisEngine_lookup_ip sample_backend system_engine "8.8.8.8"
                sample_world
              = (Raise (Exn ValueError
                          ("Lookup with " +:+ class_name SystemWhoisResolver
                           +:+ " failed: " +:+ exn_str e)),
                 note_failure SystemWhoisResolver "8.8.8.8" o w1)
          end.
Proof.
  split; [reflexivity|]. split; [reflexivity|].
  apply (@lookup_single_method sample_backend system_engine "8.8.8.8"
           SystemWhoisResolver sample_world); reflexivity.
Defined.

Lemma lookup_invalid_method_witness :
  is_method_label (lookup_method rdap_engine) = false
  /\ truthy (cached_value rdap_engine "8.8.8.8" sample_world) = false
  /\ @WhoisEngine_lookup_ip sample_backend rdap_engine "8.8.8.8" sample_world
     = (Raise (Exn ValueError
                 ("Invalid lookup method '" +:+ lookup_method rdap_engine
                  +:+ "'. Available methods: auto, ipwhois, pythonwhois, system")),
        add_log DEBUG ("Cache miss for " +:+ "8.8.8.8" +:+ ", looking it up")
          (after_cache_check rdap_engine "8.8.8.8" sample_world)).
Proof.
  split; [reflexivity|]. split; [reflexivity|].
  apply (@lookup_invalid_method sample_backend rdap_engine "8.8.8.8" sample_world);
    reflexivity.
Defined.

Lemma lookup_cache_hit_witness :
  truthy (cached_value caching_engine "8.8.8.8" stocked_world) = true
  /\ exists w',
       @WhoisEngine_lookup_ip sample_backend caching_engine "8.8.8.8" stocked_world
       = (Ok (cached_value caching_engine "8.8.8.8" stocked_world), w')
       /\ files w' = files stocked_world /\ dirs w' = dirs stocked_world
       /\ clock w' = clock stocked_world
       /\ trace w' = trace stocked_world
       /\ log w' = log stocked_world
                   ++ [(DEBUG, "Found " +:+ "8.8.8.8" +:+ " in cache 🎯")].
Proof.
  split; [vm_compute; reflexivity|].
  apply (@lookup_cache_hit sample_backend caching_engine "8.8.8.8" stocked_world).
  vm_compute; reflexivity.
Defined.

Lemma lookup_invalid_identity_witness :
  is_auto sample_engine = true
  /\ is_valid_ip "8.8.8.256" = false
  /\ truthy (cached_value sample_engine "8.8.8.256" sample_world) = false
  /\ exists w',
       @WhoisEngine_lookup_ip sample_backend sample_engine "8.8.8.256" sample_world
       = (Raise (Exn ValueError ("All lookup methods failed for " +:+ "8.8.8.256")),
          w')
       /\ trace w' = trace sample_world /\ files w' = files sample_world
       /\ last (log w')
          = Some (ERROR, "No joy for " +:+ "8.8.8.256" +:+ " - all methods failed: "
                         +:+ join "; " ["Invalid IP address: " +:+ "8.8.8.256";
                                        "Invalid IP address: " +:+ "8.8.8.256";
                                        "Invalid IP address: " +:+ "8.8.8.256"]).
Proof.
  split; [reflexivity|]. split; [vm_compute; reflexivity|].
  split; [reflexivity|].
  apply (@lookup_invalid_identity sample_backend sample_engine "8.8.8.256"
           sample_world); [reflexivity | vm_compute; reflexivity | reflexivity].
Defined.


Lemma system_lookup_success_witness :
  sample_command ["/usr/bin/whois"; "8.8.8.8"] 30%Q
  = Completed sample_whois_output 0
  /\ sample_whois_output <> ""
  /\ exists result,
       SystemWhoisResolver_perform_lookup sample_command "/usr/bin/whois"
         "8.8.8.8" None = Ok (VDict result)
       /\ dget "raw_output" result = VStr sample_whois_output
       /\ dget "ip" result = VStr "8.8.8.8"
       /\ forall key, key <> "raw_output" ->
            dlookup key result
            = dlookup key (_parse_whois_output sample_whois_output "8.8.8.8").
Proof.
  split; [reflexivity|]. split; [vm_compute; discriminate|].
  apply (system_lookup_success sample_command "/usr/bin/whois" "8.8.8.8" None
           sample_whois_output 0); [reflexivity | vm_compute; discriminate].
Defined.


